(** * Bug tracker (app.py): a shallow embedding and its verified properties

    The program is one Flask module: a table of issues (SQLAlchemy over
    SQLite), a directory of uploaded files, and eight HTTP handlers, of
    which the seven that touch the table or the directory are modelled
    (the eighth renders the page at [/]).  The embedding keeps that shape.

    - Text is [string], a Python [str] held as its UTF-8 bytes (a lone
      surrogate as the three bytes UTF-8 would give it).  [Py.chars] cuts a
      text into its characters, so [len] counts characters and [str.strip]
      trims the white space of Unicode, as Python does; file names are
      bytes on the disk, which is where NAME_MAX is counted.
    - The table is a finite map from the primary key to a row; what a handler
      does to a row it has loaded stays local to the handler until
      [db.session.commit()], so a handler that returns early or raises
      leaves the table as it found it.
    - The upload directory lives on a small POSIX file system: a finite map
      from resolved absolute paths (lists of components) to nodes, with the
      kernel's component-by-component path walk.
    - A request is what Flask hands to the handler: the form, the JSON
      value of the body (of any JSON type), the uploaded files.
    - Handlers are functions from the world (table, disk, entropy counter)
      and the request to a response and the next world.  An exception that
      no handler catches is the response 500.  Failures of the environment
      (permissions, a full disk, a request above MAX_CONTENT_LENGTH) are
      not modelled. *)

From Stdlib Require Import Ascii String ZArith SpecFloat.
From stdpp Require Import gmap strings list fin_maps pretty sorting.

Open Scope string_scope.
Open Scope list_scope.
Open Scope nat_scope.

(** ** Python strings *)

Module Py.

(** Text from the bytes of its encoding *)
Definition bytes (l : list nat) : string :=
  fold_right (λ n s, String (ascii_of_nat n) s) EmptyString l.

(** A byte 10xxxxxx goes on with the character before it. *)
Definition is_continuation (a : ascii) : bool :=
  let n := nat_of_ascii a in
  ((128 <=? n) && (n <=? 191))%nat.

(** The characters of a text, each as its bytes: a character is a byte
    that is no continuation byte, with the continuation bytes after it. *)
Fixpoint chars (s : string) : list string :=
  match s with
  | EmptyString => []
  | String a r =>
      match chars r with
      | String b c :: cs =>
          if is_continuation b then String a (String b c) :: cs
          else String a EmptyString :: String b c :: cs
      | cs => String a EmptyString :: cs
      end
  end.

(** [len(s)] *)
Definition len (s : string) : nat := length (chars s).

(** [s[:n]] *)
Definition slice (n : nat) (s : string) : string :=
  fold_right String.append EmptyString (take n (chars s)).

(** The characters [c] with [c.isspace()]: U+0009..U+000D, U+001C..U+0020,
    U+0085, U+00A0, U+1680, U+2000..U+200A, U+2028, U+2029, U+202F, U+205F
    and U+3000. *)
Definition WHITESPACE : list string :=
  bytes <$>
    [ [9]; [10]; [11]; [12]; [13]; [28]; [29]; [30]; [31]; [32];
      [194; 133]; [194; 160]; [225; 154; 128];
      [226; 128; 128]; [226; 128; 129]; [226; 128; 130]; [226; 128; 131];
      [226; 128; 132]; [226; 128; 133]; [226; 128; 134]; [226; 128; 135];
      [226; 128; 136]; [226; 128; 137]; [226; 128; 138];
      [226; 128; 168]; [226; 128; 169]; [226; 128; 175]; [226; 129; 159];
      [227; 128; 128] ].

Definition isspace (c : string) : bool := bool_decide (c ∈ WHITESPACE).

Fixpoint lstrip (l : list string) : list string :=
  match l with
  | [] => []
  | c :: r => if isspace c then lstrip r else l
  end.

Fixpoint rstrip (l : list string) : list string :=
  match l with
  | [] => []
  | c :: r =>
      match rstrip r with
      | [] => if isspace c then [] else [c]
      | r' => c :: r'
      end
  end.

(** [s.strip()] *)
Definition strip (s : string) : string :=
  fold_right String.append EmptyString (lstrip (rstrip (chars s))).

(** A lone surrogate, U+D800..U+DFFF: the bytes ED A0..BF xx. *)
Definition is_surrogate (c : string) : bool :=
  match c with
  | String a (String b _) =>
      let n := nat_of_ascii b in
      ((nat_of_ascii a =? 237) && (160 <=? n) && (n <=? 191))%nat
  | _ => false
  end.

(** [s.encode("utf-8")] does not raise: no character is a lone surrogate. *)
Definition encodable (s : string) : bool := forallb (λ c, negb (is_surrogate c)) (chars s).

Definition lower_ascii (a : ascii) : ascii :=
  let n := nat_of_ascii a in
  if ((65 <=? n) && (n <=? 90))%nat then ascii_of_nat (n + 32) else a.

(** [s.lower()], written out for the letters A to Z.  It is used on the
    extension of a file name, which is then looked up in
    ALLOWED_EXTENSIONS: of the other characters only U+212A lowers to an
    ASCII letter, "k", which no allowed extension has. *)
Fixpoint lower (s : string) : string :=
  match s with
  | EmptyString => EmptyString
  | String a r => String (lower_ascii a) (lower r)
  end.

(** [c in s] for a one-character [c] *)
Fixpoint contains (c : ascii) (s : string) : bool :=
  match s with
  | EmptyString => false
  | String a r => if Ascii.eqb a c then true else contains c r
  end.

(** [x in s] for texts *)
Fixpoint substring_of (x s : string) : bool :=
  String.prefix x s
  || match s with
     | EmptyString => false
     | String _ r => substring_of x r
     end.

(** [s.rsplit(c, 1)[1]] when [c in s]: the text after the last [c] *)
Fixpoint rsplit1 (c : ascii) (s : string) : option string :=
  match s with
  | EmptyString => None
  | String a r =>
      match rsplit1 c r with
      | Some tl => Some tl
      | None => if Ascii.eqb a c then Some r else None
      end
  end.

(** [s.split(c)] *)
Fixpoint split (c : ascii) (s : string) : list string :=
  match s with
  | EmptyString => [EmptyString]
  | String a r =>
      if Ascii.eqb a c then EmptyString :: split c r
      else match split c r with
           | h :: t => String a h :: t
           | [] => [String a EmptyString]
           end
  end.

(** [sep.join(l)] *)
Fixpoint join (sep : string) (l : list string) : string :=
  match l with
  | [] => EmptyString
  | [x] => x
  | x :: r => x +:+ sep +:+ join sep r
  end.

(** [bool(s)] *)
Definition truthy (s : string) : bool :=
  match s with EmptyString => false | _ => true end.

(** [x or d] for an optional text [x] ([None] and [""] are both falsy) *)
Definition or_default (x : option string) (d : string) : string :=
  match x with
  | Some s => if truthy s then s else d
  | None => d
  end.

(** [l.remove(x)]: drops the first occurrence *)
Fixpoint remove_first (x : string) (l : list string) : list string :=
  match l with
  | [] => []
  | y :: r => if bool_decide (y = x) then r else y :: remove_first x r
  end.

End Py.

(** ** A POSIX file system, as much of it as the handlers touch *)

Module Posix.

Inductive node := File (content : string) | Dir.

#[global] Instance node_eq_dec : EqDecision node.
Proof. solve_decision. Defined.

(** Keys are resolved absolute paths: the components from the root, none
    of them [""], ["."] or [".."].  The root itself is [[]] and always a
    directory.  There are no symbolic links. *)
Abbreviation filesystem := (gmap (list string) node).

Inductive OSError :=
| FileNotFoundError | NotADirectoryError | IsADirectoryError
| FileNameTooLong.   (* OSError with errno ENAMETOOLONG *)

(** The longest name a directory entry can have, in bytes. *)
Definition NAME_MAX : nat := 255.

Inductive lookup_result := Found (p : list string) | Fails (e : OSError).

#[global] Instance OSError_eq_dec : EqDecision OSError.
Proof. solve_decision. Defined.

#[global] Instance lookup_result_eq_dec : EqDecision lookup_result.
Proof. solve_decision. Defined.

Definition is_dir (d : filesystem) (p : list string) : bool :=
  match p with
  | [] => true
  | _ => match d !! p with Some Dir => true | _ => false end
  end.

Definition parent (p : list string) : list string := removelast p.

(** One component, looked up in the directory [cur]. *)
Definition enter (cur : list string) (c : string) : list string :=
  if bool_decide (c = "") || bool_decide (c = ".") then cur
  else if bool_decide (c = "..") then parent cur
  else cur ++ [c].

(** The kernel's path walk: every component is looked up in a directory;
    a missing one is ENOENT, a file in the middle of a path is ENOTDIR.
    The last component may name nothing: the caller looks at the node. *)
Fixpoint walk (d : filesystem) (cur : list string) (comps : list string) : lookup_result :=
  match comps with
  | [] => Found cur
  | c :: rest =>
      if is_dir d cur then walk d (enter cur c) rest
      else match d !! cur with
           | Some _ => Fails NotADirectoryError
           | None => Fails FileNotFoundError
           end
  end.

(** A path as the program holds it: the components of an absolute path
    string, unresolved. *)
Definition resolve (d : filesystem) (path : list string) : lookup_result := walk d [] path.

(** [os.path.isabs(name)]: [name.startswith("/")] *)
Definition isabs (name : string) : bool :=
  match name with
  | String a _ => Ascii.eqb a "/"
  | EmptyString => false
  end.

(** [os.path.join(dir, name)] for an absolute [dir]: an absolute [name]
    replaces [dir]. *)
Definition os_path_join (dir : list string) (name : string) : list string :=
  if isabs name then Py.split "/" name else dir ++ Py.split "/" name.

(** [os.path.isfile(path)] *)
Definition os_path_isfile (d : filesystem) (path : list string) : bool :=
  match resolve d path with
  | Found p => match d !! p with Some (File _) => true | _ => false end
  | Fails _ => false
  end.

(** [os.remove(path)] *)
Definition os_remove (d : filesystem) (path : list string) : OSError + filesystem :=
  match resolve d path with
  | Found p =>
      match d !! p with
      | Some (File _) => inr (delete p d)
      | Some Dir => inl IsADirectoryError
      | None => match p with [] => inl IsADirectoryError | _ => inl FileNotFoundError end
      end
  | Fails e => inl e
  end.

(** [open(path, "wb").write(content)]: the file is created in the
    directory the path leads to, which refuses a name above NAME_MAX. *)
Definition write_file (d : filesystem) (path : list string) (content : string)
  : OSError + filesystem :=
  match resolve d path with
  | Found p =>
      if (NAME_MAX <? String.length (default EmptyString (last path)))%nat
      then inl FileNameTooLong
      else if is_dir d p then inl IsADirectoryError
      else inr (<[p := File content]> d)
  | Fails e => inl e
  end.

(** [open(path, "rb")]: where the path leads and what is there *)
Definition open_file (d : filesystem) (path : list string) : option (list string * string) :=
  match resolve d path with
  | Found p => match d !! p with Some (File c) => Some (p, c) | _ => None end
  | Fails _ => None
  end.

(** The loop of [posixpath.normpath] over [path.split("/")]. *)
Fixpoint normpath_loop (initial_slashes : nat) (comps new_comps : list string) : list string :=
  match comps with
  | [] => new_comps
  | comp :: rest =>
      if bool_decide (comp = "") || bool_decide (comp = ".") then
        normpath_loop initial_slashes rest new_comps
      else if negb (bool_decide (comp = ".."))
              || (bool_decide (initial_slashes = 0) && bool_decide (new_comps = []))
              || bool_decide (last new_comps = Some "..") then
        normpath_loop initial_slashes rest (new_comps ++ [comp])
      else normpath_loop initial_slashes rest (removelast new_comps)
  end.

(** [s.startswith(p)] *)
Definition startswith (p s : string) : bool := String.prefix p s.

(** [posixpath.normpath(path)] *)
Definition normpath (path : string) : string :=
  if bool_decide (path = "") then "."
  else
    let initial_slashes :=
      if startswith "/" path then
        if startswith "//" path && negb (startswith "///" path) then 2 else 1
      else 0 in
    let comps := normpath_loop initial_slashes (Py.split "/" path) [] in
    let path := Py.join "/" comps in
    let path :=
      match initial_slashes with
      | 0 => path
      | 1 => "/" +:+ path
      | _ => "//" +:+ path
      end in
    if Py.truthy path then path else ".".

(** werkzeug's [safe_join(directory, filename)] on a POSIX host (no
    alternative separators) *)
Definition safe_join (directory : list string) (filename : string) : option (list string) :=
  let filename := if negb (bool_decide (filename = "")) then normpath filename else filename in
  if isabs filename || bool_decide (filename = "..") || startswith "../" filename then None
  else Some (os_path_join directory filename).

End Posix.

(** ** The application *)

(** ----- Config ----- *)
Definition ALLOWED_TRACKS : gset string := {[ "AP"; "RP"; "Common"; "LI"; "ES" ]}.
Definition ALLOWED_STATUS : gset string := {[ "Open"; "Fixed"; "Deployed"; "Closed" ]}.
Definition ALLOWED_EXTENSIONS : gset string :=
  {[ "png"; "jpg"; "jpeg"; "gif"; "webp"; "bmp"; "pdf" ]}.
Definition MAX_ATTACHMENTS : nat := 5.

(** ----- DB Model -----
    One row of the table.  The three NOT NULL text columns hold text, the
    others text or NULL; [attachments] is the JSON text of a list of file
    names, kept here as the list it encodes. *)
Record Issue := mkIssue {
  id : Z;
  track : string;
  summary : string;
  description : option string;
  attachments : option (list string);
  raised_by : option string;
  assignee : option string;
  status : string;
  scenario_id : option string;
  step_no : option string;
  created_at : Z
}.

(** A JSON value, as far as the responses need them. *)
Inductive Value :=
| VNone
| VInt (z : Z)
| VStr (s : string)
| VList (l : list string)
| VIsoZ (t : Z).   (* the ISO-8601 text of [t] followed by "Z" *)

#[global] Instance Value_eq_dec : EqDecision Value.
Proof. solve_decision. Defined.

Definition text_or_null (o : option string) : Value :=
  match o with Some s => VStr s | None => VNone end.

(** [json.loads(issue.attachments) if issue.attachments else []] *)
Definition attachment_list (i : Issue) : list string := default [] (attachments i).

Definition to_dict (self : Issue) : list (string * Value) :=
  [ ("id", VInt (id self));
    ("track", VStr (track self));
    ("summary", VStr (summary self));
    ("description", text_or_null (description self));
    ("attachments", VList (attachment_list self));
    ("raised_by", text_or_null (raised_by self));
    ("assignee", text_or_null (assignee self));
    ("status", VStr (status self));
    ("scenario_id", text_or_null (scenario_id self));
    ("step_no", text_or_null (step_no self));
    ("created_at", VIsoZ (created_at self)) ].

(** [getattr(issue, field)] for the eight text columns *)
Definition getattr (i : Issue) (field : string) : option string :=
  if bool_decide (field = "track") then Some (track i)
  else if bool_decide (field = "summary") then Some (summary i)
  else if bool_decide (field = "description") then description i
  else if bool_decide (field = "raised_by") then raised_by i
  else if bool_decide (field = "assignee") then assignee i
  else if bool_decide (field = "status") then Some (status i)
  else if bool_decide (field = "scenario_id") then scenario_id i
  else if bool_decide (field = "step_no") then step_no i
  else None.

(** [setattr(issue, field, v)] for the eight text columns *)
Definition setattr (i : Issue) (field : string) (v : string) : Issue :=
  if bool_decide (field = "track") then
    mkIssue (id i) v (summary i) (description i) (attachments i) (raised_by i)
            (assignee i) (status i) (scenario_id i) (step_no i) (created_at i)
  else if bool_decide (field = "summary") then
    mkIssue (id i) (track i) v (description i) (attachments i) (raised_by i)
            (assignee i) (status i) (scenario_id i) (step_no i) (created_at i)
  else if bool_decide (field = "description") then
    mkIssue (id i) (track i) (summary i) (Some v) (attachments i) (raised_by i)
            (assignee i) (status i) (scenario_id i) (step_no i) (created_at i)
  else if bool_decide (field = "raised_by") then
    mkIssue (id i) (track i) (summary i) (description i) (attachments i) (Some v)
            (assignee i) (status i) (scenario_id i) (step_no i) (created_at i)
  else if bool_decide (field = "assignee") then
    mkIssue (id i) (track i) (summary i) (description i) (attachments i) (raised_by i)
            (Some v) (status i) (scenario_id i) (step_no i) (created_at i)
  else if bool_decide (field = "status") then
    mkIssue (id i) (track i) (summary i) (description i) (attachments i) (raised_by i)
            (assignee i) v (scenario_id i) (step_no i) (created_at i)
  else if bool_decide (field = "scenario_id") then
    mkIssue (id i) (track i) (summary i) (description i) (attachments i) (raised_by i)
            (assignee i) (status i) (Some v) (step_no i) (created_at i)
  else if bool_decide (field = "step_no") then
    mkIssue (id i) (track i) (summary i) (description i) (attachments i) (raised_by i)
            (assignee i) (status i) (scenario_id i) (Some v) (created_at i)
  else i.

Definition set_attachments (i : Issue) (l : list string) : Issue :=
  mkIssue (id i) (track i) (summary i) (description i) (Some l) (raised_by i)
          (assignee i) (status i) (scenario_id i) (step_no i) (created_at i).

(** ----- Requests and responses ----- *)

(** An uploaded file (werkzeug's [FileStorage]); it is falsy when its name
    is empty. *)
Record FileStorage := mkFile { filename : string; stream : string }.

(** What [json.loads] makes of a JSON text: [None], [bool], [int], [float]
    (an IEEE 754 double), [str], [list] or [dict]. *)
#[warnings="-register-all"] Inductive Json :=
| JNull
| JBool (b : bool)
| JInt (z : Z)
| JFloat (f : spec_float)
| JStr (s : string)
| JList (l : list Json)
| JDict (d : gmap string Json).

(** The body as [request.json] finds it: not announced as JSON, announced
    as JSON and not parseable, or a JSON value. *)
Inductive Body := NotJson | Malformed | Parsed (j : Json).

(** [form] is [request.form] (its values are always text), [json] is the
    body for [request.json], [files] is
    [request.files.getlist("attachments")].  Files travel in a multipart
    body, which is no JSON: [request_json] below looks at [json] only when
    there is no file. *)
Record Request := mkRequest {
  form : gmap string string;
  json : Body;
  files : list FileStorage
}.

(** A worksheet is the list of the cells written to it: row, column, value. *)
Abbreviation Sheet := (list (nat * nat * Value)).

Inductive Payload :=
| Json_issue (d : list (string * Value))
| Json_issues (ds : list (list (string * Value)))
| Json_error (msg : string)
| Json_message (msg : string)
| File_content (path : list string) (content : string)
| Xlsx (download_name : string) (sheets : list (string * Sheet))
| Redirect_page
| Error_page.

Record Response := mkResponse { status_code : nat; payload : Payload }.

(** What Flask answers when a handler raises an exception nobody catches. *)
Definition internal_server_error : Response := mkResponse 500 Error_page.

(** The table, the disk, and how many uuids have been drawn. *)
Record World := mkWorld {
  db : gmap Z Issue;
  disk : Posix.filesystem;
  entropy : nat
}.

(** SQLite's rowid for an INTEGER PRIMARY KEY: one more than the largest
    in the table. *)
Definition next_id (table : gmap Z Issue) : Z :=
  (1 + map_fold (λ k _ acc, Z.max k acc) 0 table)%Z.

(** [Issue.query.order_by(Issue.id.desc()).all()] *)
Definition id_desc (a b : Issue) : Prop := (id b ≤ id a)%Z.

#[global] Instance id_desc_dec a b : Decision (id_desc a b).
Proof. unfold id_desc. apply _. Defined.

Definition all_by_id_desc (table : gmap Z Issue) : list Issue :=
  merge_sort id_desc ((map_to_list table).*2).

(** ----- pandas, as much of it as the export uses ----- *)

(** [d.get(key)], a missing key giving an empty cell *)
Fixpoint dict_get (d : list (string * Value)) (key : string) : Value :=
  match d with
  | [] => VNone
  | (k, v) :: r => if bool_decide (k = key) then v else dict_get r key
  end.

Record DataFrame := mkFrame { columns : list string; rows : list (list Value) }.

(** [pd.DataFrame(data)] for a list of records: the columns are the keys of
    the records in the order they first appear; no record, no column. *)
Definition pd_DataFrame (data : list (list (string * Value))) : DataFrame :=
  let cols :=
    foldl (λ cols d, foldl (λ cs k, if bool_decide (k ∈ cs) then cs else cs ++ [k]) cols (d.*1))
          [] data in
  mkFrame cols ((λ d, (λ c, dict_get d c) <$> cols) <$> data).

(** The control characters openpyxl refuses in a cell:
    [[\000-\010]|[\013-\014]|[\016-\037]]. *)
Definition ILLEGAL_CHARACTER (a : ascii) : bool :=
  let n := nat_of_ascii a in
  ((n <=? 8) || ((11 <=? n) && (n <=? 12)) || ((14 <=? n) && (n <=? 31)))%nat.

Fixpoint has_illegal_character (s : string) : bool :=
  match s with
  | EmptyString => false
  | String a r => ILLEGAL_CHARACTER a || has_illegal_character r
  end.

(** The most characters a cell holds. *)
#[warnings="-abstract-large-number"] Definition CELL_MAX : nat := 32767.

(** openpyxl's [Cell.check_string]: the text is cut at 32767 characters;
    a control character left in it raises IllegalCharacterError. *)
Definition check_string (value : string) : option string :=
  let value := Py.slice CELL_MAX value in
  if has_illegal_character value then None else Some value.

(** Assigning to a cell.  The cell is kept as the value it holds; how the
    workbook types a text (as text, formula or error code) is left out. *)
Definition bind_value (v : Value) : option Value :=
  match v with
  | VStr s => VStr <$> check_string s
  | _ => Some v
  end.

(** [df.to_excel(writer, index=False, sheet_name=...)]: the header cells,
    one per column, then the cells of each row; [None] when a cell is
    refused. *)
Definition to_excel (df : DataFrame) (sheet_name : string) : option (string * Sheet) :=
  header ← mapM (λ c, bind_value (VStr c)) (columns df);
  body ← mapM (mapM bind_value) (rows df);
  Some (sheet_name,
        imap (λ j v, (0, j, v)) header
        ++ concat (imap (λ r row, imap (λ j v, (S r, j, v)) row) body)).

(** [d[key] = v]: a key the record has keeps its place, a new one goes last *)
Fixpoint dict_set (d : list (string * Value)) (key : string) (v : Value) : list (string * Value) :=
  match d with
  | [] => [(key, v)]
  | (k, x) :: r => if bool_decide (k = key) then (k, v) :: r else (k, x) :: dict_set r key v
  end.

(** ----- Helpers ----- *)

Definition allowed_file (filename : string) : bool :=
  if negb (Py.contains "." filename) then false
  else match Py.rsplit1 "." filename with
       | Some ext => bool_decide (Py.lower ext ∈ ALLOWED_EXTENSIONS)
       | None => false
       end.

(** [bool(v)] *)
Definition Json_truthy (v : Json) : bool :=
  match v with
  | JNull => false
  | JBool b => b
  | JInt z => negb (z =? 0)%Z
  | JFloat f => match f with S754_zero _ => false | _ => true end
  | JStr s => Py.truthy s
  | JList l => match l with [] => false | _ => true end
  | JDict d => negb (bool_decide (d = ∅))
  end.

(** [request.json]: 415 when the body is not announced as JSON (a
    multipart body never is), 400 when it does not parse. *)
Definition request_json (request : Request) : Response + Json :=
  match files request with
  | _ :: _ => inl (mkResponse 415 Error_page)
  | [] =>
      match json request with
      | NotJson => inl (mkResponse 415 Error_page)
      | Malformed => inl (mkResponse 400 Error_page)
      | Parsed j => inr j
      end
  end.

(** [request.form or request.json]: an empty form is falsy; the form is a
    dictionary of texts. *)
Definition request_data (request : Request) : Response + Json :=
  if bool_decide (form request = ∅) then request_json request
  else inr (JDict (JStr <$> form request)).

(** [field in data]: a key of a dictionary, an element of a list, a piece
    of a text; [None] is the TypeError of the other types. *)
Definition Json_contains (data : Json) (field : string) : option bool :=
  match data with
  | JDict d => Some (bool_decide (is_Some (d !! field)))
  | JList l =>
      Some (existsb (λ x, match x with JStr s => bool_decide (s = field) | _ => false end) l)
  | JStr s => Some (Py.substring_of field s)
  | _ => None
  end.

(** [data[field]] for a text [field]: [None] is the TypeError of a list or
    a text indexed by a text (and the KeyError of a missing key). *)
Definition Json_getitem (data : Json) (field : string) : option Json :=
  match data with
  | JDict d => d !! field
  | _ => None
  end.

(** [value not in ALLOWED_STATUS]: [None] is the TypeError of a value that
    cannot be hashed; a value that is no text equals no status. *)
Definition not_in_allowed_status (value : Json) : option bool :=
  match value with
  | JStr s => Some (negb (bool_decide (s ∈ ALLOWED_STATUS)))
  | JList _ | JDict _ => None
  | _ => Some true
  end.

(** [(value or "").strip()]: [None] is the AttributeError of a truthy
    value that is no text. *)
Definition or_empty_strip (value : Json) : option string :=
  if negb (Json_truthy value) then Some (Py.strip "")
  else match value with
       | JStr s => Some (Py.strip s)
       | _ => None
       end.

Definition UPDATABLE : list string :=
  ["track"; "summary"; "description"; "raised_by"; "assignee"; "status"; "scenario_id"; "step_no"].

(** The loop of [update_issue] over the field names: [inl] is the early
    return or the exception, [inr] the row as the loop leaves it. *)
Fixpoint update_fields (fields : list string) (data : Json) (issue : Issue)
    : Response + Issue :=
  match fields with
  | [] => inr issue
  | field :: rest =>
      match Json_contains data field with
      | None => inl internal_server_error
      | Some false => update_fields rest data issue
      | Some true =>
          match Json_getitem data field with
          | None => inl internal_server_error
          | Some value =>
              match (if bool_decide (field = "status") then not_in_allowed_status value
                     else Some false) with
              | None => inl internal_server_error
              | Some true => inl (mkResponse 400 (Json_error "Invalid status"))
              | Some false =>
                  match or_empty_strip value with
                  | None => inl internal_server_error
                  | Some text => update_fields rest data (setattr issue field text)
                  end
              end
          end
      end
  end.

(** [db.session.commit()] after the loop writes the columns that were
    assigned; SQLite takes text as UTF-8 and the binding raises
    UnicodeEncodeError on a lone surrogate, which only a JSON body can
    carry. *)
Definition committable (data : Json) (issue : Issue) : bool :=
  forallb (λ field,
             match Json_contains data field, getattr issue field with
             | Some true, Some text => Py.encodable text
             | _, _ => true
             end) UPDATABLE.

(** The loop of [delete_issue] over the stored names: a missing file is
    passed over, any other error leaves the loop with the disk as it is
    by then. *)
Fixpoint remove_files (upload_folder : list string) (names : list string) (d : Posix.filesystem)
    : option Posix.OSError * Posix.filesystem :=
  match names with
  | [] => (None, d)
  | f :: rest =>
      match Posix.os_remove d (Posix.os_path_join upload_folder f) with
      | inr d' => remove_files upload_folder rest d'
      | inl Posix.FileNotFoundError => remove_files upload_folder rest d
      | inl e => (Some e, d)
      end
  end.

(** werkzeug's [send_from_directory(directory, path)] *)
Definition send_from_directory (d : Posix.filesystem) (directory : list string) (path : string)
    : Response :=
  match Posix.safe_join directory path with
  | None => mkResponse 404 Error_page
  | Some p =>
      if negb (Posix.os_path_isfile d p) then mkResponse 404 Error_page
      else match Posix.open_file d p with
           | Some (q, content) => mkResponse 200 (File_content q content)
           | None => mkResponse 500 Error_page
           end
  end.

Section App.

(** What the deployment supplies: the hex text of the n-th uuid drawn,
    werkzeug's [secure_filename], and the directory of app.py (the
    components of its absolute path). *)
Variable uuid4_hex : nat → string.
Variable secure_filename : string → string.
Variable app_dir : list string.

Definition UPLOAD_FOLDER : list string := app_dir ++ ["uploads"].

Definition stored_name (n : nat) (original : string) : string :=
  uuid4_hex n +:+ "_" +:+ secure_filename original.

(** The loop of [save_attachments]; a failing [f.save] leaves it. *)
Fixpoint save_loop (batch : list FileStorage) (saved : list string) (w : World)
    : (Posix.OSError + list string) * World :=
  match batch with
  | [] => (inr saved, w)
  | f :: rest =>
      if Py.truthy (filename f) && Py.truthy (filename f) && allowed_file (filename f) then
        let unique := stored_name (entropy w) (filename f) in
        match Posix.write_file (disk w) (Posix.os_path_join UPLOAD_FOLDER unique) (stream f) with
        | inr d' => save_loop rest (saved ++ [unique]) (mkWorld (db w) d' (S (entropy w)))
        | inl e => (inl e, mkWorld (db w) (disk w) (S (entropy w)))
        end
      else save_loop rest saved w
  end.

Definition save_attachments (files : list FileStorage) (w : World)
    : (Posix.OSError + list string) * World :=
  save_loop (take MAX_ATTACHMENTS files) [] w.

(** ----- Routes ----- *)

Definition get_issues (w : World) : Response * World :=
  (mkResponse 200 (Json_issues (to_dict <$> all_by_id_desc (db w))), w).

(** [utcnow] is the clock at the insert, the default of [created_at].  A
    failing [f.save] is not caught: the request ends in 500 and no row is
    added. *)
Definition add_issue (w : World) (request : Request) (utcnow : Z) : Response * World :=
  let data := form request in
  let track := Py.strip (Py.or_default (data !! "track") "") in
  let status := Py.strip (Py.or_default (data !! "status") "Open") in
  let summary := Py.strip (Py.or_default (data !! "summary") "") in
  let description := Py.strip (Py.or_default (data !! "description") "") in
  let raised_by := Py.strip (Py.or_default (data !! "raised_by") "") in
  let assignee := Py.strip (Py.or_default (data !! "assignee") "") in
  let scenario_id := Py.strip (Py.or_default (data !! "scenario_id") "") in
  let step_no := Py.strip (Py.or_default (data !! "step_no") "") in
  if negb (bool_decide (track ∈ ALLOWED_TRACKS)) then
    (mkResponse 400 (Json_error "Invalid track"), w)
  else if negb (bool_decide (status ∈ ALLOWED_STATUS)) then
    (mkResponse 400 (Json_error "Invalid status"), w)
  else if negb (Py.truthy summary) || (250 <? Py.len summary)%nat then
    (mkResponse 400 (Json_error "Summary is required and must be ≤ 250 chars"), w)
  else
    let files := files request in
    if (MAX_ATTACHMENTS <? length files)%nat then
      (mkResponse 400
         (Json_error ("Max " +:+ pretty MAX_ATTACHMENTS +:+ " attachments allowed")), w)
    else
      match save_attachments files w with
      | (inl _, w1) => (internal_server_error, w1)
      | (inr filenames, w1) =>
          let issue :=
            mkIssue (next_id (db w1)) track summary (Some description) (Some filenames)
                    (Some raised_by) (Some assignee) status (Some scenario_id)
                    (Some step_no) utcnow in
          (mkResponse 201 (Json_issue (to_dict issue)),
           mkWorld (<[id issue := issue]> (db w1)) (disk w1) (entropy w1))
      end.

(** [request.json] may refuse the body (415, 400); an exception in the
    loop, in [f.save] or at the commit ends the request in 500; nothing is
    committed on the early return for an invalid status nor after an
    exception, but the files saved before it stay. *)
Definition update_issue (w : World) (issue_id : Z) (request : Request) : Response * World :=
  match db w !! issue_id with
  | None => (mkResponse 404 Error_page, w)
  | Some issue =>
      match request_data request with
      | inl refusal => (refusal, w)
      | inr data =>
          match update_fields UPDATABLE data issue with
          | inl early => (early, w)
          | inr issue =>
              let new_files := files request in
              match new_files with
              | [] =>
                  if committable data issue then
                    (mkResponse 200 (Json_issue (to_dict issue)),
                     mkWorld (<[issue_id := issue]> (db w)) (disk w) (entropy w))
                  else (internal_server_error, w)
              | _ =>
                  let existing := attachment_list issue in
                  match save_attachments new_files w with
                  | (inl _, w1) => (internal_server_error, w1)
                  | (inr saved, w1) =>
                      let issue := set_attachments issue (existing ++ saved) in
                      if committable data issue then
                        (mkResponse 200 (Json_issue (to_dict issue)),
                         mkWorld (<[issue_id := issue]> (db w1)) (disk w1) (entropy w1))
                      else (internal_server_error, w1)
                  end
              end
          end
      end
  end.

(** An error of [os.remove] other than FileNotFoundError is not caught: the
    request ends in 500 with the row still there. *)
Definition delete_issue (w : World) (issue_id : Z) : Response * World :=
  match db w !! issue_id with
  | None => (mkResponse 404 Error_page, w)
  | Some issue =>
      let files := attachment_list issue in
      match remove_files UPLOAD_FOLDER files (disk w) with
      | (Some _, d') => (mkResponse 500 Error_page, mkWorld (db w) d' (entropy w))
      | (None, d') =>
          (mkResponse 200 (Json_message "Issue deleted"),
           mkWorld (delete issue_id (db w)) d' (entropy w))
      end
  end.

(** The list is committed before the file is removed. *)
Definition delete_attachment (w : World) (issue_id : Z) (filename : string)
    : Response * World :=
  match db w !! issue_id with
  | None => (mkResponse 404 Error_page, w)
  | Some issue =>
      let files := attachment_list issue in
      if bool_decide (filename ∈ files) then
        let files := Py.remove_first filename files in
        let issue := set_attachments issue files in
        let table := <[issue_id := issue]> (db w) in
        match Posix.os_remove (disk w) (Posix.os_path_join UPLOAD_FOLDER filename) with
        | inr d' => (mkResponse 200 (Json_issue (to_dict issue)), mkWorld table d' (entropy w))
        | inl Posix.FileNotFoundError =>
            (mkResponse 200 (Json_issue (to_dict issue)), mkWorld table (disk w) (entropy w))
        | inl _ => (mkResponse 500 Error_page, mkWorld table (disk w) (entropy w))
        end
      else (mkResponse 200 (Json_issue (to_dict issue)), w)
  end.

Definition uploaded_file (w : World) (filename : string) : Response * World :=
  let safe_path := Posix.os_path_join UPLOAD_FOLDER filename in
  if negb (Posix.os_path_isfile (disk w) safe_path) then (mkResponse 404 Error_page, w)
  else (send_from_directory (disk w) UPLOAD_FOLDER filename, w).

Definition download_issues (w : World) : Response * World :=
  let issues := all_by_id_desc (db w) in
  let data :=
    (λ i, let d := to_dict i in
          dict_set d "attachments" (VStr (Py.join ", " (attachment_list i)))) <$> issues in
  let df := pd_DataFrame data in
  match to_excel df "Issues" with
  | Some sheet => (mkResponse 200 (Xlsx "issues.xlsx" [sheet]), w)
  | None => (internal_server_error, w)
  end.

(** ----- The HTTP surface ----- *)

Inductive Call :=
| GET_issues
| POST_issues (request : Request) (utcnow : Z)
| PATCH_issue (issue_id : Z) (request : Request)
| DELETE_issue (issue_id : Z)
| DELETE_attachment (issue_id : Z) (filename : string)
| GET_upload (filename : string)
| GET_download.

(** What the URL converters of the routes let through: [<int:issue_id>] a
    natural number, [<filename>] one segment, [<path:filename>] a path
    that does not start with a slash. *)
Definition int_converter (z : Z) : bool := (0 <=? z)%Z.
Definition string_converter (s : string) : bool := Py.truthy s && negb (Py.contains "/" s).
Definition path_converter (s : string) : bool := Py.truthy s && negb (Posix.isabs s).

Definition no_route (w : World) : Response * World := (mkResponse 404 Error_page, w).

(** A URL that matches no route is tried again with its first doubled
    slash merged (werkzeug's [merge_slashes]); when that matches, the
    client is sent there with 308.  The URL of a call is the prefix of its
    route followed by the name, so the doubled slash is the one a name
    brings that starts with a slash. *)
Definition merged_route (converter : string → bool) (name : string) (w : World)
    : Response * World :=
  match name with
  | String a rest =>
      if Ascii.eqb a "/" && converter rest then (mkResponse 308 Redirect_page, w)
      else no_route w
  | EmptyString => no_route w
  end.

(** [Issue.query.get_or_404(issue_id)] binds the id to the query, and an
    id that SQLite cannot hold (its keys are 64-bit signed integers) raises
    OverflowError there, before anything else is done.  The handlers below
    are entered with an id that can be bound. *)
Definition bound_id (issue_id : Z) (w : World) (answer : Response * World)
    : Response * World :=
  if (2 ^ 63 <=? issue_id)%Z then (internal_server_error, w) else answer.

Definition handle (w : World) (c : Call) : Response * World :=
  match c with
  | GET_issues => get_issues w
  | POST_issues request utcnow => add_issue w request utcnow
  | PATCH_issue issue_id request =>
      if int_converter issue_id
      then bound_id issue_id w (update_issue w issue_id request)
      else no_route w
  | DELETE_issue issue_id =>
      if int_converter issue_id
      then bound_id issue_id w (delete_issue w issue_id)
      else no_route w
  | DELETE_attachment issue_id filename =>
      if int_converter issue_id then
        if string_converter filename
        then bound_id issue_id w (delete_attachment w issue_id filename)
        else merged_route string_converter filename w
      else no_route w
  | GET_upload filename =>
      if path_converter filename then uploaded_file w filename
      else merged_route path_converter filename w
  | GET_download => download_issues w
  end.

(** The world after a sequence of calls. *)
Definition run (w : World) (calls : list Call) : World :=
  foldl (λ w c, (handle w c).2) w calls.

(** The answers to a sequence of calls. *)
Fixpoint answers (w : World) (calls : list Call) : list Response :=
  match calls with
  | [] => []
  | c :: rest => (handle w c).1 :: answers (handle w c).2 rest
  end.

End App.

(** ** A concrete deployment, for the examples

    Hex text that differs from draw to draw, a sanitiser with the alphabet
    of werkzeug's [secure_filename], and app.py installed in /srv/app. *)

Fixpoint demo_uuid4_hex (n : nat) : string :=
  match n with
  | 0 => "0"
  | S k => String "a" (demo_uuid4_hex k)
  end.

Definition filename_ascii (a : ascii) : bool :=
  let n := nat_of_ascii a in
  (((48 <=? n) && (n <=? 57)) || ((65 <=? n) && (n <=? 90)) || ((97 <=? n) && (n <=? 122))
   || (n =? 95) || (n =? 46) || (n =? 45))%nat.

Fixpoint demo_secure_filename (s : string) : string :=
  match s with
  | EmptyString => EmptyString
  | String a r =>
      if filename_ascii a then String a (demo_secure_filename r) else demo_secure_filename r
  end.

Definition demo_app_dir : list string := ["srv"; "app"].

(** An empty table and a disk that holds the upload folder and nothing
    else: the state after start-up on a fresh install. *)
Fixpoint ancestors (p : list string) : list (list string) :=
  match p with
  | [] => []
  | c :: r => [c] :: (cons c <$> ancestors r)
  end.

Definition fresh_disk (app_dir : list string) : Posix.filesystem :=
  list_to_map ((λ p, (p, Posix.Dir)) <$> ancestors (app_dir ++ ["uploads"])).

Definition fresh_world (app_dir : list string) : World :=
  mkWorld ∅ (fresh_disk app_dir) 0.

Definition demo_world : World := fresh_world demo_app_dir.

Definition text_form (l : list (string * string)) : gmap string string := list_to_map l.

Definition png (name : string) : FileStorage := mkFile (name +:+ ".png") "PNG".

(** ** Vocabulary of the statements *)

(** A name that is one path component: not empty, not a dot entry, and
    without a separator. *)
Definition plain_name (s : string) : bool :=
  Py.truthy s && negb (bool_decide (s = ".")) && negb (bool_decide (s = ".."))
  && negb (Py.contains "/" s).

(** The shape of the stack of [normpath]'s loop on a relative path: some
    [".."], then names. *)
Definition climbing (l : list string) : Prop :=
  ∃ k names, l = replicate k ".." ++ names ∧ Forall (λ c, plain_name c = true) names.

(** The upload folder is where its path says and is a directory. *)
Definition upload_folder_ready (upload_folder : list string) (d : Posix.filesystem) : Prop :=
  Posix.resolve d upload_folder = Posix.Found upload_folder
  ∧ Posix.is_dir d upload_folder = true.

(** [p] is an entry of the directory [dir]. *)
Definition entry_of (dir p : list string) : Prop := p ≠ [] ∧ removelast p = dir.

(** The upload folder holds no directory. *)
Definition no_subdirectory (upload_folder : list string) (d : Posix.filesystem) : Prop :=
  map_Forall (λ p n, entry_of upload_folder p → n ≠ Posix.Dir) d.

(** The field is in the body the handler reads. *)
Definition supplied (request : Request) (field : string) : bool :=
  match request_data request with
  | inr (JDict data) => bool_decide (is_Some (data !! field))
  | _ => false
  end.

(** The test of [save_attachments] on one upload. *)
Definition acceptable (f : FileStorage) : bool :=
  Py.truthy (filename f) && allowed_file (filename f).

(** Files come and go; directories stay. *)
Definition same_dirs (d d' : Posix.filesystem) : Prop := ∀ p, Posix.is_dir d' p = Posix.is_dir d p.

(** The uploads of a batch that [save_attachments] keeps, in their order. *)
Definition kept (batch : list FileStorage) : list FileStorage :=
  filter (λ f, acceptable f) batch.

(** The fields of a create request pass the three checks of [add_issue]. *)
Definition valid_fields (request : Request) : Prop :=
  Py.strip (Py.or_default (form request !! "track") "") ∈ ALLOWED_TRACKS
  ∧ Py.strip (Py.or_default (form request !! "status") "Open") ∈ ALLOWED_STATUS
  ∧ Py.strip (Py.or_default (form request !! "summary") "") ≠ ""
  ∧ (Py.len (Py.strip (Py.or_default (form request !! "summary") "")) ≤ 250)%nat.

Section Names.

Variable uuid4_hex : nat → string.
Variable secure_filename : string → string.

(** The names [save_attachments] gives to a batch when the uuid counter
    stands at [n]: one per kept upload, in order. *)
Fixpoint stored_names (n : nat) (batch : list FileStorage) : list string :=
  match batch with
  | [] => []
  | f :: rest =>
      if acceptable f
      then stored_name uuid4_hex secure_filename n (filename f) :: stored_names (S n) rest
      else stored_names n rest
  end.

(** Every name the batch is given fits in a directory entry. *)
Definition names_fit (n : nat) (batch : list FileStorage) : Prop :=
  Forall (λ name, String.length name ≤ Posix.NAME_MAX) (stored_names n batch).

(** The contract of the two library functions: a stored name is one path
    component.  (Hex digits, an underscore, and what [secure_filename]
    lets through: letters, digits, dot, dash, underscore.) *)
Definition stored_names_plain : Prop :=
  ∀ n original, plain_name (stored_name uuid4_hex secure_filename n original) = true.

End Names.

(** The state the handlers keep the store in: the upload folder is there,
    it holds no directory, and every attachment name in the table is one
    path component. *)
Definition store_ok (upload_folder : list string) (w : World) : Prop :=
  upload_folder_ready upload_folder (disk w)
  ∧ no_subdirectory upload_folder (disk w)
  ∧ map_Forall (λ _ issue, Forall (λ f, plain_name f = true) (attachment_list issue)) (db w).

(** Every row has a track of ALLOWED_TRACKS. *)
Definition tracks_allowed (w : World) : Prop :=
  map_Forall (λ _ issue, track issue ∈ ALLOWED_TRACKS) (db w).

(** The requests and states of the examples. *)

Definition demo_fields : gmap string string :=
  text_form [("track", "AP"); ("summary", "Login fails")].

Definition six_files : list FileStorage :=
  [png "a"; png "b"; png "c"; png "d"; png "e"; png "f"].

(** One upload in the first five is not acceptable; seven others are. *)
Definition nine_files : list FileStorage :=
  [png "a"; mkFile "notes.txt" "text"; png "c"; png "d"; png "e"; png "f"; png "g"; png "h"].

Definition demo_upload_folder : list string := demo_app_dir ++ ["uploads"].

(** The world after one issue was created with two pictures. *)
Definition demo_issue : Issue :=
  mkIssue 1 "AP" "Login fails" (Some "") (Some ["0_a.png"; "a0_c.png"])
          (Some "") (Some "") "Open" (Some "") (Some "") 100.

Definition demo_world_1 : World :=
  mkWorld {[ 1%Z := demo_issue ]}
          (<[demo_upload_folder ++ ["a0_c.png"] := Posix.File "PNG"]>
             (<[demo_upload_folder ++ ["0_a.png"] := Posix.File "PNG"]>
                (fresh_disk demo_app_dir)))
          2.

(** A disk on which somebody made a directory inside the upload folder. *)
Definition nested_world : World :=
  mkWorld ∅
          (<[demo_upload_folder ++ ["2024"; "a.png"] := Posix.File "PNG"]>
             (<[demo_upload_folder ++ ["2024"] := Posix.Dir]> (fresh_disk demo_app_dir)))
          0.

(** The first world with the source of the application next to the
    upload folder. *)
Definition demo_world_src : World :=
  mkWorld (db demo_world_1)
          (<[demo_app_dir ++ ["app.py"] := Posix.File "import os"]> (disk demo_world_1))
          (entropy demo_world_1).

(** ** Vocabulary of the further properties *)

(** Every row sits under its own id. *)
Definition keys_are_ids (w : World) : Prop :=
  map_Forall (λ k issue, id issue = k) (db w).

(** Every row has a status of ALLOWED_STATUS. *)
Definition statuses_allowed (w : World) : Prop :=
  map_Forall (λ _ issue, status issue ∈ ALLOWED_STATUS) (db w).

(** The stored names of all the rows of a table. *)
Definition table_names (table : gmap Z Issue) : list string :=
  (map_to_list table).*2 ≫= attachment_list.

(** [c] names a file in the directory [dir]. *)
Definition file_entry (d : Posix.filesystem) (dir : list string) (c : string) : Prop :=
  ∃ content, d !! (dir ++ [c]) = Some (Posix.File content).

(** The keys of [to_dict], in its order. *)
Definition FIELD_NAMES : list string :=
  ["id"; "track"; "summary"; "description"; "attachments"; "raised_by"; "assignee";
   "status"; "scenario_id"; "step_no"; "created_at"].

(** The cells of a row of the export. *)
Definition export_row (i : Issue) : list Value :=
  [ VInt (id i); VStr (track i); VStr (summary i); text_or_null (description i);
    VStr (Py.join ", " (attachment_list i)); text_or_null (raised_by i);
    text_or_null (assignee i); VStr (status i); text_or_null (scenario_id i);
    text_or_null (step_no i); VIsoZ (created_at i) ].

(** A text openpyxl takes into a cell as it is: at most 32767 characters,
    none of them a control character it refuses. *)
Definition cell_text (s : string) : Prop :=
  Py.len s ≤ CELL_MAX ∧ has_illegal_character s = false.

(** A row whose texts are such. *)
Definition exportable (i : Issue) : Prop :=
  Forall (λ v, match v with VStr s => cell_text s | _ => True end) (export_row i).

(** The fields the loop of [update_issue] meets before ["status"]. *)
Definition BEFORE_STATUS : list string :=
  ["track"; "summary"; "description"; "raised_by"; "assignee"].

(** The value is a text or is falsy: [(value or "").strip()] does not
    raise. *)
Definition strippable (value : Json) : Prop := is_Some (or_empty_strip value).

(** [value or ""] for such a value: the text itself, or the empty text. *)
Definition Json_text (value : Json) : string :=
  match value with
  | JStr s => s
  | _ => ""
  end.

(** What the loop of [update_issue] can assign and the commit can write:
    a text or a falsy value, free of lone surrogates once trimmed. *)
Definition assignable (value : Json) : Prop :=
  strippable value ∧ Py.encodable (Py.strip (Json_text value)) = true.

Section MoreNames.

Variable uuid4_hex : nat → string.
Variable secure_filename : string → string.

(** Two draws never give the same stored name (uuids do not repeat). *)
Definition stored_names_distinct : Prop :=
  ∀ n m s t,
    stored_name uuid4_hex secure_filename n s = stored_name uuid4_hex secure_filename m t →
    n = m.

(** The name was given out at a draw the counter has passed. *)
Definition drawn (w : World) (f : string) : Prop :=
  ∃ n s, n < entropy w ∧ f = stored_name uuid4_hex secure_filename n s.

(** The disk after [save_attachments] has saved a batch, the counter
    standing at [n] before. *)
Fixpoint saved_disk (dir : list string) (n : nat) (batch : list FileStorage)
    (d : Posix.filesystem) : Posix.filesystem :=
  match batch with
  | [] => d
  | f :: rest =>
      if acceptable f
      then saved_disk dir (S n) rest
             (<[dir ++ [stored_name uuid4_hex secure_filename n (filename f)]
                := Posix.File (stream f)]> d)
      else saved_disk dir n rest d
  end.

(** Every listed name has its file: the store is in order, no name is
    listed twice, every listed name was drawn, and the folder holds a file
    under each listed name.  (It may hold others: a request that fails
    after a save leaves the files it saved.) *)
Definition attached (dir : list string) (w : World) : Prop :=
  store_ok dir w
  ∧ NoDup (table_names (db w))
  ∧ Forall (drawn w) (table_names (db w))
  ∧ ∀ c, c ∈ table_names (db w) → file_entry (disk w) dir c.

(** The table and the upload folder agree: the store is in order, no name
    is listed twice, every listed name was drawn, and the files of the
    folder are the listed names. *)
Definition consistent (dir : list string) (w : World) : Prop :=
  store_ok dir w
  ∧ NoDup (table_names (db w))
  ∧ Forall (drawn w) (table_names (db w))
  ∧ ∀ c, file_entry (disk w) dir c ↔ c ∈ table_names (db w).

End MoreNames.

(** The row with what [to_dict] shows of its attachment column: NULL and
    the empty list look the same. *)
Definition shown (i : Issue) : Issue := set_attachments i (attachment_list i).

(** The world of the examples after a second issue with one picture. *)
Definition demo_world_2 : World :=
  run demo_uuid4_hex demo_secure_filename demo_app_dir demo_world_1
      [POST_issues (mkRequest demo_fields NotJson [png "d"]) 200].

Definition demo_issue_2 : Issue :=
  mkIssue 2 "AP" "Login fails" (Some "") (Some ["aa0_d.png"])
          (Some "") (Some "") "Open" (Some "") (Some "") 200.

(** ** Properties *)

(** Closed goals over concrete requests and worlds are settled by running
    the handlers. *)
Ltac by_computation :=
  first [ apply (bool_decide_unpack _); vm_compute; exact I
        | apply (bool_decide_eq_false_1 _); vm_compute; reflexivity
        | vm_compute; reflexivity ].

(** *** The library functions on small inputs *)

Example strip_examples :
  Py.strip "  Login fails " = "Login fails" ∧ Py.strip " AP" = "AP" ∧ Py.strip "   " = "".
Proof. split_and!; reflexivity. Qed.

Example or_default_examples :
  Py.or_default None "Open" = "Open" ∧ Py.or_default (Some "") "Open" = "Open"
  ∧ Py.or_default (Some "Fixed") "Open" = "Fixed".
Proof. split_and!; reflexivity. Qed.

Example allowed_file_examples :
  allowed_file "shot.png" = true ∧ allowed_file "a.b.JPeG" = true
  ∧ allowed_file "noext" = false ∧ allowed_file "notes.txt" = false
  ∧ allowed_file "trailing." = false.
Proof. split_and!; by_computation. Qed.

Example normpath_examples :
  Posix.normpath "a//b/../c" = "a/c" ∧ Posix.normpath "a/../../b" = "../b"
  ∧ Posix.normpath "./x" = "x" ∧ Posix.normpath "a/.." = "."
  ∧ Posix.normpath "/a/../.." = "/" ∧ Posix.normpath "//a" = "//a".
Proof. split_and!; by_computation. Qed.

Example safe_join_examples :
  Posix.safe_join ["srv"; "uploads"] "x.png" = Some ["srv"; "uploads"; "x.png"]
  ∧ Posix.safe_join ["srv"; "uploads"] "a/../b/x.png" = Some ["srv"; "uploads"; "b"; "x.png"]
  ∧ Posix.safe_join ["srv"; "uploads"] "../x.png" = None
  ∧ Posix.safe_join ["srv"; "uploads"] "a/../../x.png" = None
  ∧ Posix.safe_join ["srv"; "uploads"] "/etc/passwd" = None.
Proof. split_and!; by_computation. Qed.

Example walk_examples :
  Posix.resolve (disk demo_world_1) (Posix.os_path_join demo_upload_folder "0_a.png")
  = Posix.Found (demo_upload_folder ++ ["0_a.png"])
  ∧ Posix.resolve (disk demo_world_1) (Posix.os_path_join demo_upload_folder "0_a.png/x")
    = Posix.Fails Posix.NotADirectoryError
  ∧ Posix.resolve (disk demo_world_1) (Posix.os_path_join demo_upload_folder "no/../0_a.png")
    = Posix.Fails Posix.FileNotFoundError
  ∧ Posix.resolve (disk demo_world_1) (Posix.os_path_join demo_upload_folder "../uploads/0_a.png")
    = Posix.Found (demo_upload_folder ++ ["0_a.png"]).
Proof. split_and!; by_computation. Qed.

Example next_id_examples :
  next_id ∅ = 1%Z ∧ next_id (db demo_world_1) = 2%Z.
Proof. split_and!; by_computation. Qed.

(** *** Text *)

Lemma split_cons c s : ∃ h t, Py.split c s = h :: t.
Proof. destruct s as [|a r]; cbn; [eauto|]. destruct (Ascii.eqb a c); [eauto|]. destruct (Py.split c r); eauto. Qed.

Lemma split_no_sep c s : Py.contains c s = false → Py.split c s = [s].
Proof.
  induction s as [|a r IH]; cbn; [done|].
  destruct (Ascii.eqb a c); [done|]. intros H. by rewrite (IH H).
Qed.

Lemma split_components c s : Forall (λ x, Py.contains c x = false) (Py.split c s).
Proof.
  induction s as [|a r IH]; cbn.
  - by repeat constructor.
  - destruct (Ascii.eqb a c) eqn:Ha; [by constructor|].
    destruct (Py.split c r) as [|h t]; [by repeat constructor; cbn; rewrite Ha|].
    inversion IH; subst. constructor; [|done]. cbn. by rewrite Ha.
Qed.

Lemma plain_name_inv s :
  plain_name s = true → s ≠ "" ∧ s ≠ "." ∧ s ≠ ".." ∧ Py.contains "/" s = false.
Proof.
  unfold plain_name. rewrite !andb_true_iff, !negb_true_iff, !bool_decide_eq_false.
  intros [[[Ht ?] ?] ?]. split_and!; try done. by intros ->.
Qed.

Lemma split_plain s : plain_name s = true → Py.split "/" s = [s].
Proof. intros H. apply split_no_sep. by apply plain_name_inv in H as (_ & _ & _ & ?). Qed.

Lemma length_remove_dups_le (l : list string) : length (remove_dups l) ≤ length l.
Proof. induction l as [|x l IH]; cbn; [done|]. case_decide; cbn; lia. Qed.

(** *** Paths *)

Lemma enter_plain cur c : plain_name c = true → Posix.enter cur c = cur ++ [c].
Proof.
  intros (? & ? & ? & _)%plain_name_inv. unfold Posix.enter.
  by rewrite !bool_decide_eq_false_2.
Qed.

Lemma isabs_plain c : plain_name c = true → Posix.isabs c = false.
Proof.
  intros (_ & _ & _ & H)%plain_name_inv. destruct c as [|a r]; [done|].
  cbn in *. by destruct (Ascii.eqb a "/").
Qed.

Lemma walk_app d cur a b :
  Posix.walk d cur (a ++ b) =
  match Posix.walk d cur a with
  | Posix.Found q => Posix.walk d q b
  | Posix.Fails e => Posix.Fails e
  end.
Proof.
  revert cur. induction a as [|c a IH]; intros cur; cbn; [done|].
  destruct (Posix.is_dir d cur); [apply IH|]. by destruct (d !! cur).
Qed.

Lemma walk_names d cur comps p :
  Forall (λ c, plain_name c = true) comps →
  Posix.walk d cur comps = Posix.Found p → p = cur ++ comps.
Proof.
  intros Hplain. revert cur. induction Hplain as [|c comps Hc _ IH]; intros cur; cbn.
  - intros [= <-]. by rewrite app_nil_r.
  - destruct (Posix.is_dir d cur); [|by destruct (d !! cur)].
    rewrite (enter_plain _ _ Hc). intros ->%IH. by rewrite <- app_assoc.
Qed.

Lemma os_path_join_plain dir c :
  plain_name c = true → Posix.os_path_join dir c = dir ++ [c].
Proof. intros H. unfold Posix.os_path_join. by rewrite (isabs_plain _ H), (split_plain _ H). Qed.

Lemma resolve_entry dir d c :
  upload_folder_ready dir d → plain_name c = true →
  Posix.resolve d (Posix.os_path_join dir c) = Posix.Found (dir ++ [c]).
Proof.
  intros [Hwalk Hdir] Hc. rewrite (os_path_join_plain _ _ Hc).
  unfold Posix.resolve in *. rewrite walk_app, Hwalk. cbn.
  by rewrite Hdir, (enter_plain _ _ Hc).
Qed.

Lemma entry_of_snoc dir c : entry_of dir (dir ++ [c]).
Proof. split; [by destruct dir|]. apply removelast_last. Qed.

Lemma is_dir_snoc d dir c : Posix.is_dir d (dir ++ [c]) = match d !! (dir ++ [c]) with Some Posix.Dir => true | _ => false end.
Proof. unfold Posix.is_dir. by destruct dir. Qed.

Lemma same_dirs_insert_file d p c : Posix.is_dir d p = false → same_dirs d (<[p := Posix.File c]> d).
Proof.
  intros Hp q. destruct (decide (q = p)) as [->|Hne].
  - rewrite Hp. unfold Posix.is_dir in *. destruct p; [done|]. by rewrite lookup_insert_eq.
  - unfold Posix.is_dir. destruct q; [done|]. by rewrite lookup_insert_ne.
Qed.

Lemma same_dirs_delete_file d p c : d !! p = Some (Posix.File c) → same_dirs d (delete p d).
Proof.
  intros Hp q. destruct (decide (q = p)) as [->|Hne].
  - unfold Posix.is_dir. destruct p; [done|]. by rewrite lookup_delete_eq, Hp.
  - unfold Posix.is_dir. destruct q; [done|]. by rewrite lookup_delete_ne.
Qed.

Lemma same_dirs_refl d : same_dirs d d.
Proof. done. Qed.

Lemma same_dirs_trans d1 d2 d3 : same_dirs d1 d2 → same_dirs d2 d3 → same_dirs d1 d3.
Proof. intros H12 H23 p. by rewrite H23, H12. Qed.

Lemma walk_same_dirs d d' cur comps p :
  same_dirs d d' → Posix.walk d cur comps = Posix.Found p → Posix.walk d' cur comps = Posix.Found p.
Proof.
  intros Hsame. revert cur. induction comps as [|c comps IH]; intros cur; cbn; [done|].
  rewrite Hsame. destruct (Posix.is_dir d cur); [apply IH|]. by destruct (d !! cur).
Qed.

Lemma walk_same_dirs_back d d' cur comps p :
  same_dirs d d' → Posix.walk d' cur comps = Posix.Found p → Posix.walk d cur comps = Posix.Found p.
Proof.
  intros Hsame. revert cur. induction comps as [|c comps IH]; intros cur; cbn; [done|].
  rewrite Hsame. destruct (Posix.is_dir d cur); [apply IH|]. by destruct (d' !! cur).
Qed.

Lemma upload_folder_ready_same_dirs dir d d' :
  same_dirs d d' → upload_folder_ready dir d → upload_folder_ready dir d'.
Proof.
  intros Hsame [Hwalk Hdir]. split; [by eapply walk_same_dirs|]. by rewrite Hsame.
Qed.

(** *** Normalised paths *)

Lemma startswith_slash s : Posix.startswith "/" s = Posix.isabs s.
Proof.
  destruct s as [|a r]; [done|]. unfold Posix.startswith, Posix.isabs.
  change (String.prefix "/" (String a r))
    with (if ascii_dec "/" a then String.prefix "" r else false).
  destruct (ascii_dec "/" a) as [<-|Hne]; [by destruct r|].
  symmetry. apply Ascii.eqb_neq. congruence.
Qed.

Lemma split_app_sep x t :
  Py.contains "/" x = false → Py.split "/" (x +:+ "/" +:+ t) = x :: Py.split "/" t.
Proof.
  induction x as [|a r IH]; intros H; [done|].
  cbn in H. destruct (Ascii.eqb a "/") eqn:Ha; [done|].
  change (String a r +:+ "/" +:+ t) with (String a (r +:+ "/" +:+ t)).
  cbn [Py.split]. by rewrite Ha, (IH H).
Qed.

Lemma split_join names :
  names ≠ [] → Forall (λ c, plain_name c = true) names →
  Py.split "/" (Py.join "/" names) = names.
Proof.
  intros Hne Hplain. induction Hplain as [|x rest Hx Hrest IH]; [done|].
  destruct rest as [|y rest]; [by apply split_plain|].
  change (Py.join "/" (x :: y :: rest)) with (x +:+ "/" +:+ Py.join "/" (y :: rest)).
  apply plain_name_inv in Hx as (_ & _ & _ & Hx).
  rewrite (split_app_sep _ _ Hx). f_equal. by apply IH.
Qed.

Lemma join_plain_head x rest :
  plain_name x = true →
  ∃ a r, Py.join "/" (x :: rest) = String a r ∧ Ascii.eqb a "/" = false.
Proof.
  intros (Hne & _ & _ & Hslash)%plain_name_inv.
  destruct x as [|a r]; [done|]. cbn in Hslash.
  destruct (Ascii.eqb a "/") eqn:Ha; [done|].
  destruct rest; cbn; eauto.
Qed.

Lemma plain_name_intro c :
  c ≠ "" → c ≠ "." → c ≠ ".." → Py.contains "/" c = false → plain_name c = true.
Proof.
  intros H1 H2 H3 H4. unfold plain_name.
  rewrite H4, !bool_decide_eq_false_2 by done. by destruct c.
Qed.

Lemma last_replicate_dotdot k : k ≠ 0 → last (replicate k "..") = Some "..".
Proof.
  intros Hk. destruct k as [|k]; [done|].
  by rewrite replicate_S_end, last_snoc.
Qed.

Lemma normpath_loop_climbing comps new_comps :
  Forall (λ c, Py.contains "/" c = false) comps → climbing new_comps →
  climbing (Posix.normpath_loop 0 comps new_comps).
Proof.
  intros Hcomps. revert new_comps.
  induction Hcomps as [|comp rest Hcomp _ IH]; intros new_comps Hshape; [done|].
  cbn [Posix.normpath_loop].
  destruct (decide (comp = "")) as [->|Hne1]; [by apply IH|].
  destruct (decide (comp = ".")) as [->|Hne2]; [by apply IH|].
  rewrite (bool_decide_eq_false_2 _ Hne1), (bool_decide_eq_false_2 _ Hne2). cbn [orb].
  destruct Hshape as (k & names & -> & Hnames).
  destruct (decide (comp = "..")) as [->|Hne3].
  - rewrite bool_decide_eq_true_2 by done. cbn [negb andb orb].
    destruct names as [|n names _] using rev_ind.
    + rewrite app_nil_r. destruct k as [|k].
      * cbn. apply IH. by exists 1, [].
      * rewrite (bool_decide_eq_true_2 (last _ = _)) by by apply last_replicate_dotdot.
        rewrite orb_true_r. apply IH. exists (S (S k)), [].
        by rewrite app_nil_r, <- replicate_S_end.
    + apply Forall_app in Hnames as [Hnames Hn]. rewrite Forall_singleton in Hn.
      rewrite (bool_decide_eq_false_2 (_ = [])) by by destruct (replicate k ".."), names.
      rewrite app_assoc, last_snoc.
      rewrite (bool_decide_eq_false_2 (Some n = _)).
      2:{ intros [= ->]. by apply plain_name_inv in Hn as (_ & _ & ? & _). }
      cbn [orb]. rewrite removelast_last. apply IH. by exists k, names.
  - rewrite (bool_decide_eq_false_2 _ Hne3). cbn [negb orb]. apply IH.
    exists k, (names ++ [comp]). rewrite app_assoc. split; [done|].
    apply Forall_app. split; [done|]. apply Forall_singleton. by apply plain_name_intro.
Qed.

(** Where [safe_join] can lead: the directory itself (written with an
    empty or a dot component), or names below it. *)
Lemma safe_join_below directory filename p :
  Posix.safe_join directory filename = Some p →
  ∃ comps, p = directory ++ comps
    ∧ (comps = [""] ∨ comps = ["."]
       ∨ (comps ≠ [] ∧ Forall (λ c, plain_name c = true) comps)).
Proof.
  unfold Posix.safe_join. case_bool_decide as Hempty; cbn [negb].
  { subst. cbn. intros [= <-]. exists [""]. auto. }
  unfold Posix.normpath. rewrite (bool_decide_eq_false_2 _ Hempty), startswith_slash.
  destruct (Posix.isabs filename) eqn:Habs.
  { destruct (_ && _); cbn; by destruct (Py.join _ _). }
  pose proof (normpath_loop_climbing (Py.split "/" filename) []
                (split_components _ _) (ex_intro _ 0 (ex_intro _ [] (conj eq_refl (Forall_nil_2 _)))))
    as (k & names & -> & Hnames).
  destruct k as [|k].
  - cbn [replicate app]. destruct names as [|x rest].
    + cbn. intros [= <-]. exists ["."]. auto.
    + destruct (join_plain_head x rest) as (a & r & Hjoin & Ha); [by inversion Hnames|].
      assert (Py.truthy (Py.join "/" (x :: rest)) = true) as -> by by rewrite Hjoin.
      destruct (_ || _ || _) eqn:Hchecks; [done|]. intros <-%(inj Some).
      exists (x :: rest). split; [|by auto].
      unfold Posix.os_path_join.
      assert (Posix.isabs (Py.join "/" (x :: rest)) = false) as -> by by rewrite Hjoin.
      by rewrite split_join.
  - change (replicate (S k) ".." ++ names) with (".." :: (replicate k ".." ++ names)).
    destruct (replicate k ".." ++ names) as [|y rest].
    + change (Py.join "/" [".."]) with "..". cbn [Py.truthy].
      by rewrite (bool_decide_eq_true_2 (".." = "..")), orb_true_r.
    + change (Py.join "/" (".." :: y :: rest)) with ("../" +:+ Py.join "/" (y :: rest)).
      generalize (Py.join "/" (y :: rest)). intros j.
      assert (Py.truthy ("../" +:+ j) = true) as -> by done.
      assert (Posix.startswith "../" ("../" +:+ j) = true) as -> by by destruct j.
      by rewrite orb_true_r.
Qed.

(** *** Files in the upload folder *)

Lemma write_entry dir d c content :
  upload_folder_ready dir d → plain_name c = true → d !! (dir ++ [c]) ≠ Some Posix.Dir →
  String.length c ≤ Posix.NAME_MAX →
  Posix.write_file d (Posix.os_path_join dir c) content
  = inr (<[dir ++ [c] := Posix.File content]> d).
Proof.
  intros Hready Hc Hnode Hfits. unfold Posix.write_file.
  rewrite (resolve_entry _ _ _ Hready Hc), (os_path_join_plain _ _ Hc), last_snoc.
  change (default EmptyString (Some c)) with c.
  destruct (Nat.ltb_spec Posix.NAME_MAX (String.length c)) as [?|_]; [lia|].
  rewrite is_dir_snoc. by destruct (d !! (dir ++ [c])) as [[]|].
Qed.

Lemma write_too_long dir d c content :
  upload_folder_ready dir d → plain_name c = true →
  Posix.NAME_MAX < String.length c →
  Posix.write_file d (Posix.os_path_join dir c) content = inl Posix.FileNameTooLong.
Proof.
  intros Hready Hc Hlong. unfold Posix.write_file.
  rewrite (resolve_entry _ _ _ Hready Hc), (os_path_join_plain _ _ Hc), last_snoc.
  change (default EmptyString (Some c)) with c.
  by destruct (Nat.ltb_spec Posix.NAME_MAX (String.length c)) as [_|?]; [|lia].
Qed.

Lemma write_file_inr d path content d' :
  Posix.write_file d path content = inr d' →
  ∃ p, Posix.resolve d path = Posix.Found p ∧ Posix.is_dir d p = false
       ∧ d' = <[p := Posix.File content]> d.
Proof.
  unfold Posix.write_file. destruct (Posix.resolve d path) as [p|]; [|done].
  destruct (_ <? _); [done|]. destruct (Posix.is_dir d p) eqn:Hdir; [done|].
  intros [= <-]. eauto.
Qed.

Lemma remove_entry dir d c :
  upload_folder_ready dir d → plain_name c = true →
  Posix.os_remove d (Posix.os_path_join dir c)
  = match d !! (dir ++ [c]) with
    | Some (Posix.File _) => inr (delete (dir ++ [c]) d)
    | Some Posix.Dir => inl Posix.IsADirectoryError
    | None => inl Posix.FileNotFoundError
    end.
Proof.
  intros Hready Hc. unfold Posix.os_remove. rewrite (resolve_entry _ _ _ Hready Hc).
  destruct (d !! (dir ++ [c])) as [[]|]; try done. by destruct dir.
Qed.

Lemma os_remove_inr d path d' :
  Posix.os_remove d path = inr d' →
  ∃ p c, Posix.resolve d path = Posix.Found p ∧ d !! p = Some (Posix.File c) ∧ d' = delete p d.
Proof.
  unfold Posix.os_remove. destruct (Posix.resolve d path) as [p|]; [|done].
  destruct (d !! p) as [[c|]|] eqn:Hp; try done; [|by destruct p].
  intros [= <-]. eauto.
Qed.

Lemma os_remove_missing d path :
  Posix.os_remove d path = inl Posix.FileNotFoundError →
  ∀ p, Posix.resolve d path = Posix.Found p → d !! p = None.
Proof.
  unfold Posix.os_remove. intros H p Hp. rewrite Hp in H.
  by destruct (d !! p) as [[]|].
Qed.

(** *** The loop of [delete_issue] *)

Lemma remove_files_spec dir names d err d' :
  remove_files dir names d = (err, d') →
  same_dirs d d'
  ∧ d' ⊆ d
  ∧ (err = None → Forall (λ f, Posix.os_path_isfile d' (Posix.os_path_join dir f) = false) names).
Proof.
  revert d. induction names as [|f rest IH]; intros d; cbn [remove_files].
  - intros [= <- <-]. done.
  - destruct (Posix.os_remove d (Posix.os_path_join dir f)) as [e|d1] eqn:Hrm.
    + destruct e; try (intros [= <- <-]; split_and!; done).
      intros (Hsame & Hsub & Hgone)%IH. split_and!; try done.
      intros Herr. constructor; [|by auto].
      unfold Posix.os_path_isfile.
      destruct (Posix.resolve d' _) as [p|] eqn:Hp; [|done].
      apply (walk_same_dirs_back d) in Hp; [|done].
      pose proof (os_remove_missing _ _ Hrm _ Hp) as Hnone.
      destruct (d' !! p) as [n|] eqn:Hn; [|done].
      eapply lookup_weaken in Hn; [|done]. congruence.
    + apply os_remove_inr in Hrm as (p & c & Hp & Hfile & ->).
      intros (Hsame & Hsub & Hgone)%IH.
      pose proof (same_dirs_delete_file _ _ _ Hfile) as Hdel.
      split_and!.
      * by eapply same_dirs_trans.
      * etrans; [done|]. apply delete_subseteq.
      * intros Herr. constructor; [|by auto].
        unfold Posix.os_path_isfile.
        destruct (Posix.resolve d' _) as [q|] eqn:Hq; [|done].
        apply (walk_same_dirs_back (delete p d)) in Hq; [|done].
        apply (walk_same_dirs_back d) in Hq; [|done].
        unfold Posix.resolve in Hp. rewrite Hp in Hq. injection Hq as <-.
        destruct (d' !! p) as [n|] eqn:Hn; [|done].
        eapply lookup_weaken in Hn; [|done]. by rewrite lookup_delete_eq in Hn.
Qed.

Lemma remove_files_entries dir names d :
  upload_folder_ready dir d →
  Forall (λ f, plain_name f = true ∧ d !! (dir ++ [f]) ≠ Some Posix.Dir) names →
  ∃ d', remove_files dir names d = (None, d')
    ∧ (∀ f, f ∈ names → d' !! (dir ++ [f]) = None)
    ∧ (∀ p, (∀ f, f ∈ names → p ≠ dir ++ [f]) → d' !! p = d !! p).
Proof.
  intros Hready Hnames. revert d Hready Hnames.
  induction names as [|f rest IH]; intros d Hready Hnames; cbn [remove_files].
  - exists d. split_and!; [done| |done]. by intros f ?%not_elem_of_nil.
  - apply Forall_cons in Hnames as [[Hf Hnode] Hrest].
    rewrite (remove_entry _ _ _ Hready Hf).
    destruct (d !! (dir ++ [f])) as [[c|]|] eqn:Hlook; [|done|].
    + pose proof (same_dirs_delete_file _ _ _ Hlook) as Hsame.
      destruct (IH (delete (dir ++ [f]) d)) as (d' & Hrun & Hgone & Hframe).
      { by eapply upload_folder_ready_same_dirs. }
      { eapply Forall_impl; [done|]. intros g [Hg Hgn]. split; [done|].
        intros Hdir. apply Hgn. by apply lookup_delete_Some in Hdir as [_ ?]. }
      exists d'. split_and!; [done| |].
      * intros g [->|Hg]%elem_of_cons; [|by auto].
        destruct (decide (f ∈ rest)); [by auto|].
        rewrite Hframe; [by rewrite lookup_delete_eq|]. intros g Hg ?%(inj (app dir)).
        set_solver.
      * intros p Hp. rewrite Hframe; [|set_solver].
        apply lookup_delete_ne. intros <-. eapply Hp; [|done]. set_solver.
    + destruct (IH d Hready Hrest) as (d' & Hrun & Hgone & Hframe).
      exists d'. split_and!; [done| |].
      * intros g [->|Hg]%elem_of_cons; [|by auto].
        destruct (decide (f ∈ rest)); [by auto|].
        rewrite Hframe; [done|]. intros g Hg ?%(inj (app dir)). set_solver.
      * intros p Hp. apply Hframe. set_solver.
Qed.



(** *** The update loop *)

Lemma attachment_list_set i l : attachment_list (set_attachments i l) = l.
Proof. done. Qed.

Lemma setattr_attachments i field v : attachments (setattr i field v) = attachments i.
Proof. unfold setattr. repeat case_bool_decide; reflexivity. Qed.

Lemma setattr_created_at i field v : created_at (setattr i field v) = created_at i.
Proof. unfold setattr. repeat case_bool_decide; reflexivity. Qed.

Lemma setattr_id i field v : id (setattr i field v) = id i.
Proof. unfold setattr. repeat case_bool_decide; reflexivity. Qed.

Lemma getattr_setattr_ne i field v other :
  other ≠ field → getattr (setattr i field v) other = getattr i other.
Proof.
  intros Hne. unfold setattr.
  repeat case_bool_decide; subst; try reflexivity;
    unfold getattr; repeat case_bool_decide; simplify_eq; reflexivity.
Qed.

Lemma update_fields_dict field rest d issue :
  update_fields (field :: rest) (JDict d) issue =
  match d !! field with
  | None => update_fields rest (JDict d) issue
  | Some value =>
      match (if bool_decide (field = "status") then not_in_allowed_status value
             else Some false) with
      | None => inl internal_server_error
      | Some true => inl (mkResponse 400 (Json_error "Invalid status"))
      | Some false =>
          match or_empty_strip value with
          | None => inl internal_server_error
          | Some text => update_fields rest (JDict d) (setattr issue field text)
          end
      end
  end.
Proof.
  cbn [update_fields Json_contains Json_getitem].
  destruct (d !! field) as [value|] eqn:Hfield.
  - by rewrite bool_decide_eq_true_2 by eauto.
  - rewrite bool_decide_eq_false_2; [done|]. by intros [? ?].
Qed.

Lemma update_fields_invalid_status before after d issue value :
  "status" ∉ before →
  (∀ field v, field ∈ before → d !! field = Some v → is_Some (or_empty_strip v)) →
  d !! "status" = Some value →
  not_in_allowed_status value = Some true →
  update_fields (before ++ "status" :: after) (JDict d) issue
  = inl (mkResponse 400 (Json_error "Invalid status")).
Proof.
  intros Hnot Htext Hdata Hbad. revert issue.
  induction before as [|field rest IH]; intros issue.
  - cbn [app]. rewrite update_fields_dict, Hdata, bool_decide_eq_true_2 by done.
    by rewrite Hbad.
  - cbn [app]. rewrite update_fields_dict.
    apply not_elem_of_cons in Hnot as [Hne Hnot].
    assert (∀ field v, field ∈ rest → d !! field = Some v → is_Some (or_empty_strip v))
      as Hrest by (intros f v Hf; apply Htext; by right).
    destruct (d !! field) as [v|] eqn:Hfield; [|by apply IH].
    rewrite bool_decide_eq_false_2 by congruence.
    destruct (Htext field v) as [text ->]; [by left|done|]. by apply IH.
Qed.

(** The loop raises or returns early before it assigns: a row comes out of
    it only when every value it met could be stripped, and then the row
    differs only in the columns the body holds. *)
Lemma update_fields_frame fields data issue issue' :
  update_fields fields data issue = inr issue' →
  (∀ field, Json_getitem data field = None → getattr issue' field = getattr issue field)
  ∧ attachments issue' = attachments issue
  ∧ created_at issue' = created_at issue
  ∧ id issue' = id issue.
Proof.
  revert issue. induction fields as [|field rest IH]; intros issue; cbn [update_fields].
  - intros [= ->]. done.
  - destruct (Json_contains data field) as [[]|]; [|by apply IH|done].
    destruct (Json_getitem data field) as [value|] eqn:Hfield; [|done].
    destruct (if bool_decide _ then _ else _) as [[]|]; [done| |done].
    destruct (or_empty_strip value) as [text|]; [|done]. intros Hrest.
    destruct (IH _ Hrest) as (Hget & Hatt & Hcreated & Hid).
    rewrite Hatt, Hcreated, Hid, setattr_attachments, setattr_created_at, setattr_id.
    split_and!; try done.
    intros other Hother. rewrite (Hget _ Hother).
    apply getattr_setattr_ne. congruence.
Qed.

Lemma supplied_getitem request data field :
  request_data request = inr data → supplied request field = false →
  Json_getitem data field = None.
Proof.
  unfold supplied. intros ->. destruct data; try done.
  cbn. intros Hno%bool_decide_eq_false. destruct (d !! field); [|done].
  exfalso. apply Hno. eauto.
Qed.

(** *** The table *)

Lemma next_id_above (table : gmap Z Issue) k row :
  table !! k = Some row → (k < next_id table)%Z.
Proof.
  unfold next_id.
  generalize dependent row. generalize dependent k.
  apply (map_fold_weak_ind (λ r (m : gmap Z Issue), ∀ k row, m !! k = Some row → (k < 1 + r)%Z)).
  - intros k row. by rewrite lookup_empty.
  - intros i x m r Hi IH k row. destruct (decide (k = i)) as [->|Hne].
    + intros _. lia.
    + rewrite lookup_insert_ne by done. intros Hk%IH. lia.
Qed.

Lemma next_id_fresh (table : gmap Z Issue) : table !! next_id table = None.
Proof.
  destruct (table !! next_id table) as [row|] eqn:H; [|done].
  apply next_id_above in H. lia.
Qed.

Lemma names_fit_cons uuid4_hex secure_filename n f rest :
  names_fit uuid4_hex secure_filename n (f :: rest) ↔
  if acceptable f
  then String.length (stored_name uuid4_hex secure_filename n (filename f)) ≤ Posix.NAME_MAX
       ∧ names_fit uuid4_hex secure_filename (S n) rest
  else names_fit uuid4_hex secure_filename n rest.
Proof.
  unfold names_fit. cbn [stored_names]. destruct (acceptable f); [|done].
  by rewrite Forall_cons.
Qed.

Lemma names_fit_nil uuid4_hex secure_filename n : names_fit uuid4_hex secure_filename n [].
Proof. constructor. Qed.

Section Handlers.

Variable uuid4_hex : nat → string.
Variable secure_filename : string → string.
Variable app_dir : list string.

#[local] Abbreviation stored_name := (stored_name uuid4_hex secure_filename).
#[local] Abbreviation stored_names := (stored_names uuid4_hex secure_filename).
#[local] Abbreviation stored_names_plain := (stored_names_plain uuid4_hex secure_filename).
#[local] Abbreviation names_fit := (names_fit uuid4_hex secure_filename).
#[local] Abbreviation save_loop := (save_loop uuid4_hex secure_filename app_dir).
#[local] Abbreviation save_attachments := (save_attachments uuid4_hex secure_filename app_dir).
#[local] Abbreviation add_issue := (add_issue uuid4_hex secure_filename app_dir).
#[local] Abbreviation update_issue := (update_issue uuid4_hex secure_filename app_dir).
#[local] Abbreviation delete_issue := (delete_issue app_dir).
#[local] Abbreviation delete_attachment := (delete_attachment app_dir).
#[local] Abbreviation uploaded_file := (uploaded_file app_dir).
#[local] Abbreviation handle := (handle uuid4_hex secure_filename app_dir).
#[local] Abbreviation run := (run uuid4_hex secure_filename app_dir).
#[local] Abbreviation UPLOAD_FOLDER := (UPLOAD_FOLDER app_dir).

(** *** The loop of [save_attachments] *)

Lemma save_loop_cons f rest saved w :
  save_loop (f :: rest) saved w =
  if acceptable f then
    match Posix.write_file (disk w)
            (Posix.os_path_join UPLOAD_FOLDER (stored_name (entropy w) (filename f))) (stream f) with
    | inr d' =>
        save_loop rest (saved ++ [stored_name (entropy w) (filename f)])
                  (mkWorld (db w) d' (S (entropy w)))
    | inl e => (inl e, mkWorld (db w) (disk w) (S (entropy w)))
    end
  else save_loop rest saved w.
Proof. unfold acceptable. cbn. by destruct (Py.truthy _). Qed.

Lemma stored_names_cons n f rest :
  stored_names n (f :: rest) =
  if acceptable f then stored_name n (filename f) :: stored_names (S n) rest
  else stored_names n rest.
Proof. done. Qed.

(** What the loop returns when no [f.save] fails. *)
Lemma save_loop_inr batch saved w out w' :
  save_loop batch saved w = (inr out, w') →
  out = saved ++ stored_names (entropy w) batch ∧ db w' = db w.
Proof.
  revert saved w. induction batch as [|f rest IH]; intros saved w.
  - intros [= <- <-]. by rewrite app_nil_r.
  - rewrite save_loop_cons, stored_names_cons. destruct (acceptable f); [|apply IH].
    destruct (Posix.write_file _ _ _) as [e|d1]; [done|].
    intros [-> Hdb]%IH. cbn in *. by rewrite <- app_assoc.
Qed.

Lemma save_loop_db batch saved w : db (save_loop batch saved w).2 = db w.
Proof.
  revert saved w. induction batch as [|f rest IH]; intros saved w; [done|].
  rewrite save_loop_cons. destruct (acceptable f); [|apply IH].
  destruct (Posix.write_file _ _ _); [done|]. by rewrite IH.
Qed.

Lemma save_attachments_db files w : db (save_attachments files w).2 = db w.
Proof. apply save_loop_db. Qed.

Lemma stored_names_kept n batch :
  stored_names n batch = imap (λ k f, stored_name (n + k) (filename f)) (kept batch).
Proof.
  revert n. induction batch as [|f rest IH]; intros n; [done|].
  rewrite stored_names_cons. unfold kept. rewrite filter_cons.
  destruct (acceptable f) eqn:Hf.
  - rewrite decide_True by done. cbn. rewrite Nat.add_0_r. f_equal.
    rewrite IH. apply imap_ext. intros k g _. cbn. by rewrite Nat.add_succ_r.
  - rewrite decide_False by (by intros []);  apply IH.
Qed.

Lemma length_stored_names n batch : length (stored_names n batch) = length (kept batch).
Proof. by rewrite stored_names_kept, length_imap. Qed.

(** Whether or not a save fails, the loop leaves the table alone, draws
    uuids, and only adds or rewrites files of the upload folder under
    names it has drawn. *)
Lemma save_loop_world batch saved w :
  stored_names_plain →
  upload_folder_ready UPLOAD_FOLDER (disk w) →
  no_subdirectory UPLOAD_FOLDER (disk w) →
  let w' := (save_loop batch saved w).2 in
  db w' = db w
  ∧ entropy w ≤ entropy w'
  ∧ same_dirs (disk w) (disk w')
  ∧ no_subdirectory UPLOAD_FOLDER (disk w')
  ∧ (∀ p, disk w' !! p ≠ disk w !! p →
       ∃ name, name ∈ stored_names (entropy w) batch ∧ p = UPLOAD_FOLDER ++ [name]
               ∧ ∃ content, disk w' !! p = Some (Posix.File content)).
Proof.
  intros Hplain. revert saved w. induction batch as [|f rest IH]; intros saved w Hready Hflat.
  - cbn. split_and!; try done.
  - rewrite save_loop_cons, stored_names_cons. destruct (acceptable f) eqn:Hf; [|by apply IH].
    set (name := stored_name (entropy w) (filename f)).
    destruct (Posix.write_file _ _ _) as [e|d1] eqn:Hwrite.
    { cbn. split_and!; [done|lia|done|done|done]. }
    apply write_file_inr in Hwrite as (q & Hq & Hnd & ->).
    rewrite (resolve_entry _ _ name Hready (Hplain _ _)) in Hq. injection Hq as <-.
    pose proof (same_dirs_insert_file _ _ (stream f) Hnd) as Hsame.
    destruct (IH (saved ++ [name])
                (mkWorld (db w) (<[UPLOAD_FOLDER ++ [name] := Posix.File (stream f)]> (disk w))
                   (S (entropy w)))) as (Hdb & Hle & Hsame' & Hflat' & Hframe).
    { by eapply upload_folder_ready_same_dirs. }
    { cbn. apply map_Forall_insert_2; [done|]. done. }
    cbn [db disk entropy] in *. cbn zeta. fold name.
    split_and!; [done|lia|by eapply same_dirs_trans|done|].
    intros p Hp.
    destruct (decide (disk (save_loop rest (saved ++ [name])
                              (mkWorld (db w)
                                 (<[UPLOAD_FOLDER ++ [name] := Posix.File (stream f)]> (disk w))
                                 (S (entropy w)))).2 !! p
                      = <[UPLOAD_FOLDER ++ [name]:=Posix.File (stream f)]> (disk w) !! p))
      as [Heq|Hne].
    + rewrite Heq in Hp. destruct (decide (p = UPLOAD_FOLDER ++ [name])) as [->|Hpne].
      * exists name. split; [by left|]. split; [done|]. rewrite Heq, lookup_insert_eq. eauto.
      * by rewrite lookup_insert_ne in Hp.
    + destruct (Hframe _ Hne) as (nm & Hin & -> & Hc). exists nm. split; [by right|done].
Qed.

(** What the loop does on a working upload folder when the names fit. *)
Lemma save_loop_ok batch saved w :
  stored_names_plain →
  names_fit (entropy w) batch →
  upload_folder_ready UPLOAD_FOLDER (disk w) →
  no_subdirectory UPLOAD_FOLDER (disk w) →
  ∃ d',
    save_loop batch saved w
    = (inr (saved ++ stored_names (entropy w) batch),
       mkWorld (db w) d' (entropy w + length (kept batch)))
    ∧ same_dirs (disk w) d'
    ∧ no_subdirectory UPLOAD_FOLDER d'
    ∧ (∀ p, d' !! p ≠ disk w !! p →
         ∃ name, name ∈ stored_names (entropy w) batch ∧ p = UPLOAD_FOLDER ++ [name]
                 ∧ ∃ content, d' !! p = Some (Posix.File content)).
Proof.
  intros Hplain. revert saved w.
  induction batch as [|f rest IH]; intros saved w Hfit Hready Hflat.
  - exists (disk w). cbn. rewrite app_nil_r, Nat.add_0_r. destruct w. split_and!; try done.
  - apply names_fit_cons in Hfit.
    rewrite save_loop_cons, stored_names_cons. unfold kept. rewrite filter_cons.
    destruct (acceptable f) eqn:Hf.
    + rewrite decide_True by done.
      destruct Hfit as [Hshort Hfit].
      set (name := stored_name (entropy w) (filename f)).
      assert (disk w !! (UPLOAD_FOLDER ++ [name]) ≠ Some Posix.Dir) as Hnode.
      { intros Hdir. by apply (Hflat _ _ Hdir (entry_of_snoc _ _)). }
      rewrite (write_entry _ _ _ _ Hready (Hplain _ _) Hnode Hshort).
      assert (Posix.is_dir (disk w) (UPLOAD_FOLDER ++ [name]) = false) as Hnd.
      { rewrite is_dir_snoc. by destruct (disk w !! _) as [[]|]. }
      pose proof (same_dirs_insert_file _ _ (stream f) Hnd) as Hsame.
      destruct (IH (saved ++ [name])
                  (mkWorld (db w) (<[UPLOAD_FOLDER ++ [name] := Posix.File (stream f)]> (disk w))
                     (S (entropy w)))) as (d' & Hrun & Hsame' & Hflat' & Hframe).
      { done. }
      { by eapply upload_folder_ready_same_dirs. }
      { cbn. apply map_Forall_insert_2; [done|]. done. }
      exists d'. cbn [db disk entropy] in *. fold name. rewrite Hrun, <- app_assoc. cbn [app length].
      split_and!; [unfold kept; do 2 f_equal; lia| by eapply same_dirs_trans |done|].
      intros p Hp. destruct (decide (d' !! p = <[UPLOAD_FOLDER ++ [name]:=Posix.File (stream f)]> (disk w) !! p)) as [Heq|Hne].
      * rewrite Heq in Hp. destruct (decide (p = UPLOAD_FOLDER ++ [name])) as [->|Hpne].
        -- exists name. split; [by left|]. split; [done|]. rewrite Heq, lookup_insert_eq. eauto.
        -- by rewrite lookup_insert_ne in Hp.
      * destruct (Hframe _ Hne) as (nm & Hin & -> & Hc). exists nm. split; [by right|done].
    + rewrite decide_False by (by intros []);  apply IH; done.
Qed.


Lemma save_attachments_inr files w saved w' :
  save_attachments files w = (inr saved, w') →
  saved = stored_names (entropy w) (take MAX_ATTACHMENTS files) ∧ db w' = db w.
Proof. unfold save_attachments. by intros [-> ?]%save_loop_inr. Qed.

(** C10. [save_attachments] looks at the first five entries of the batch
    and at nothing else: the batch and its first five entries give the same
    result; what is saved is one name per kept entry among the first five;
    so when one of the first five is skipped fewer than five files are
    saved, however many acceptable files the batch holds further on. *)
Theorem save_attachments_first_five files w :
  save_attachments files w = save_attachments (take MAX_ATTACHMENTS files) w
  ∧ ∀ saved w',
      save_attachments files w = (inr saved, w') →
      saved = stored_names (entropy w) (take MAX_ATTACHMENTS files)
      ∧ length saved = length (kept (take MAX_ATTACHMENTS files))
      ∧ (Exists (λ f, acceptable f = false) (take MAX_ATTACHMENTS files) →
         length saved < MAX_ATTACHMENTS).
Proof.
  split; [unfold save_attachments; by rewrite take_idemp|].
  intros saved w' [-> _]%save_attachments_inr. rewrite length_stored_names.
  split_and!; try done.
  intros (f & Hin & Hf)%Exists_exists.
  eapply Nat.lt_le_trans; [eapply length_filter_lt; [exact Hin|rewrite Hf; by intros []]|].
  pose proof (length_take files MAX_ATTACHMENTS). lia.
Qed.

(** *** Creating *)

Lemma add_issue_over_cap w request utcnow :
  MAX_ATTACHMENTS < length (files request) →
  ∃ msg, add_issue w request utcnow = (mkResponse 400 (Json_error msg), w).
Proof.
  intros Hmany. unfold add_issue.
  repeat (case_match; [eauto|]).
  apply Nat.ltb_lt in Hmany. rewrite Hmany in *. done.
Qed.



Lemma add_issue_accepts w request utcnow :
  valid_fields request →
  length (files request) ≤ MAX_ATTACHMENTS →
  add_issue w request utcnow =
  match save_attachments (files request) w with
  | (inl _, w1) => (mkResponse 500 Error_page, w1)
  | (inr filenames, w1) =>
      let issue :=
        mkIssue (next_id (db w1))
          (Py.strip (Py.or_default (form request !! "track") ""))
          (Py.strip (Py.or_default (form request !! "summary") ""))
          (Some (Py.strip (Py.or_default (form request !! "description") "")))
          (Some filenames)
          (Some (Py.strip (Py.or_default (form request !! "raised_by") "")))
          (Some (Py.strip (Py.or_default (form request !! "assignee") "")))
          (Py.strip (Py.or_default (form request !! "status") "Open"))
          (Some (Py.strip (Py.or_default (form request !! "scenario_id") "")))
          (Some (Py.strip (Py.or_default (form request !! "step_no") "")))
          utcnow in
      (mkResponse 201 (Json_issue (to_dict issue)),
       mkWorld (<[id issue := issue]> (db w1)) (disk w1) (entropy w1))
  end.
Proof.
  intros (Htrack & Hstatus & Hsummary & Hlen) Hfiles. unfold add_issue.
  rewrite !bool_decide_eq_true_2 by done. cbn [negb].
  assert (Py.truthy (Py.strip (Py.or_default (form request !! "summary") "")) = true) as ->.
  { by destruct (Py.strip (Py.or_default (form request !! "summary") "")). }
  apply Nat.leb_le in Hlen. rewrite Nat.ltb_antisym, Hlen. cbn [negb orb].
  apply Nat.leb_le in Hfiles. by rewrite Nat.ltb_antisym, Hfiles.
Qed.


(** *** Updating *)


(** C6. An update without files leaves alone every column the body does
    not name, the attachment list, the creation time and the key, as well
    as every other row and the disk. *)
Theorem update_issue_frame w issue_id issue request :
  db w !! issue_id = Some issue →
  files request = [] →
  ∃ issue',
    db (update_issue w issue_id request).2 !! issue_id = Some issue'
    ∧ (∀ field, supplied request field = false → getattr issue' field = getattr issue field)
    ∧ attachments issue' = attachments issue
    ∧ created_at issue' = created_at issue
    ∧ id issue' = id issue
    ∧ (∀ other, other ≠ issue_id →
         db (update_issue w issue_id request).2 !! other = db w !! other)
    ∧ disk (update_issue w issue_id request).2 = disk w.
Proof.
  intros Hrow Hfiles. unfold update_issue. rewrite Hrow, Hfiles.
  destruct (request_data request) as [refusal|data] eqn:Hdata; [by exists issue|].
  destruct (update_fields UPDATABLE data issue) as [early|issue'] eqn:Hloop; [by exists issue|].
  destruct (committable data issue'); [|by exists issue].
  apply update_fields_frame in Hloop as (Hget & Hatt & Hcreated & Hid).
  exists issue'. cbn. rewrite lookup_insert_eq. split_and!; try done.
  - intros field Hfield. apply Hget. by apply (supplied_getitem request).
  - intros other Hother. by rewrite lookup_insert_ne.
Qed.

(** *** Deleting *)

(** Whenever a delete is answered 200 the row is gone and none of its
    attachment names leads to a file any more. *)
Lemma delete_issue_200 w issue_id issue body w' :
  db w !! issue_id = Some issue →
  delete_issue w issue_id = (mkResponse 200 body, w') →
  db w' = delete issue_id (db w)
  ∧ Forall (λ f, uploaded_file w' f = (mkResponse 404 Error_page, w')) (attachment_list issue).
Proof.
  intros Hrow. unfold delete_issue. rewrite Hrow.
  destruct (remove_files _ _ _) as [[e|] d'] eqn:Hrm; [done|]. intros [= <- <-].
  apply remove_files_spec in Hrm as (_ & _ & Hgone). split; [done|].
  eapply Forall_impl; [by apply Hgone|]. intros f Hf.
  unfold uploaded_file. cbn [disk]. by rewrite Hf.
Qed.

(** The same for one row, under what the loop needs of its names. *)
Lemma delete_issue_entries w issue_id issue :
  db w !! issue_id = Some issue →
  upload_folder_ready UPLOAD_FOLDER (disk w) →
  Forall (λ f, plain_name f = true ∧ disk w !! (UPLOAD_FOLDER ++ [f]) ≠ Some Posix.Dir)
         (attachment_list issue) →
  ∃ w',
    delete_issue w issue_id = (mkResponse 200 (Json_message "Issue deleted"), w')
    ∧ db w' = delete issue_id (db w)
    ∧ (∀ f, f ∈ attachment_list issue →
         disk w' !! (UPLOAD_FOLDER ++ [f]) = None
         ∧ uploaded_file w' f = (mkResponse 404 Error_page, w'))
    ∧ (∀ p, (∀ f, f ∈ attachment_list issue → p ≠ UPLOAD_FOLDER ++ [f]) →
         disk w' !! p = disk w !! p).
Proof.
  intros Hrow Hready Hnames.
  destruct (remove_files_entries _ _ _ Hready Hnames) as (d' & Hrm & Hgone & Hframe).
  pose proof (delete_issue_200 w issue_id issue) as H200.
  unfold delete_issue in *. rewrite Hrow, Hrm in *.
  eexists. split; [done|]. destruct (H200 _ _ eq_refl eq_refl) as [_ H404].
  rewrite Forall_forall in H404. cbn [db disk]. split_and!; auto.
Qed.

(** *** Retrieving *)

Lemma os_path_isfile_open d path :
  Posix.os_path_isfile d path = true →
  ∃ q content, Posix.resolve d path = Posix.Found q ∧ d !! q = Some (Posix.File content)
               ∧ Posix.open_file d path = Some (q, content).
Proof.
  unfold Posix.os_path_isfile, Posix.open_file.
  destruct (Posix.resolve d path) as [q|]; [|done].
  destruct (d !! q) as [[c|]|] eqn:Hq; try done. eauto.
Qed.

(** C9, as the code has it.  The route takes a path, not a segment.  A
    request leaves the world alone and is answered either 404 or 200 with
    the content of a file that lies below the upload folder, one or more
    names down; a name that leads to no file is answered 404. *)
Theorem uploaded_file_confined w filename :
  Forall (λ c, plain_name c = true) app_dir →
  (uploaded_file w filename).2 = w
  ∧ ((uploaded_file w filename).1 = mkResponse 404 Error_page
     ∨ ∃ names content,
         names ≠ [] ∧ Forall (λ c, plain_name c = true) names
         ∧ disk w !! (UPLOAD_FOLDER ++ names) = Some (Posix.File content)
         ∧ (uploaded_file w filename).1
           = mkResponse 200 (File_content (UPLOAD_FOLDER ++ names) content))
  ∧ (Posix.os_path_isfile (disk w) (Posix.os_path_join UPLOAD_FOLDER filename) = false →
     (uploaded_file w filename).1 = mkResponse 404 Error_page).
Proof.
  intros Happ. unfold uploaded_file.
  destruct (Posix.os_path_isfile _ (Posix.os_path_join _ filename)); cbn [negb fst snd];
    [|by auto].
  split; [done|]. split; [|done].
  unfold send_from_directory.
  destruct (Posix.safe_join _ _) as [p|] eqn:Hjoin; [|by left].
  destruct (Posix.os_path_isfile (disk w) p) eqn:Hfile; cbn [negb]; [|by left].
  apply os_path_isfile_open in Hfile as (q & content & Hq & Hnode & ->).
  apply safe_join_below in Hjoin as (comps & -> & Hcomps).
  unfold Posix.resolve in Hq. rewrite walk_app in Hq.
  destruct (Posix.walk (disk w) [] UPLOAD_FOLDER) as [u|] eqn:Hu; [|done].
  assert (u = UPLOAD_FOLDER) as ->.
  { apply walk_names in Hu; [done|]. apply Forall_app. split; [done|]. by apply Forall_singleton. }
  assert (∀ c, c = "" ∨ c = "." → Posix.walk (disk w) UPLOAD_FOLDER [c] = Posix.Found q → False)
    as Hself.
  { intros c Hc. cbn [Posix.walk].
    destruct (Posix.is_dir _ _) eqn:Hdir; [|by destruct (disk w !! UPLOAD_FOLDER)].
    assert (Posix.enter UPLOAD_FOLDER c = UPLOAD_FOLDER) as ->.
    { unfold Posix.enter. by destruct Hc as [-> | ->]. }
    intros [= <-]. unfold UPLOAD_FOLDER, Posix.is_dir in *.
    destruct (app_dir ++ ["uploads"]) eqn:Hl; [by destruct app_dir|].
    by rewrite Hnode in Hdir. }
  destruct Hcomps as [-> | [-> | [Hne Hplain]]]; 
    [by destruct (Hself "" (or_introl eq_refl) Hq)
    |by destruct (Hself "." (or_intror eq_refl) Hq)|].
  apply walk_names in Hq as ->; [|done]. right. by exists comps, content.
Qed.

(** *** What every handler keeps *)

Lemma stored_names_all_plain n batch :
  stored_names_plain → Forall (λ f, plain_name f = true) (stored_names n batch).
Proof.
  intros Hplain. revert n. induction batch as [|f rest IH]; intros n; [done|].
  rewrite stored_names_cons. destruct (acceptable f); [|done]. by constructor.
Qed.

Lemma save_attachments_ok files w :
  stored_names_plain → store_ok UPLOAD_FOLDER w →
  names_fit (entropy w) (take MAX_ATTACHMENTS files) →
  ∃ w',
    save_attachments files w = (inr (stored_names (entropy w) (take MAX_ATTACHMENTS files)), w')
    ∧ db w' = db w ∧ store_ok UPLOAD_FOLDER w'.
Proof.
  intros Hplain (Hready & Hflat & Hrows) Hfit. unfold save_attachments.
  destruct (save_loop_ok (take MAX_ATTACHMENTS files) [] w Hplain Hfit Hready Hflat)
    as (d' & -> & Hsame & Hflat' & _).
  eexists. split_and!; [done..|].
  split_and!; [by eapply upload_folder_ready_same_dirs|done..].
Qed.

(** Whether or not a save fails, [save_attachments] keeps the store in
    order and the table as it is. *)
Lemma save_attachments_world files w :
  stored_names_plain → store_ok UPLOAD_FOLDER w →
  db (save_attachments files w).2 = db w
  ∧ store_ok UPLOAD_FOLDER (save_attachments files w).2
  ∧ entropy w ≤ entropy (save_attachments files w).2.
Proof.
  intros Hplain (Hready & Hflat & Hrows). unfold save_attachments.
  destruct (save_loop_world (take MAX_ATTACHMENTS files) [] w Hplain Hready Hflat)
    as (Hdb & Hle & Hsame & Hflat' & _).
  split_and!; [done| |done].
  split_and!; [by eapply upload_folder_ready_same_dirs|done|by rewrite Hdb].
Qed.

Lemma remove_first_Forall (P : string → Prop) x l :
  Forall P l → Forall P (Py.remove_first x l).
Proof.
  induction 1 as [|y l Hy Hl IH]; cbn; [done|].
  case_bool_decide; [done|by constructor].
Qed.

Lemma no_subdirectory_subseteq (dir : list string) (d d' : Posix.filesystem) :
  d' ⊆ d → no_subdirectory dir d → no_subdirectory dir d'.
Proof. intros Hsub Hflat p n Hp. eapply Hflat, lookup_weaken; done. Qed.

Lemma merged_route_world (P : World → Prop) converter name w :
  P w → P (merged_route converter name w).2.
Proof. intros Hw. unfold merged_route. destruct name; [done|]. by case_match. Qed.

Theorem handle_store_ok w c :
  stored_names_plain → store_ok UPLOAD_FOLDER w → store_ok UPLOAD_FOLDER (handle w c).2.
Proof.
  intros Hplain Hok. destruct c as [|request utcnow|issue_id request|issue_id|issue_id name|name|];
    cbn [handle]; try done.
  - (* POST /issues *)
    unfold add_issue. repeat (case_match; [done|]).
    destruct (save_attachments_world (files request) w Hplain Hok) as (Hdb & Hok' & _).
    destruct (save_attachments (files request) w) as [[e|saved] w'] eqn:Hsave; [done|].
    apply save_attachments_inr in Hsave as [-> _].
    destruct Hok' as (? & ? & Hrows). split_and!; try done. cbn.
    apply map_Forall_insert_2; [|done]. by apply stored_names_all_plain.
  - (* PATCH /issues/<id> *)
    case_match; [|done]. unfold bound_id. case_match; [done|].
    unfold update_issue. destruct (db w !! issue_id) as [issue|] eqn:Hrow; [|done].
    destruct (request_data request) as [refusal|data]; [done|].
    destruct (update_fields UPDATABLE data issue) as [early|issue'] eqn:Hloop; [done|].
    apply update_fields_frame in Hloop as (_ & Hatt & _).
    assert (Forall (λ f, plain_name f = true) (attachment_list issue')) as Hnames.
    { unfold attachment_list. rewrite Hatt. destruct Hok as (_ & _ & Hrows).
      apply (Hrows _ _ Hrow). }
    destruct (files request) as [|f rest] eqn:Hfiles.
    + case_match; [|done]. destruct Hok as (? & ? & Hrows). split_and!; try done.
      by apply map_Forall_insert_2.
    + destruct (save_attachments_world (f :: rest) w Hplain Hok) as (Hdb & Hok' & _).
      destruct (save_attachments (f :: rest) w) as [[e|saved] w'] eqn:Hsave; [done|].
      apply save_attachments_inr in Hsave as [-> _].
      case_match; [|done].
      destruct Hok' as (? & ? & Hrows). split_and!; try done. cbn [snd db].
      apply map_Forall_insert_2; [|done]. rewrite attachment_list_set.
      apply Forall_app. split; [done|]. by apply stored_names_all_plain.
  - (* DELETE /issues/<id> *)
    case_match; [|done]. unfold bound_id. case_match; [done|]. unfold delete_issue. destruct (db w !! issue_id) as [issue|] eqn:Hrow; [|done].
    destruct (remove_files _ _ _) as [err d'] eqn:Hrm.
    apply remove_files_spec in Hrm as (Hsame & Hsub & _).
    destruct Hok as (Hready & Hflat & Hrows).
    assert (upload_folder_ready UPLOAD_FOLDER d') by by eapply upload_folder_ready_same_dirs.
    assert (no_subdirectory UPLOAD_FOLDER d') by by eapply no_subdirectory_subseteq.
    destruct err; split_and!; try done. by apply map_Forall_delete.
  - (* DELETE /issues/<id>/attachments/<filename> *)
    case_match; [|done]. case_match; [|by apply merged_route_world].
    unfold bound_id. case_match; [done|]. unfold delete_attachment. destruct (db w !! issue_id) as [issue|] eqn:Hrow; [|done].
    case_bool_decide; [|done].
    destruct Hok as (Hready & Hflat & Hrows).
    assert (map_Forall (λ _ issue, Forall (λ f, plain_name f = true) (attachment_list issue))
              (<[issue_id := set_attachments issue (Py.remove_first name (attachment_list issue))]>
                 (db w))) as Hrows'.
    { apply map_Forall_insert_2; [|done]. rewrite attachment_list_set.
      apply remove_first_Forall, (Hrows _ _ Hrow). }
    destruct (Posix.os_remove _ _) as [e|d'] eqn:Hrm.
    + destruct e; split_and!; done.
    + apply os_remove_inr in Hrm as (p & content & _ & Hfile & ->).
      split_and!; try done.
      * eapply upload_folder_ready_same_dirs; [|done]. by eapply same_dirs_delete_file.
      * eapply no_subdirectory_subseteq; [|done]. apply delete_subseteq.
  - (* GET /uploads/<path> *)
    case_match; [|by apply merged_route_world]. unfold uploaded_file. by case_match.
  - (* GET /issues/download *)
    unfold download_issues. by case_match.
Qed.

(** Whatever is asked of it, the application keeps the store in order. *)
Theorem run_store_ok calls w :
  stored_names_plain → store_ok UPLOAD_FOLDER w → store_ok UPLOAD_FOLDER (run w calls).
Proof.
  intros Hplain. revert w. induction calls as [|c calls IH]; intros w Hok; [done|].
  apply IH. by apply handle_store_ok.
Qed.

(** In such a state the names of every row are what the loop of
    [delete_issue] can remove. *)
Lemma store_ok_row w issue_id issue :
  store_ok UPLOAD_FOLDER w → db w !! issue_id = Some issue →
  Forall (λ f, plain_name f = true ∧ disk w !! (UPLOAD_FOLDER ++ [f]) ≠ Some Posix.Dir)
         (attachment_list issue).
Proof.
  intros (_ & Hflat & Hrows) Hrow. eapply Forall_impl; [apply (Hrows _ _ Hrow)|].
  intros f Hf. split; [done|]. intros Hdir. by apply (Hflat _ _ Hdir (entry_of_snoc _ _)).
Qed.

Lemma add_issue_over_cap_valid w request utcnow :
  valid_fields request →
  MAX_ATTACHMENTS < length (files request) →
  add_issue w request utcnow
  = (mkResponse 400 (Json_error "Max 5 attachments allowed"), w).
Proof.
  intros (Htrack & Hstatus & Hsummary & Hlen) Hmany. unfold add_issue.
  rewrite !bool_decide_eq_true_2 by done. cbn [negb].
  assert (Py.truthy (Py.strip (Py.or_default (form request !! "summary") "")) = true) as ->.
  { by destruct (Py.strip (Py.or_default (form request !! "summary") "")). }
  apply Nat.leb_le in Hlen. rewrite Nat.ltb_antisym, Hlen. cbn [negb orb].
  apply Nat.ltb_lt in Hmany. by rewrite Hmany.
Qed.


(** C7. In a state with the store in order (every state reached from a
    fresh install is one, see [reachable_store_ok] below), deleting an
    existing issue is answered 200; the row is gone; every name of its
    attachment list is gone from the upload folder, whether or not a file
    was there before; asking for any of them afterwards is answered 404;
    nothing else on the disk changes. *)
Theorem delete_issue_removes_files w issue_id issue :
  store_ok UPLOAD_FOLDER w →
  db w !! issue_id = Some issue →
  ∃ w',
    delete_issue w issue_id = (mkResponse 200 (Json_message "Issue deleted"), w')
    ∧ db w' = delete issue_id (db w)
    ∧ (∀ f, f ∈ attachment_list issue →
         disk w' !! (UPLOAD_FOLDER ++ [f]) = None
         ∧ uploaded_file w' f = (mkResponse 404 Error_page, w'))
    ∧ (∀ p, (∀ f, f ∈ attachment_list issue → p ≠ UPLOAD_FOLDER ++ [f]) →
         disk w' !! p = disk w !! p).
Proof.
  intros Hok Hrow. apply delete_issue_entries; [done|apply Hok|].
  by eapply store_ok_row.
Qed.

(** *** A fresh install *)

Lemma elem_of_ancestors (p l : list string) : p ∈ ancestors l ↔ p ≠ [] ∧ p `prefix_of` l.
Proof.
  revert p. induction l as [|c l IH]; intros p; cbn [ancestors].
  - split; [by intros ?%not_elem_of_nil|]. intros [Hne Hp]. by apply prefix_nil_inv in Hp.
  - rewrite elem_of_cons, list_elem_of_fmap. split.
    + intros [->|(q & -> & [Hq Hpre]%IH)]; (split; [done|]).
      * by apply prefix_cons, prefix_nil.
      * by apply prefix_cons.
    + intros [Hne Hpre]. destruct p as [|a p]; [done|].
      apply prefix_cons_inv_1 in Hpre as Ha. apply prefix_cons_inv_2 in Hpre. subst a.
      destruct p as [|b p]; [by left|]. right. exists (b :: p). split; [done|].
      apply IH. done.
Qed.

Lemma fresh_disk_lookup dir p n :
  fresh_disk dir !! p = Some n → n = Posix.Dir ∧ p ≠ [] ∧ p `prefix_of` (dir ++ ["uploads"]).
Proof.
  unfold fresh_disk. intros H%elem_of_list_to_map_2.
  apply list_elem_of_fmap in H as (q & [= -> ->] & Hq). by apply elem_of_ancestors in Hq.
Qed.

Lemma fresh_disk_is_dir dir p :
  p `prefix_of` (dir ++ ["uploads"]) → Posix.is_dir (fresh_disk dir) p = true.
Proof.
  intros Hp. unfold Posix.is_dir. destruct p as [|c p]; [done|].
  destruct (fresh_disk dir !! (c :: p)) as [n|] eqn:Hn.
  - by apply fresh_disk_lookup in Hn as [-> _].
  - apply not_elem_of_list_to_map_2 in Hn. destruct Hn.
    apply list_elem_of_fmap. exists (c :: p, Posix.Dir). split; [done|].
    apply list_elem_of_fmap. exists (c :: p). split; [done|]. by apply elem_of_ancestors.
Qed.

Lemma walk_dirs d cur comps :
  Forall (λ c, plain_name c = true) comps →
  (∀ q, q `prefix_of` comps → q ≠ comps → Posix.is_dir d (cur ++ q) = true) →
  Posix.walk d cur comps = Posix.Found (cur ++ comps).
Proof.
  intros Hplain. revert cur. induction Hplain as [|c comps Hc _ IH]; intros cur Hdirs; cbn.
  - by rewrite app_nil_r.
  - rewrite <- (app_nil_r cur) at 1. rewrite Hdirs; [|apply prefix_nil|done].
    rewrite (enter_plain _ _ Hc), IH; [by rewrite <- app_assoc|].
    intros q Hq Hne. rewrite <- app_assoc. apply Hdirs; [by apply prefix_cons|cbn; congruence].
Qed.

Theorem fresh_world_store_ok :
  Forall (λ c, plain_name c = true) app_dir → store_ok UPLOAD_FOLDER (fresh_world app_dir).
Proof.
  intros Happ. unfold store_ok, fresh_world. cbn [db disk]. split_and!.
  - split; [|by apply fresh_disk_is_dir].
    apply (walk_dirs _ []).
    + apply Forall_app. split; [done|]. by apply Forall_singleton.
    + intros q Hq _. by apply fresh_disk_is_dir.
  - intros p n (_ & _ & Hpre)%fresh_disk_lookup [Hne Hlast].
    apply prefix_length in Hpre. fold UPLOAD_FOLDER in Hpre. rewrite <- Hlast in Hpre.
    destruct p as [|c p] using rev_ind; [done|].
    rewrite removelast_last, length_app in Hpre. cbn in Hpre. lia.
  - apply map_Forall_empty.
Qed.

(** From a fresh install on, every state the API can reach has the store
    in order. *)
Theorem reachable_store_ok calls :
  Forall (λ c, plain_name c = true) app_dir → stored_names_plain →
  store_ok UPLOAD_FOLDER (run (fresh_world app_dir) calls).
Proof. intros Happ Hplain. by apply run_store_ok, fresh_world_store_ok. Qed.

(** *** Tracks *)

Lemma getattr_track i : getattr i "track" = Some (track i).
Proof. done. Qed.

(** Every handler keeps the tracks within ALLOWED_TRACKS, save an update
    whose body names the track. *)
Lemma handle_tracks_allowed w c :
  (∀ issue_id request, c = PATCH_issue issue_id request → supplied request "track" = false) →
  tracks_allowed w → tracks_allowed (handle w c).2.
Proof.
  intros Hpatch Hok. destruct c as [|request utcnow|issue_id request|issue_id|issue_id name|name|];
    cbn [handle]; try done.
  - unfold add_issue. case_match eqn:Htrack; [done|]. repeat (case_match; [done|]).
    pose proof (save_attachments_db (files request) w) as Hdb.
    destruct (save_attachments _ _) as [[e|saved] w']; cbn [snd] in *;
      unfold tracks_allowed in *; cbn [db]; rewrite Hdb; [done|].
    apply map_Forall_insert_2; [|done].
    by apply negb_false_iff, bool_decide_eq_true in Htrack.
  - case_match; [|done]. unfold bound_id. case_match; [done|].
    specialize (Hpatch _ _ eq_refl). unfold update_issue.
    destruct (db w !! issue_id) as [issue|] eqn:Hrow; [|done].
    destruct (request_data request) as [refusal|data] eqn:Hdata; [done|].
    destruct (update_fields UPDATABLE data issue) as [early|issue'] eqn:Hloop; [done|].
    apply update_fields_frame in Hloop as (Hget & _).
    apply (supplied_getitem _ _ _ Hdata), Hget in Hpatch.
    rewrite !getattr_track in Hpatch. injection Hpatch as Htrack.
    pose proof (Hok _ _ Hrow) as Hissue. cbn in Hissue. rewrite <- Htrack in Hissue.
    destruct (files request) as [|f rest].
    + case_match; [|done]. by apply map_Forall_insert_2.
    + pose proof (save_attachments_db (f :: rest) w) as Hdb.
      destruct (save_attachments _ _) as [[e|saved] w']; cbn [snd] in *; [|case_match];
        unfold tracks_allowed in *; cbn [snd db]; rewrite Hdb; [done| |done].
      by apply map_Forall_insert_2.
  - case_match; [|done]. unfold bound_id. case_match; [done|].
    unfold delete_issue. destruct (db w !! issue_id); [|done].
    destruct (remove_files _ _ _) as [[e|] d']; [done|]. by apply map_Forall_delete.
  - case_match; [|done]. case_match; [|by apply merged_route_world].
    unfold bound_id. case_match; [done|]. unfold delete_attachment.
    destruct (db w !! issue_id) as [issue|] eqn:Hrow; [|done].
    case_bool_decide; [|done].
    assert (tracks_allowed
              (mkWorld (<[issue_id := set_attachments issue
                                         (Py.remove_first name (attachment_list issue))]> (db w))
                 (disk w) (entropy w))) as Hnew.
    { apply map_Forall_insert_2; [|done]. apply (Hok _ _ Hrow). }
    destruct (Posix.os_remove _ _) as [[]|d']; done.
  - case_match; [|by apply merged_route_world]. unfold uploaded_file. by case_match.
  - unfold download_issues. by case_match.
Qed.

Lemma or_empty_strip_text s : or_empty_strip (JStr s) = Some (Py.strip s).
Proof. by destruct s. Qed.

(** An update that names the track stores it, trimmed, whatever text it
    is. *)
Lemma update_issue_track_unchecked w issue_id issue value :
  db w !! issue_id = Some issue →
  Py.encodable (Py.strip value) = true →
  update_issue w issue_id (mkRequest ∅ (Parsed (JDict {[ "track" := JStr value ]})) [])
  = (mkResponse 200 (Json_issue (to_dict (setattr issue "track" (Py.strip value)))),
     mkWorld (<[issue_id := setattr issue "track" (Py.strip value)]> (db w))
             (disk w) (entropy w)).
Proof.
  intros Hrow Htext. unfold update_issue. rewrite Hrow.
  assert (request_data (mkRequest ∅ (Parsed (JDict {[ "track" := JStr value ]})) [])
          = inr (JDict {[ "track" := JStr value ]})) as -> by done.
  unfold UPDATABLE. rewrite update_fields_dict, lookup_singleton_eq.
  assert (bool_decide ("track" = "status") = false) as -> by done.
  rewrite or_empty_strip_text.
  repeat (rewrite update_fields_dict, lookup_singleton_ne by done).
  cbn [update_fields files].
  assert (committable (JDict {[ "track" := JStr value ]})
            (setattr issue "track" (Py.strip value)) = true) as ->; [|done].
  unfold committable, UPDATABLE. cbn [forallb Json_contains].
  rewrite lookup_singleton_eq, !lookup_singleton_ne by done.
  rewrite bool_decide_eq_true_2 by eauto.
  rewrite !bool_decide_eq_false_2 by (by intros [? ?]).
  change (getattr (setattr issue "track" (Py.strip value)) "track")
    with (Some (Py.strip value)).
  cbn [andb]. by rewrite Htext.
Qed.

(** *** The listing *)

#[local] Instance id_desc_total : Total id_desc.
Proof. intros a b. unfold id_desc. lia. Qed.

#[local] Instance id_desc_trans : Transitive id_desc.
Proof. intros a b c. unfold id_desc. lia. Qed.

Lemma all_by_id_desc_perm table : all_by_id_desc table ≡ₚ (map_to_list table).*2.
Proof. apply merge_sort_Permutation. Qed.

Lemma all_by_id_desc_sorted table : StronglySorted id_desc (all_by_id_desc table).
Proof. apply StronglySorted_merge_sort; apply _. Qed.

Lemma elem_of_all_by_id_desc (table : gmap Z Issue) i :
  i ∈ all_by_id_desc table ↔ ∃ k, table !! k = Some i.
Proof.
  rewrite all_by_id_desc_perm, list_elem_of_fmap. split.
  - intros ([k j] & -> & Hin). exists k. by apply elem_of_map_to_list.
  - intros [k Hk]. exists (k, i). split; [done|]. by apply elem_of_map_to_list.
Qed.

Lemma values_ids w :
  keys_are_ids w → id <$> (map_to_list (db w)).*2 = (map_to_list (db w)).*1.
Proof.
  intros Hkeys. rewrite <- list_fmap_compose. apply list_fmap_ext.
  intros n [k i] Hin. cbn. apply (Hkeys k i).
  apply elem_of_map_to_list. by eapply list_elem_of_lookup_2.
Qed.

Lemma all_by_id_desc_NoDup w : keys_are_ids w → NoDup (id <$> all_by_id_desc (db w)).
Proof.
  intros Hkeys. rewrite all_by_id_desc_perm, (values_ids _ Hkeys).
  apply NoDup_fst_map_to_list.
Qed.

Lemma StronglySorted_strict (l : list Issue) :
  StronglySorted id_desc l → NoDup (id <$> l) →
  StronglySorted (λ a b, (id b < id a)%Z) l.
Proof.
  induction 1 as [|a l Hl IH Ha]; intros Hnd; [constructor|].
  apply NoDup_cons in Hnd as [Hnotin Hnd]. constructor; [by apply IH|].
  rewrite Forall_forall in Ha. apply Forall_forall. intros b Hb.
  specialize (Ha b Hb). unfold id_desc in Ha.
  assert (id b ≠ id a); [|lia]. intros Heq. apply Hnotin. rewrite <- Heq.
  by apply list_elem_of_fmap_2.
Qed.

(** X2. The listing answers 200 with every row of the table, each once,
    by id from the largest down, and leaves the world as it is. *)
Theorem get_issues_newest_first w :
  keys_are_ids w →
  ∃ issues,
    get_issues w = (mkResponse 200 (Json_issues (to_dict <$> issues)), w)
    ∧ (∀ i, i ∈ issues ↔ db w !! id i = Some i)
    ∧ length issues = size (db w)
    ∧ StronglySorted (λ a b, (id b < id a)%Z) issues.
Proof.
  intros Hkeys. exists (all_by_id_desc (db w)). split_and!.
  - done.
  - intros i. rewrite elem_of_all_by_id_desc. split.
    + intros [k Hk]. by rewrite (Hkeys k i Hk).
    + eauto.
  - by rewrite all_by_id_desc_perm, length_fmap, length_map_to_list.
  - apply StronglySorted_strict; [apply all_by_id_desc_sorted|by apply all_by_id_desc_NoDup].
Qed.

(** *** Ids and statuses *)

Lemma strip_allowed_status s : s ∈ ALLOWED_STATUS → Py.strip s = s.
Proof. unfold ALLOWED_STATUS. set_unfold. intros H. destruct_or!; by subst. Qed.

Lemma setattr_status_ne i field v : field ≠ "status" → status (setattr i field v) = status i.
Proof. intros Hne. unfold setattr. repeat case_bool_decide; done. Qed.

Lemma setattr_status i v : status (setattr i "status" v) = v.
Proof. done. Qed.

Lemma or_default_empty v : Py.or_default (Some v) "" = v.
Proof. by destruct v. Qed.

Lemma update_fields_status fields data issue issue' :
  update_fields fields data issue = inr issue' →
  status issue ∈ ALLOWED_STATUS → status issue' ∈ ALLOWED_STATUS.
Proof.
  revert issue. induction fields as [|field rest IH]; intros issue; cbn [update_fields].
  - by intros [= ->].
  - destruct (Json_contains data field) as [[]|]; [|by apply IH|done].
    destruct (Json_getitem data field) as [value|]; [|done].
    destruct (decide (field = "status")) as [->|Hne].
    + rewrite bool_decide_eq_true_2 by done.
      destruct value as [| | | |s| |]; cbn [not_in_allowed_status]; try done.
      case_bool_decide as Hs; [|done]. cbn [negb]. rewrite or_empty_strip_text.
      intros Hrest _.
      apply (IH _ Hrest). by rewrite setattr_status, strip_allowed_status.
    + rewrite (bool_decide_eq_false_2 _ Hne).
      destruct (or_empty_strip value) as [text|]; [|done]. intros Hrest Hok.
      apply (IH _ Hrest). by rewrite setattr_status_ne.
Qed.

Lemma handle_statuses_allowed w c : statuses_allowed w → statuses_allowed (handle w c).2.
Proof.
  intros Hok. destruct c as [|request utcnow|issue_id request|issue_id|issue_id name|name|];
    cbn [handle]; try done.
  - unfold add_issue. case_match; [done|]. case_match eqn:Hstatus; [done|].
    repeat (case_match; [done|]).
    pose proof (save_attachments_db (files request) w) as Hdb.
    destruct (save_attachments _ _) as [[e|saved] w']; cbn [snd] in *;
      unfold statuses_allowed in *; cbn [db]; rewrite Hdb; [done|].
    apply map_Forall_insert_2; [|done].
    by apply negb_false_iff, bool_decide_eq_true in Hstatus.
  - case_match; [|done]. unfold bound_id. case_match; [done|]. unfold update_issue.
    destruct (db w !! issue_id) as [issue|] eqn:Hrow; [|done].
    destruct (request_data request) as [refusal|data]; [done|].
    destruct (update_fields UPDATABLE data issue) as [early|issue'] eqn:Hloop; [done|].
    apply update_fields_status in Hloop; [|apply (Hok _ _ Hrow)].
    destruct (files request) as [|f rest].
    + case_match; [|done]. by apply map_Forall_insert_2.
    + pose proof (save_attachments_db (f :: rest) w) as Hdb.
      destruct (save_attachments _ _) as [[e|saved] w']; cbn [snd] in *; [|case_match];
        unfold statuses_allowed in *; cbn [snd db]; rewrite Hdb; [done| |done].
      by apply map_Forall_insert_2.
  - case_match; [|done]. unfold bound_id. case_match; [done|]. unfold delete_issue. destruct (db w !! issue_id); [|done].
    destruct (remove_files _ _ _) as [[e|] d']; [done|]. by apply map_Forall_delete.
  - case_match; [|done]. case_match; [|by apply merged_route_world].
    unfold bound_id. case_match; [done|]. unfold delete_attachment.
    destruct (db w !! issue_id) as [issue|] eqn:Hrow; [|done].
    case_bool_decide; [|done].
    assert (statuses_allowed
              (mkWorld (<[issue_id := set_attachments issue
                                         (Py.remove_first name (attachment_list issue))]> (db w))
                 (disk w) (entropy w))) as Hnew.
    { apply map_Forall_insert_2; [|done]. apply (Hok _ _ Hrow). }
    destruct (Posix.os_remove _ _) as [[]|d']; done.
  - case_match; [|by apply merged_route_world]. unfold uploaded_file. by case_match.
  - unfold download_issues. by case_match.
Qed.

(** X3. Whatever is asked of the application, every row keeps a status of
    ALLOWED_STATUS: a create checks the trimmed status, an update checks the
    status it is given, and the allowed values are left alone by the
    trimming that follows. *)
Theorem run_statuses_allowed calls w :
  statuses_allowed w → statuses_allowed (run w calls).
Proof.
  revert w. induction calls as [|c calls IH]; intros w Hok; [done|].
  apply IH. by apply handle_statuses_allowed.
Qed.

Lemma handle_keys_are_ids w c : keys_are_ids w → keys_are_ids (handle w c).2.
Proof.
  intros Hok. destruct c as [|request utcnow|issue_id request|issue_id|issue_id name|name|];
    cbn [handle]; try done.
  - unfold add_issue. repeat (case_match; [done|]).
    pose proof (save_attachments_db (files request) w) as Hdb.
    destruct (save_attachments _ _) as [[e|saved] w']; cbn [snd] in *;
      unfold keys_are_ids in *; cbn [db]; rewrite Hdb; [done|].
    by apply map_Forall_insert_2.
  - case_match; [|done]. unfold bound_id. case_match; [done|]. unfold update_issue.
    destruct (db w !! issue_id) as [issue|] eqn:Hrow; [|done].
    destruct (request_data request) as [refusal|data]; [done|].
    destruct (update_fields UPDATABLE data issue) as [early|issue'] eqn:Hloop; [done|].
    apply update_fields_frame in Hloop as (_ & _ & _ & Hid).
    rewrite (Hok _ _ Hrow) in Hid.
    destruct (files request) as [|f rest].
    + case_match; [|done]. by apply map_Forall_insert_2.
    + pose proof (save_attachments_db (f :: rest) w) as Hdb.
      destruct (save_attachments _ _) as [[e|saved] w']; cbn [snd] in *; [|case_match];
        unfold keys_are_ids in *; cbn [snd db]; rewrite Hdb; [done| |done].
      by apply map_Forall_insert_2.
  - case_match; [|done]. unfold bound_id. case_match; [done|]. unfold delete_issue. destruct (db w !! issue_id); [|done].
    destruct (remove_files _ _ _) as [[e|] d']; [done|]. by apply map_Forall_delete.
  - case_match; [|done]. case_match; [|by apply merged_route_world].
    unfold bound_id. case_match; [done|]. unfold delete_attachment.
    destruct (db w !! issue_id) as [issue|] eqn:Hrow; [|done].
    case_bool_decide; [|done].
    assert (keys_are_ids
              (mkWorld (<[issue_id := set_attachments issue
                                         (Py.remove_first name (attachment_list issue))]> (db w))
                 (disk w) (entropy w))) as Hnew.
    { apply map_Forall_insert_2; [|done]. apply (Hok _ _ Hrow). }
    destruct (Posix.os_remove _ _) as [[]|d']; done.
  - case_match; [|by apply merged_route_world]. unfold uploaded_file. by case_match.
  - unfold download_issues. by case_match.
Qed.

(** X21. Whatever is asked of the application, every row stays under its
    own id: a create stores the row under the id it gives it, and no
    request changes the id column, so the ids of the table are unique. *)
Theorem run_keys_are_ids calls w : keys_are_ids w → keys_are_ids (run w calls).
Proof.
  revert w. induction calls as [|c calls IH]; intros w Hok; [done|].
  apply IH. by apply handle_keys_are_ids.
Qed.

(** X4. A request never touches the identity of a row it leaves in the
    table: the id and the creation time of a row that is there before and
    after are the same, whatever the request. *)
Theorem handle_keeps_identity w c k issue issue' :
  db w !! k = Some issue →
  db (handle w c).2 !! k = Some issue' →
  id issue' = id issue ∧ created_at issue' = created_at issue.
Proof.
  intros Hrow. destruct c as [|request utcnow|issue_id request|issue_id|issue_id name|name|];
    cbn [handle].
  - cbn. by intros [= <-]%(eq_trans (eq_sym Hrow)).
  - unfold add_issue.
    repeat (case_match; [cbn [snd]; by intros [= <-]%(eq_trans (eq_sym Hrow))|]).
    pose proof (save_attachments_db (files request) w) as Hdb.
    destruct (save_attachments _ _) as [[e|saved] w']; cbn [snd db] in *; rewrite Hdb.
    + by intros [= <-]%(eq_trans (eq_sym Hrow)).
    + rewrite lookup_insert_ne; [by intros [= <-]%(eq_trans (eq_sym Hrow))|].
      cbn [id]. intros <-. by rewrite next_id_fresh in Hrow.
  - case_match; [|cbn; by intros [= <-]%(eq_trans (eq_sym Hrow))].
    unfold bound_id. case_match; [cbn; by intros [= <-]%(eq_trans (eq_sym Hrow))|].
    unfold update_issue.
    destruct (db w !! issue_id) as [row|] eqn:Hlook;
      [|cbn; by intros [= <-]%(eq_trans (eq_sym Hrow))].
    destruct (request_data request) as [refusal|data];
      [cbn; by intros [= <-]%(eq_trans (eq_sym Hrow))|].
    destruct (update_fields UPDATABLE data row) as [early|row'] eqn:Hloop;
      [cbn; by intros [= <-]%(eq_trans (eq_sym Hrow))|].
    apply update_fields_frame in Hloop as (_ & _ & Hcreated & Hid).
    assert (∀ table : gmap Z Issue, ∀ l,
              (table = db w) →
              <[issue_id := row']> table !! k = Some issue' ∨
              <[issue_id := set_attachments row' l]> table !! k = Some issue' →
              id issue' = id issue ∧ created_at issue' = created_at issue) as Hcase.
    { intros table l -> Hnew. destruct (decide (k = issue_id)) as [->|Hne].
      - rewrite !lookup_insert_eq in Hnew. rewrite Hlook in Hrow. injection Hrow as <-.
        destruct Hnew as [[= <-]|[= <-]]; done.
      - rewrite !lookup_insert_ne in Hnew by done. rewrite Hrow in Hnew.
        destruct Hnew as [[= <-]|[= <-]]; done. }
    destruct (files request) as [|f rest].
    + case_match; [|cbn; by intros [= <-]%(eq_trans (eq_sym Hrow))].
      cbn. intros Hnew. apply (Hcase (db w) []); auto.
    + pose proof (save_attachments_db (f :: rest) w) as Hdb.
      destruct (save_attachments _ _) as [[e|saved] w']; cbn [snd db] in *.
      * rewrite Hdb. by intros [= <-]%(eq_trans (eq_sym Hrow)).
      * case_match; cbn [snd db].
        -- intros Hnew. apply (Hcase (db w') (attachment_list row' ++ saved)); auto.
        -- rewrite Hdb. by intros [= <-]%(eq_trans (eq_sym Hrow)).
  - case_match; [|cbn; by intros [= <-]%(eq_trans (eq_sym Hrow))].
    unfold bound_id. case_match; [cbn; by intros [= <-]%(eq_trans (eq_sym Hrow))|].
    unfold delete_issue.
    destruct (db w !! issue_id) as [row|] eqn:Hlook;
      [|cbn; by intros [= <-]%(eq_trans (eq_sym Hrow))].
    destruct (remove_files _ _ _) as [[e|] d']; cbn [snd db].
    + by intros [= <-]%(eq_trans (eq_sym Hrow)).
    + intros [_ Hnew]%lookup_delete_Some. rewrite Hrow in Hnew. by injection Hnew as <-.
  - case_match; [|cbn; by intros [= <-]%(eq_trans (eq_sym Hrow))].
    case_match;
      [|apply (merged_route_world (λ w', db w' !! k = Some issue' → _));
        by intros [= <-]%(eq_trans (eq_sym Hrow))].
    unfold bound_id. case_match; [cbn; by intros [= <-]%(eq_trans (eq_sym Hrow))|].
    unfold delete_attachment.
    destruct (db w !! issue_id) as [row|] eqn:Hlook;
      [|cbn; by intros [= <-]%(eq_trans (eq_sym Hrow))].
    case_bool_decide; [|cbn; by intros [= <-]%(eq_trans (eq_sym Hrow))].
    assert (<[issue_id := set_attachments row (Py.remove_first name (attachment_list row))]>
              (db w) !! k = Some issue' →
            id issue' = id issue ∧ created_at issue' = created_at issue) as Hcase.
    { destruct (decide (k = issue_id)) as [->|Hne].
      - rewrite lookup_insert_eq. rewrite Hlook in Hrow. injection Hrow as <-. by intros [= <-].
      - rewrite lookup_insert_ne by done. rewrite Hrow. by intros [= <-]. }
    destruct (Posix.os_remove _ _) as [[]|d']; cbn [snd db]; apply Hcase.
  - case_match;
      [|apply (merged_route_world (λ w', db w' !! k = Some issue' → _));
        by intros [= <-]%(eq_trans (eq_sym Hrow))].
    unfold uploaded_file.
    case_match; cbn; by intros [= <-]%(eq_trans (eq_sym Hrow)).
  - unfold download_issues. case_match; cbn; by intros [= <-]%(eq_trans (eq_sym Hrow)).
Qed.

(** *** More on creating *)

Lemma next_id_positive (table : gmap Z Issue) : (0 < next_id table)%Z.
Proof.
  unfold next_id.
  assert (0 ≤ map_fold (λ (k : Z) (_ : Issue) acc, Z.max k acc) 0 table)%Z; [|lia].
  apply (map_fold_weak_ind (λ r (_ : gmap Z Issue), (0 ≤ r)%Z)); [done|]. intros. lia.
Qed.

(** Either the request fails one of the four tests, or it passes them all. *)
Lemma add_issue_cases w request utcnow :
  (¬ (valid_fields request ∧ length (files request) ≤ MAX_ATTACHMENTS)
   ∧ ∃ msg, add_issue w request utcnow = (mkResponse 400 (Json_error msg), w))
  ∨ (valid_fields request ∧ length (files request) ≤ MAX_ATTACHMENTS).
Proof.
  unfold add_issue, valid_fields.
  case_bool_decide as Htrack; cbn [negb]; [|left; split; [tauto|eauto]].
  case_bool_decide as Hstatus; cbn [negb]; [|left; split; [tauto|eauto]].
  destruct (Py.strip (Py.or_default (form request !! "summary") "")) as [|a s] eqn:Hsummary.
  { left. split; [tauto|cbn; eauto]. }
  cbn [Py.truthy negb orb].
  destruct (250 <? Py.len (String a s)) eqn:Hlen.
  { left. apply Nat.ltb_lt in Hlen. split; [|eauto]. intros [(_ & _ & _ & ?) _]. lia. }
  apply Nat.ltb_ge in Hlen.
  destruct (MAX_ATTACHMENTS <? length (files request)) eqn:Hfiles.
  { left. apply Nat.ltb_lt in Hfiles. split; [|eauto]. intros [_ ?]. lia. }
  apply Nat.ltb_ge in Hfiles. right. split_and!; done.
Qed.



Lemma add_issue_201 w request utcnow body w' :
  add_issue w request utcnow = (mkResponse 201 body, w') →
  ∃ issue,
    body = Json_issue (to_dict issue)
    ∧ id issue = next_id (db w)
    ∧ db w' = <[next_id (db w) := issue]> (db w).
Proof.
  unfold add_issue. repeat (case_match; [done|]).
  pose proof (save_attachments_db (files request) w) as Hdb.
  destruct (save_attachments _ _) as [[e|saved] w1]; [done|]. cbn [snd] in Hdb.
  intros [= <- <-]. eexists. split; [reflexivity|]. cbn [id db]. by rewrite Hdb.
Qed.

Lemma all_by_id_desc_insert_max (table : gmap Z Issue) k issue :
  (∀ j row, table !! j = Some row → (id row < id issue)%Z) →
  ∃ rest, all_by_id_desc (<[k := issue]> table) = issue :: rest.
Proof.
  intros Hmax.
  assert (issue ∈ all_by_id_desc (<[k := issue]> table)) as Hin.
  { apply elem_of_all_by_id_desc. exists k. apply lookup_insert_eq. }
  pose proof (all_by_id_desc_sorted (<[k := issue]> table)) as Hsorted.
  assert (∀ x, x ∈ all_by_id_desc (<[k := issue]> table) → x = issue ∨ (id x < id issue)%Z)
    as Hall.
  { intros x [j Hj]%elem_of_all_by_id_desc. destruct (decide (j = k)) as [->|Hne].
    - rewrite lookup_insert_eq in Hj. left. congruence.
    - rewrite lookup_insert_ne in Hj by done. right. eauto. }
  destruct (all_by_id_desc (<[k := issue]> table)) as [|h t]; [by apply not_elem_of_nil in Hin|].
  destruct (Hall h ltac:(left)) as [->|Hlt]; [eauto|].
  apply elem_of_cons in Hin as [->|Hin]; [eauto|].
  apply StronglySorted_inv in Hsorted as [_ Hh]. rewrite Forall_forall in Hh.
  specialize (Hh issue Hin). unfold id_desc in Hh. lia.
Qed.

(** X7. An issue that has just been created heads the listing: the next
    [GET /issues] shows first the record the create request was answered
    with. *)
Theorem add_issue_listed_first w request utcnow body w' :
  keys_are_ids w →
  add_issue w request utcnow = (mkResponse 201 body, w') →
  ∃ d rest,
    body = Json_issue d
    ∧ get_issues w' = (mkResponse 200 (Json_issues (d :: rest)), w').
Proof.
  intros Hkeys (issue & -> & Hid & Hdb)%add_issue_201.
  destruct (all_by_id_desc_insert_max (db w) (next_id (db w)) issue) as [rest Hrest].
  { intros j row Hrow. rewrite Hid, (Hkeys _ _ Hrow). by eapply next_id_above. }
  exists (to_dict issue), (to_dict <$> rest). split; [done|].
  unfold get_issues. by rewrite Hdb, Hrest.
Qed.

(** *** More on updating *)

Lemma getattr_setattr i field v : field ∈ UPDATABLE → getattr (setattr i field v) field = Some v.
Proof.
  unfold UPDATABLE. rewrite !elem_of_cons, elem_of_nil.
  intros H. destruct_or!; subst; done.
Qed.

Lemma getattr_set_attachments i l field : getattr (set_attachments i l) field = getattr i field.
Proof. done. Qed.

Lemma or_empty_strip_strippable value :
  strippable value → or_empty_strip value = Some (Py.strip (Json_text value)).
Proof.
  intros [text Htext]. rewrite Htext. unfold or_empty_strip in *.
  destruct value as [|[]|z| [] |s|[]|d]; cbn in *; try done.
  - by destruct (z =? 0)%Z.
  - by destruct s.
  - by destruct (bool_decide (d = ∅)).
Qed.

Lemma update_fields_untouched fields data issue issue' field :
  field ∉ fields →
  update_fields fields data issue = inr issue' →
  getattr issue' field = getattr issue field.
Proof.
  revert issue. induction fields as [|f rest IH]; intros issue Hnotin; cbn [update_fields].
  - by intros [= ->].
  - apply not_elem_of_cons in Hnotin as [Hne Hrest].
    destruct (Json_contains data f) as [[]|]; [|by apply IH|done].
    destruct (Json_getitem data f) as [value|]; [|done].
    destruct (if bool_decide _ then _ else _) as [[]|]; [done| |done].
    destruct (or_empty_strip value) as [text|]; [|done].
    intros Hloop. rewrite (IH _ Hrest Hloop).
    by apply getattr_setattr_ne.
Qed.

Lemma update_fields_effect fields d issue issue' :
  NoDup fields → (∀ f, f ∈ fields → f ∈ UPDATABLE) →
  update_fields fields (JDict d) issue = inr issue' →
  ∀ field value, field ∈ fields → d !! field = Some value →
    getattr issue' field = or_empty_strip value.
Proof.
  intros Hnd. revert issue. induction Hnd as [|f rest Hnotin Hnd IH];
    intros issue Hup; [by intros _ ? ? ?%not_elem_of_nil|].
  rewrite update_fields_dict.
  intros Hloop field value [->|Hin]%elem_of_cons Hvalue.
  - rewrite Hvalue in Hloop.
    destruct (if bool_decide _ then _ else _) as [[]|]; [done| |done].
    destruct (or_empty_strip value) as [text|]; [|done].
    rewrite (update_fields_untouched _ _ _ _ _ Hnotin Hloop).
    apply getattr_setattr, Hup. by left.
  - destruct (d !! f) as [v|].
    + destruct (if bool_decide _ then _ else _) as [[]|]; [done| |done].
      destruct (or_empty_strip v) as [text|]; [|done].
      eapply IH; eauto. intros g Hg. apply Hup. by right.
    + eapply IH; eauto. intros g Hg. apply Hup. by right.
Qed.

Lemma update_fields_ok fields d issue :
  (∀ field value, field ∈ fields → d !! field = Some value → strippable value) →
  (∀ value, d !! "status" = Some value → not_in_allowed_status value = Some false) →
  ∃ issue', update_fields fields (JDict d) issue = inr issue'.
Proof.
  intros Htext Hstatus. revert issue. induction fields as [|f rest IH]; intros issue;
    [cbn; eauto|].
  assert (∀ field value, field ∈ rest → d !! field = Some value → strippable value) as Hrest
    by (intros g v Hg; apply Htext; by right).
  rewrite update_fields_dict.
  destruct (d !! f) as [value|] eqn:Hf; [|by apply IH].
  destruct (Htext f value) as [text ->]; [by left|done|].
  case_bool_decide as Hname; [|by apply IH]. subst f.
  rewrite (Hstatus _ Hf). by apply IH.
Qed.

Lemma UPDATABLE_NoDup : NoDup UPDATABLE.
Proof. by_computation. Qed.

(** The commit goes through when what was assigned can be encoded. *)
Lemma committable_assignable d issue issue' :
  (∀ field value, field ∈ UPDATABLE → d !! field = Some value → assignable value) →
  update_fields UPDATABLE (JDict d) issue = inr issue' →
  committable (JDict d) issue' = true.
Proof.
  intros Hvalues Hloop. unfold committable. apply forallb_forall.
  intros field Hfield%list_elem_of_In. cbn [Json_contains].
  case_bool_decide as Hin; [|done]. destruct Hin as [value Hvalue].
  destruct (Hvalues _ _ Hfield Hvalue) as [Htext Hencodable].
  rewrite (update_fields_effect _ _ _ _ UPDATABLE_NoDup ltac:(done) Hloop _ _ Hfield Hvalue).
  by rewrite (or_empty_strip_strippable _ Htext).
Qed.



(** *** More on retrieving *)

Lemma prefix_contains ch p s :
  String.prefix p s = true → Py.contains ch p = true → Py.contains ch s = true.
Proof.
  revert s. induction p as [|a p IH]; intros s; [done|]. destruct s as [|b s]; [done|].
  change (String.prefix (String a p) (String b s))
    with (if ascii_dec a b then String.prefix p s else false).
  destruct (ascii_dec a b) as [->|]; [|done]. cbn [Py.contains].
  destruct (Ascii.eqb b ch); [done|]. apply IH.
Qed.

Lemma normpath_plain c : plain_name c = true → Posix.normpath c = c.
Proof.
  intros Hc. pose proof (plain_name_inv _ Hc) as (Hne & Hdot & Hdotdot & _).
  unfold Posix.normpath.
  rewrite (bool_decide_eq_false_2 _ Hne), startswith_slash, (isabs_plain _ Hc), (split_plain _ Hc).
  cbn [Posix.normpath_loop].
  rewrite (bool_decide_eq_false_2 _ Hne), (bool_decide_eq_false_2 _ Hdot),
    (bool_decide_eq_false_2 _ Hdotdot).
  cbn. by destruct c.
Qed.

Lemma safe_join_plain dir c : plain_name c = true → Posix.safe_join dir c = Some (dir ++ [c]).
Proof.
  intros Hc. pose proof (plain_name_inv _ Hc) as (Hne & _ & Hdotdot & Hslash).
  unfold Posix.safe_join.
  rewrite (bool_decide_eq_false_2 _ Hne). cbn [negb].
  rewrite (normpath_plain _ Hc), (isabs_plain _ Hc), (bool_decide_eq_false_2 _ Hdotdot),
    (os_path_join_plain _ _ Hc).
  destruct (Posix.startswith "../" c) eqn:Hpre; [|done].
  apply (prefix_contains "/") in Hpre; [congruence|done].
Qed.

Lemma os_path_isfile_entry d c :
  upload_folder_ready UPLOAD_FOLDER d → plain_name c = true →
  Posix.os_path_isfile d (Posix.os_path_join UPLOAD_FOLDER c)
  = match d !! (UPLOAD_FOLDER ++ [c]) with Some (Posix.File _) => true | _ => false end.
Proof.
  intros Hready Hc. unfold Posix.os_path_isfile. by rewrite (resolve_entry _ _ _ Hready Hc).
Qed.

(** On a name of one path component the retrieval is a lookup in the
    upload folder. *)
Lemma uploaded_file_entry w c :
  upload_folder_ready UPLOAD_FOLDER (disk w) → plain_name c = true →
  uploaded_file w c
  = (match disk w !! (UPLOAD_FOLDER ++ [c]) with
     | Some (Posix.File content) =>
         mkResponse 200 (File_content (UPLOAD_FOLDER ++ [c]) content)
     | _ => mkResponse 404 Error_page
     end, w).
Proof.
  intros Hready Hc.
  pose proof (os_path_isfile_entry _ _ Hready Hc) as Hfile.
  pose proof (resolve_entry _ _ _ Hready Hc) as Hwalk.
  rewrite (os_path_join_plain _ _ Hc) in Hfile, Hwalk.
  unfold uploaded_file, send_from_directory, Posix.open_file.
  rewrite (safe_join_plain _ _ Hc), (os_path_join_plain _ _ Hc), Hfile, Hwalk.
  by destruct (disk w !! (UPLOAD_FOLDER ++ [c])) as [[content|]|].
Qed.

(** X10. On a name of one path component the retrieval is a lookup in the
    upload folder: the request is answered 200 exactly when the folder has
    a file of that name, then with the content of that file, and 404
    otherwise; the world is left as it is. *)
Theorem uploaded_file_plain w c :
  upload_folder_ready UPLOAD_FOLDER (disk w) → plain_name c = true →
  (status_code (uploaded_file w c).1 = 200 ↔ file_entry (disk w) UPLOAD_FOLDER c)
  ∧ (∀ content, disk w !! (UPLOAD_FOLDER ++ [c]) = Some (Posix.File content) →
     uploaded_file w c
     = (mkResponse 200 (File_content (UPLOAD_FOLDER ++ [c]) content), w))
  ∧ (¬ file_entry (disk w) UPLOAD_FOLDER c →
     uploaded_file w c = (mkResponse 404 Error_page, w)).
Proof.
  intros Hready Hc. rewrite (uploaded_file_entry w c Hready Hc). unfold file_entry.
  destruct (disk w !! (UPLOAD_FOLDER ++ [c])) as [[content|]|]; cbn; split_and!.
  - split; [eauto|done].
  - by intros ? [= <-].
  - intros []. eauto.
  - split; [done|]. by intros [? ?].
  - done.
  - done.
  - split; [done|]. by intros [? ?].
  - done.
  - done.
Qed.

Lemma send_from_directory_status d directory path :
  status_code (send_from_directory d directory path) = 200
  ∨ send_from_directory d directory path = mkResponse 404 Error_page.
Proof.
  unfold send_from_directory. destruct (Posix.safe_join directory path) as [p|]; [|by right].
  destruct (Posix.os_path_isfile d p) eqn:Hfile; [|by right].
  apply os_path_isfile_open in Hfile as (q & content & _ & _ & ->). by left.
Qed.

(** *** Detaching *)

Lemma length_remove_first x l : x ∈ l → S (length (Py.remove_first x l)) = length l.
Proof.
  induction l as [|y l IH]; [by intros ?%not_elem_of_nil|]. cbn.
  case_bool_decide as Hy; [done|]. intros [->|Hin]%elem_of_cons; [done|].
  cbn. by rewrite IH.
Qed.

(** Detaching changes nothing unless the issue has the name. *)
Lemma delete_attachment_noop w issue_id name :
  (db w !! issue_id = None →
   delete_attachment w issue_id name = (mkResponse 404 Error_page, w))
  ∧ (∀ issue, db w !! issue_id = Some issue → name ∉ attachment_list issue →
     delete_attachment w issue_id name = (mkResponse 200 (Json_issue (to_dict issue)), w)).
Proof.
  unfold delete_attachment. split.
  - by intros ->.
  - intros issue -> Hnotin. by rewrite bool_decide_eq_false_2.
Qed.

Lemma remove_first_NoDup x l : NoDup l → x ∉ Py.remove_first x l.
Proof.
  induction 1 as [|y l Hy Hnd IH]; cbn; [apply not_elem_of_nil|].
  case_bool_decide as Heq; [by subst|]. apply not_elem_of_cons. split; [congruence|done].
Qed.

Lemma delete_attachment_entry w issue_id issue name :
  store_ok UPLOAD_FOLDER w →
  db w !! issue_id = Some issue →
  name ∈ attachment_list issue →
  let issue' := set_attachments issue (Py.remove_first name (attachment_list issue)) in
  let w' := mkWorld (<[issue_id := issue']> (db w))
                    (delete (UPLOAD_FOLDER ++ [name]) (disk w)) (entropy w) in
  delete_attachment w issue_id name = (mkResponse 200 (Json_issue (to_dict issue')), w')
  ∧ S (length (attachment_list issue')) = length (attachment_list issue)
  ∧ uploaded_file w' name = (mkResponse 404 Error_page, w').
Proof.
  intros (Hready & Hflat & Hrows) Hrow Hin. cbn zeta.
  assert (plain_name name = true) as Hname.
  { pose proof (Hrows _ _ Hrow) as Hplain. cbn in Hplain.
    rewrite Forall_forall in Hplain. by apply Hplain. }
  split_and!.
  - unfold delete_attachment. rewrite Hrow, bool_decide_eq_true_2 by done.
    rewrite (remove_entry _ _ _ Hready Hname).
    destruct (disk w !! (UPLOAD_FOLDER ++ [name])) as [[content|]|] eqn:Hnode.
    + done.
    + by destruct (Hflat _ _ Hnode (entry_of_snoc _ _)).
    + by rewrite (delete_id _ _ Hnode).
  - rewrite attachment_list_set. by apply length_remove_first.
  - rewrite uploaded_file_entry; [|cbn [disk]|done].
    + cbn [disk]. by rewrite lookup_delete_eq.
    + destruct (disk w !! (UPLOAD_FOLDER ++ [name])) as [[content|]|] eqn:Hnode.
      * eapply upload_folder_ready_same_dirs; [|done]. by eapply same_dirs_delete_file.
      * by destruct (Hflat _ _ Hnode (entry_of_snoc _ _)).
      * by rewrite (delete_id _ _ Hnode).
Qed.

(** X12. In a state with the store in order, detaching a name the issue
    has is answered 200 with the record after the change: the first
    occurrence of the name leaves the list, the other names keep their
    order; the file of that name is gone from the upload folder, whether or
    not it was there; asking for it afterwards is answered 404; no other
    row and no other path changes. *)
Theorem delete_attachment_removes w issue_id issue name :
  store_ok UPLOAD_FOLDER w →
  db w !! issue_id = Some issue →
  name ∈ attachment_list issue →
  let issue' := set_attachments issue (Py.remove_first name (attachment_list issue)) in
  let w' := mkWorld (<[issue_id := issue']> (db w))
                    (delete (UPLOAD_FOLDER ++ [name]) (disk w)) (entropy w) in
  delete_attachment w issue_id name = (mkResponse 200 (Json_issue (to_dict issue')), w')
  ∧ S (length (attachment_list issue')) = length (attachment_list issue)
  ∧ uploaded_file w' name = (mkResponse 404 Error_page, w')
  ∧ (∀ other, other ≠ issue_id → db w' !! other = db w !! other)
  ∧ (∀ p, p ≠ UPLOAD_FOLDER ++ [name] → disk w' !! p = disk w !! p).
Proof.
  intros Hok Hrow Hin. cbn zeta.
  destruct (delete_attachment_entry w issue_id issue name Hok Hrow Hin) as (Hrun & Hlen & H404).
  split_and!; try done.
  - intros other Hother. cbn [db]. by rewrite lookup_insert_ne.
  - intros p Hp. cbn [disk]. by rewrite lookup_delete_ne.
Qed.

(** X11. Detaching is idempotent.  In a state with the store in order
    and no name twice in the list of the issue, asking a second time for the
    same detachment gives the same answer and changes nothing more: an
    unknown id is answered 404 both times, and once the name is off the list
    the request is answered 200 with the record as it is. *)
Theorem delete_attachment_idempotent w issue_id name :
  store_ok UPLOAD_FOLDER w →
  (∀ issue, db w !! issue_id = Some issue → NoDup (attachment_list issue)) →
  delete_attachment (delete_attachment w issue_id name).2 issue_id name
  = delete_attachment w issue_id name.
Proof.
  intros Hok Hnd. destruct (db w !! issue_id) as [issue|] eqn:Hrow.
  - destruct (decide (name ∈ attachment_list issue)) as [Hin|Hnotin].
    + destruct (delete_attachment_entry w issue_id issue name Hok Hrow Hin) as [-> _].
      cbn [snd]. apply (proj2 (delete_attachment_noop _ issue_id name)).
      * cbn [db]. apply lookup_insert_eq.
      * rewrite attachment_list_set. apply remove_first_NoDup. eauto.
    + rewrite (proj2 (delete_attachment_noop w issue_id name) issue Hrow Hnotin). cbn [snd].
      by apply (proj2 (delete_attachment_noop w issue_id name)).
  - rewrite (proj1 (delete_attachment_noop w issue_id name) Hrow). cbn [snd].
    by apply (proj1 (delete_attachment_noop w issue_id name)).
Qed.

(** *** Answers *)

(** X14. A request that is refused has no effect: whenever the answer is
    a 4xx, the table, the disk and the uuid counter are what they were. *)
Theorem handle_refusal_no_effect w c :
  400 ≤ status_code (handle w c).1 < 500 → (handle w c).2 = w.
Proof.
  destruct c as [|request utcnow|issue_id request|issue_id|issue_id name|name|];
    cbn [handle]; try done.
  - unfold add_issue. repeat (case_match; [done|]).
    destruct (save_attachments _ _) as [[e|saved] w']; cbn; lia.
  - case_match; [|done]. unfold bound_id. case_match; [done|]. unfold update_issue.
    destruct (db w !! issue_id) as [issue|]; [|done].
    destruct (request_data request) as [refusal|data]; [done|].
    destruct (update_fields UPDATABLE data issue) as [early|issue']; [done|].
    destruct (files request) as [|f rest]; [case_match; [cbn; lia|done]|].
    destruct (save_attachments _ _) as [[e|saved] w']; [|case_match]; cbn; lia.
  - case_match; [|done]. unfold bound_id. case_match; [done|]. unfold delete_issue.
    destruct (db w !! issue_id) as [issue|]; [|done].
    destruct (remove_files _ _ _) as [[e|] d']; cbn; lia.
  - case_match; [|done]. case_match; [|intros _; by apply merged_route_world].
    unfold bound_id. case_match; [done|]. unfold delete_attachment.
    destruct (db w !! issue_id) as [issue|]; [|done].
    case_bool_decide; [|cbn; lia].
    destruct (Posix.os_remove _ _) as [[]|d']; cbn; lia.
  - case_match; [|intros _; by apply merged_route_world]. unfold uploaded_file. by case_match.
  - unfold download_issues. by case_match.
Qed.

(** *** More on the export *)

Lemma export_record_keys i v : (dict_set (to_dict i) "attachments" v).*1 = FIELD_NAMES.
Proof. by vm_compute. Qed.

Lemma columns_step cols keys :
  cols = FIELD_NAMES ∨ cols = [] → keys = FIELD_NAMES →
  foldl (λ cs k, if bool_decide (k ∈ cs) then cs else cs ++ [k]) cols keys = FIELD_NAMES.
Proof. intros [-> | ->] ->; by vm_compute. Qed.

Lemma columns_of_records (data : list (list (string * Value))) cols :
  Forall (λ d, d.*1 = FIELD_NAMES) data →
  cols = FIELD_NAMES ∨ (cols = [] ∧ data ≠ []) →
  foldl (λ cols d, foldl (λ cs k, if bool_decide (k ∈ cs) then cs else cs ++ [k]) cols (d.*1))
        cols data = FIELD_NAMES.
Proof.
  intros Hdata. revert cols. induction Hdata as [|d data Hd _ IH]; intros cols Hcols.
  - by destruct Hcols as [->|[_ ?]].
  - cbn [foldl]. apply IH. left. apply columns_step; [|done]. tauto.
Qed.

Lemma concat_chars s : fold_right String.append EmptyString (Py.chars s) = s.
Proof.
  induction s as [|a r IH]; [done|]. cbn [Py.chars].
  destruct (Py.chars r) as [|[|b c] cs]; cbn in *; try (by rewrite <- IH).
  destruct (Py.is_continuation b); cbn; by rewrite <- IH.
Qed.

Lemma check_string_cell_text s : cell_text s → check_string s = Some s.
Proof.
  intros [Hlen Hclean]. unfold check_string, Py.slice.
  rewrite take_ge by done. by rewrite concat_chars, Hclean.
Qed.

Lemma mapM_same {A} (f : A → option A) l :
  Forall (λ x, f x = Some x) l → mapM f l = Some l.
Proof. induction 1 as [|x l Hx _ IH]; [done|]. cbn. by rewrite Hx, IH. Qed.

Lemma bind_row_exportable i : exportable i → mapM bind_value (export_row i) = Some (export_row i).
Proof.
  intros Hrow. apply mapM_same. eapply Forall_impl; [exact Hrow|].
  intros [| | s| |]; try done. intros Hs. cbn. by rewrite check_string_cell_text.
Qed.

Lemma bind_header : mapM (λ c, bind_value (VStr c)) FIELD_NAMES = Some (VStr <$> FIELD_NAMES).
Proof. by_computation. Qed.


(** *** The table and the upload folder together *)

#[local] Abbreviation stored_names_distinct := (stored_names_distinct uuid4_hex secure_filename).
#[local] Abbreviation drawn := (drawn uuid4_hex secure_filename).
#[local] Abbreviation saved_disk := (saved_disk uuid4_hex secure_filename).
#[local] Abbreviation consistent := (consistent uuid4_hex secure_filename).
#[local] Abbreviation attached := (attached uuid4_hex secure_filename).
#[local] Abbreviation answers := (answers uuid4_hex secure_filename app_dir).

Lemma saved_disk_cons dir n f rest d :
  saved_disk dir n (f :: rest) d =
  if acceptable f
  then saved_disk dir (S n) rest (<[dir ++ [stored_name n (filename f)] := Posix.File (stream f)]> d)
  else saved_disk dir n rest d.
Proof. done. Qed.

(** What the loop has done on a working upload folder when no save
    failed, to the last file. *)
Lemma save_loop_inr_exact batch saved w out w' :
  stored_names_plain →
  upload_folder_ready UPLOAD_FOLDER (disk w) →
  no_subdirectory UPLOAD_FOLDER (disk w) →
  save_loop batch saved w = (inr out, w') →
  out = saved ++ stored_names (entropy w) batch
  ∧ w' = mkWorld (db w) (saved_disk UPLOAD_FOLDER (entropy w) batch (disk w))
                 (entropy w + length (kept batch)).
Proof.
  intros Hplain. revert saved w. induction batch as [|f rest IH]; intros saved w Hready Hflat.
  - cbn. intros [= <- <-]. rewrite app_nil_r, Nat.add_0_r. by destruct w.
  - rewrite save_loop_cons, stored_names_cons, saved_disk_cons. unfold kept. rewrite filter_cons.
    destruct (acceptable f) eqn:Hf.
    + rewrite decide_True by done.
      set (name := stored_name (entropy w) (filename f)).
      destruct (Posix.write_file _ _ _) as [e|d1] eqn:Hwrite; [done|].
      apply write_file_inr in Hwrite as (q & Hq & Hnd & ->).
      rewrite (resolve_entry _ _ name Hready (Hplain _ _)) in Hq. injection Hq as <-.
      pose proof (same_dirs_insert_file _ _ (stream f) Hnd) as Hsame.
      intros Hrun. apply IH in Hrun as [-> ->].
      * cbn [db disk entropy length]. rewrite <- app_assoc. cbn [app].
        split; [done|]. f_equal. unfold kept. lia.
      * by eapply upload_folder_ready_same_dirs.
      * cbn [disk]. by apply map_Forall_insert_2.
    + rewrite decide_False by (by intros []). by apply IH.
Qed.

(** Whatever the loop does, the files that were in the folder stay. *)
Lemma save_loop_keeps_entries batch saved w c :
  stored_names_plain →
  upload_folder_ready UPLOAD_FOLDER (disk w) →
  no_subdirectory UPLOAD_FOLDER (disk w) →
  file_entry (disk w) UPLOAD_FOLDER c →
  file_entry (disk (save_loop batch saved w).2) UPLOAD_FOLDER c.
Proof.
  intros Hplain Hready Hflat [content Hc].
  destruct (save_loop_world batch saved w Hplain Hready Hflat) as (_ & _ & _ & _ & Hframe).
  destruct (decide (disk (save_loop batch saved w).2 !! (UPLOAD_FOLDER ++ [c])
                    = disk w !! (UPLOAD_FOLDER ++ [c]))) as [Heq|Hne].
  - exists content. by rewrite Heq.
  - destruct (Hframe _ Hne) as (_ & _ & _ & content' & Hnew). by exists content'.
Qed.

Lemma stored_names_drawn n batch x :
  x ∈ stored_names n batch →
  ∃ m s, n ≤ m < n + length (kept batch) ∧ x = stored_name m s.
Proof.
  revert n. induction batch as [|f rest IH]; intros n; [by intros ?%not_elem_of_nil|].
  rewrite stored_names_cons. unfold kept. rewrite filter_cons.
  destruct (acceptable f).
  - rewrite decide_True by done. cbn [length].
    intros [->|(m & s & Hm & ->)%IH]%elem_of_cons.
    + exists n, (filename f). split; [lia|done].
    + exists m, s. split; [unfold kept in Hm; lia|done].
  - rewrite decide_False by (by intros []). apply IH.
Qed.

Lemma NoDup_stored_names n batch : stored_names_distinct → NoDup (stored_names n batch).
Proof.
  intros Hdistinct. revert n. induction batch as [|f rest IH]; intros n; [constructor|].
  rewrite stored_names_cons. destruct (acceptable f); [|apply IH].
  constructor; [|apply IH].
  intros (m & s & Hm & Heq)%stored_names_drawn. apply Hdistinct in Heq. lia.
Qed.

Lemma file_entry_insert d dir p content c :
  file_entry d dir c → file_entry (<[p := Posix.File content]> d) dir c.
Proof.
  intros [old Hold]. destruct (decide (p = dir ++ [c])) as [->|Hne].
  - exists content. apply lookup_insert_eq.
  - exists old. by rewrite lookup_insert_ne.
Qed.

Lemma saved_disk_file_entry dir n batch d c :
  file_entry (saved_disk dir n batch d) dir c ↔ file_entry d dir c ∨ c ∈ stored_names n batch.
Proof.
  revert n d. induction batch as [|f rest IH]; intros n d.
  - cbn. rewrite elem_of_nil. tauto.
  - rewrite saved_disk_cons, stored_names_cons. destruct (acceptable f); [|apply IH].
    rewrite IH, elem_of_cons. split.
    + intros [[content Hc]|Hin]; [|tauto].
      destruct (decide (c = stored_name n (filename f))) as [->|Hne]; [tauto|].
      left. exists content. rewrite lookup_insert_ne in Hc; [done|].
      intros Heq%(inj (app dir)). congruence.
    + intros [Hold|[->|Hin]]; [left; by apply file_entry_insert| |tauto].
      left. eexists. apply lookup_insert_eq.
Qed.

Lemma saved_disk_other dir n batch d p :
  (∀ name, name ∈ stored_names n batch → p ≠ dir ++ [name]) →
  saved_disk dir n batch d !! p = d !! p.
Proof.
  revert n d. induction batch as [|f rest IH]; intros n d Hp; [done|].
  rewrite saved_disk_cons. rewrite stored_names_cons in Hp.
  destruct (acceptable f); [|by apply IH].
  rewrite IH; [|intros name Hname; apply Hp; by right].
  apply lookup_insert_ne. intros <-. by eapply Hp; [left|].
Qed.

(** With names that do not repeat, every kept upload lies under its name. *)
Lemma saved_disk_content dir n batch d k f :
  stored_names_distinct →
  kept batch !! k = Some f →
  stored_names n batch !! k = Some (stored_name (n + k) (filename f))
  ∧ saved_disk dir n batch d !! (dir ++ [stored_name (n + k) (filename f)])
    = Some (Posix.File (stream f)).
Proof.
  intros Hdistinct. revert n d k. induction batch as [|g rest IH]; intros n d k; [done|].
  rewrite saved_disk_cons, stored_names_cons. unfold kept. rewrite filter_cons.
  destruct (acceptable g).
  - rewrite decide_True by done. destruct k as [|k]; cbn [lookup list_lookup].
    + intros [= ->]. rewrite Nat.add_0_r. split; [done|].
      rewrite saved_disk_other; [apply lookup_insert_eq|].
      intros name (m & s & Hm & ->)%stored_names_drawn Heq%(inj (app dir)).
      injection Heq as Heq. apply Hdistinct in Heq. lia.
    + intros Hk. rewrite Nat.add_succ_r. by apply (IH (S n)).
  - rewrite decide_False by (by intros []). apply IH.
Qed.

Lemma elem_of_table_names (table : gmap Z Issue) c :
  c ∈ table_names table ↔ ∃ k issue, table !! k = Some issue ∧ c ∈ attachment_list issue.
Proof.
  unfold table_names. rewrite list_elem_of_bind. split.
  - intros (issue & Hc & ([k j] & -> & Hin)%list_elem_of_fmap).
    exists k, j. split; [by apply elem_of_map_to_list|done].
  - intros (k & issue & Hrow & Hc). exists issue. split; [done|].
    apply list_elem_of_fmap. exists (k, issue). split; [done|]. by apply elem_of_map_to_list.
Qed.

Lemma table_names_delete (table : gmap Z Issue) k issue :
  table !! k = Some issue →
  table_names table ≡ₚ attachment_list issue ++ table_names (delete k table).
Proof.
  intros Hrow. unfold table_names. by rewrite <- (map_to_list_delete _ _ _ Hrow).
Qed.

Lemma table_names_insert (table : gmap Z Issue) k issue :
  table_names (<[k := issue]> table) ≡ₚ attachment_list issue ++ table_names (delete k table).
Proof.
  rewrite <- insert_delete_eq. unfold table_names.
  by rewrite map_to_list_insert by apply lookup_delete_eq.
Qed.

Lemma table_names_insert_fresh (table : gmap Z Issue) k issue :
  table !! k = None →
  table_names (<[k := issue]> table) ≡ₚ attachment_list issue ++ table_names table.
Proof. intros Hk. by rewrite table_names_insert, (delete_id _ _ Hk). Qed.

Lemma drawn_mono w w' f : entropy w ≤ entropy w' → drawn w f → drawn w' f.
Proof. intros Hle (n & s & Hn & ->). exists n, s. split; [lia|done]. Qed.

Lemma consistent_grow w w' batch :
  stored_names_distinct →
  consistent UPLOAD_FOLDER w → store_ok UPLOAD_FOLDER w' →
  table_names (db w') ≡ₚ stored_names (entropy w) batch ++ table_names (db w) →
  disk w' = saved_disk UPLOAD_FOLDER (entropy w) batch (disk w) →
  entropy w' = entropy w + length (kept batch) →
  consistent UPLOAD_FOLDER w'.
Proof.
  intros Hdistinct (_ & Hnd & Hdrawn & Hentries) Hok Hperm Hdisk Hentropy.
  rewrite Forall_forall in Hdrawn. split_and!; [done|..].
  - rewrite Hperm. apply NoDup_app. split_and!; [by apply NoDup_stored_names| |done].
    intros x (m & s & Hm & ->)%stored_names_drawn (n & t & Hn & Heq)%Hdrawn.
    apply Hdistinct in Heq. lia.
  - apply Forall_forall. intros x. rewrite Hperm, elem_of_app.
    intros [(m & s & Hm & ->)%stored_names_drawn|Hold].
    + exists m, s. split; [lia|done].
    + eapply drawn_mono; [|by apply Hdrawn]. lia.
  - intros c. rewrite Hdisk, saved_disk_file_entry, Hperm, elem_of_app, Hentries. tauto.
Qed.

Lemma consistent_shrink w w' gone :
  consistent UPLOAD_FOLDER w → store_ok UPLOAD_FOLDER w' →
  table_names (db w) ≡ₚ gone ++ table_names (db w') →
  (∀ f, f ∈ gone → disk w' !! (UPLOAD_FOLDER ++ [f]) = None) →
  (∀ p, (∀ f, f ∈ gone → p ≠ UPLOAD_FOLDER ++ [f]) → disk w' !! p = disk w !! p) →
  entropy w' = entropy w →
  consistent UPLOAD_FOLDER w'.
Proof.
  intros (_ & Hnd & Hdrawn & Hentries) Hok Hperm Hgone Hframe Hentropy.
  rewrite Hperm in Hnd. apply NoDup_app in Hnd as (_ & Hdisjoint & Hnd).
  rewrite Forall_forall in Hdrawn. split_and!; [done..| |].
  - apply Forall_forall. intros x Hx. eapply drawn_mono; [|apply Hdrawn].
    + lia.
    + rewrite Hperm, elem_of_app. by right.
  - intros c. split.
    + intros [content Hc].
      assert (c ∉ gone) as Hc' by (intros Hin; by rewrite (Hgone _ Hin) in Hc).
      rewrite Hframe in Hc; [|intros f Hf Heq%(inj (app _)); congruence].
      assert (c ∈ table_names (db w)) as Hin by (apply Hentries; by exists content).
      rewrite Hperm, elem_of_app in Hin. tauto.
    + intros Hin.
      assert (file_entry (disk w) UPLOAD_FOLDER c) as [content Hc].
      { apply Hentries. rewrite Hperm, elem_of_app. by right. }
      exists content. rewrite Hframe; [done|].
      intros f Hf Heq%(inj (app _)). injection Heq as ->. by apply (Hdisjoint f).
Qed.

Lemma remove_first_perm x l : x ∈ l → l ≡ₚ x :: Py.remove_first x l.
Proof.
  induction l as [|y l IH]; [by intros ?%not_elem_of_nil|]. cbn.
  case_bool_decide as Hy; [by subst|]. intros [->|Hin]%elem_of_cons; [done|].
  rewrite (IH Hin) at 1. apply Permutation_swap.
Qed.

Lemma attached_grow w w' names :
  stored_names_distinct →
  attached UPLOAD_FOLDER w → store_ok UPLOAD_FOLDER w' →
  table_names (db w') ≡ₚ names ++ table_names (db w) →
  NoDup names →
  (∀ x, x ∈ names → ∃ m s, entropy w ≤ m < entropy w' ∧ x = stored_name m s) →
  entropy w ≤ entropy w' →
  (∀ c, file_entry (disk w) UPLOAD_FOLDER c → file_entry (disk w') UPLOAD_FOLDER c) →
  (∀ x, x ∈ names → file_entry (disk w') UPLOAD_FOLDER x) →
  attached UPLOAD_FOLDER w'.
Proof.
  intros Hdistinct (_ & Hnd & Hdrawn & Hentries) Hok Hperm Hnames Hnew Hle Hkeep Hfiles.
  rewrite Forall_forall in Hdrawn. split_and!; [done|..].
  - rewrite Hperm. apply NoDup_app. split_and!; [done| |done].
    intros x (m & s & Hm & ->)%Hnew (n & t & Hn & Heq)%Hdrawn.
    apply Hdistinct in Heq. lia.
  - apply Forall_forall. intros x. rewrite Hperm, elem_of_app.
    intros [(m & s & Hm & ->)%Hnew|Hold].
    + exists m, s. split; [lia|done].
    + eapply drawn_mono; [|by apply Hdrawn]. lia.
  - intros c. rewrite Hperm, elem_of_app. intros [Hc|Hc]; [by apply Hfiles|].
    by apply Hkeep, Hentries.
Qed.

Lemma attached_shrink w w' gone :
  attached UPLOAD_FOLDER w → store_ok UPLOAD_FOLDER w' →
  table_names (db w) ≡ₚ gone ++ table_names (db w') →
  (∀ p, (∀ f, f ∈ gone → p ≠ UPLOAD_FOLDER ++ [f]) → disk w' !! p = disk w !! p) →
  entropy w' = entropy w →
  attached UPLOAD_FOLDER w'.
Proof.
  intros (_ & Hnd & Hdrawn & Hentries) Hok Hperm Hframe Hentropy.
  rewrite Hperm in Hnd. apply NoDup_app in Hnd as (_ & Hdisjoint & Hnd).
  rewrite Forall_forall in Hdrawn. split_and!; [done..| |].
  - apply Forall_forall. intros x Hx. eapply drawn_mono; [|apply Hdrawn].
    + lia.
    + rewrite Hperm, elem_of_app. by right.
  - intros c Hin.
    assert (file_entry (disk w) UPLOAD_FOLDER c) as [content Hc].
    { apply Hentries. rewrite Hperm, elem_of_app. by right. }
    exists content. rewrite Hframe; [done|].
    intros f Hf Heq%(inj (app _)). injection Heq as ->. by apply (Hdisjoint f).
Qed.

Lemma consistent_attached w : consistent UPLOAD_FOLDER w → attached UPLOAD_FOLDER w.
Proof. intros (? & ? & ? & Hentries). split_and!; [done..|]. intros c. apply Hentries. Qed.

(** What [save_attachments] leaves, whether or not a save failed: the
    files of the folder stay, and the names it returns have their files. *)
Lemma save_attachments_entries files w :
  stored_names_plain → store_ok UPLOAD_FOLDER w →
  (∀ c, file_entry (disk w) UPLOAD_FOLDER c →
        file_entry (disk (save_attachments files w).2) UPLOAD_FOLDER c)
  ∧ (∀ saved w', save_attachments files w = (inr saved, w') →
       saved = stored_names (entropy w) (take MAX_ATTACHMENTS files)
       ∧ w' = mkWorld (db w)
                (saved_disk UPLOAD_FOLDER (entropy w) (take MAX_ATTACHMENTS files) (disk w))
                (entropy w + length (kept (take MAX_ATTACHMENTS files)))).
Proof.
  intros Hplain (Hready & Hflat & _). unfold save_attachments. split.
  - intros c. by apply save_loop_keeps_entries.
  - intros saved w' Hrun. by apply save_loop_inr_exact in Hrun.
Qed.

(** The two ways a handler adds names: the steps of the invariant for a
    row that gets the names of a batch that was saved. *)
Lemma attached_saved w table batch :
  stored_names_plain → stored_names_distinct →
  attached UPLOAD_FOLDER w →
  store_ok UPLOAD_FOLDER
    (mkWorld table (saved_disk UPLOAD_FOLDER (entropy w) batch (disk w))
             (entropy w + length (kept batch))) →
  table_names table ≡ₚ stored_names (entropy w) batch ++ table_names (db w) →
  attached UPLOAD_FOLDER
    (mkWorld table (saved_disk UPLOAD_FOLDER (entropy w) batch (disk w))
             (entropy w + length (kept batch))).
Proof.
  intros Hplain Hdistinct Hatt Hok Hperm.
  eapply (attached_grow w _ (stored_names (entropy w) batch)); try done; cbn [db disk entropy].
  - by apply NoDup_stored_names.
  - intros x (m & s & Hm & ->)%stored_names_drawn. eauto.
  - lia.
  - intros c Hc. apply saved_disk_file_entry. by left.
  - intros x Hx. apply saved_disk_file_entry. by right.
Qed.

Lemma handle_attached w c :
  stored_names_plain → stored_names_distinct →
  attached UPLOAD_FOLDER w → attached UPLOAD_FOLDER (handle w c).2.
Proof.
  intros Hplain Hdistinct Hatt.
  pose proof (handle_store_ok w c Hplain (proj1 Hatt)) as Hok'.
  pose proof (proj1 Hatt) as Hok.
  assert (∀ files, attached UPLOAD_FOLDER (save_attachments files w).2) as Hfailed.
  { intros files.
    destruct (save_attachments_world files w Hplain Hok) as (Hdb & Hok1 & Hle).
    eapply (attached_grow w _ []); try done.
    - by rewrite Hdb.
    - constructor.
    - by intros x ?%not_elem_of_nil.
    - by apply save_attachments_entries.
    - by intros x ?%not_elem_of_nil. }
  destruct c as [|request utcnow|issue_id request|issue_id|issue_id name|name|];
    cbn [handle] in *; try done.
  - (* POST /issues *)
    destruct (add_issue_cases w request utcnow) as [[_ [msg ->]]|[Hvalid Hfiles]]; [done|].
    rewrite (add_issue_accepts _ _ _ Hvalid Hfiles) in *.
    specialize (Hfailed (files request)).
    destruct (save_attachments (files request) w) as [[e|saved] w1] eqn:Hsave; [done|].
    apply (proj2 (save_attachments_entries _ _ Hplain Hok)) in Hsave as [-> ->].
    cbn [snd db disk entropy] in *.
    apply attached_saved; try done.
    by rewrite table_names_insert_fresh by apply next_id_fresh.
  - (* PATCH /issues/<id> *)
    destruct (int_converter issue_id); [|done]. unfold bound_id in *.
    destruct (2 ^ 63 <=? issue_id)%Z; [done|]. unfold update_issue in *.
    destruct (db w !! issue_id) as [issue|] eqn:Hrow; [|done].
    destruct (request_data request) as [refusal|data]; [done|].
    destruct (update_fields UPDATABLE data issue) as [early|issue'] eqn:Hloop; [done|].
    apply update_fields_frame in Hloop as (_ & Hatts & _).
    assert (attachment_list issue' = attachment_list issue) as Heq
      by (unfold attachment_list; by rewrite Hatts).
    destruct (files request) as [|f rest] eqn:Hfiles.
    + destruct (committable data issue'); [|done].
      eapply (attached_shrink w _ []); try done; cbn [snd db disk entropy].
      by rewrite table_names_insert, Heq, <- (table_names_delete _ _ _ Hrow).
    + specialize (Hfailed (f :: rest)).
      destruct (save_attachments (f :: rest) w) as [[e|saved] w1] eqn:Hsave; [done|].
      destruct (committable data _); [|done].
      apply (proj2 (save_attachments_entries _ _ Hplain Hok)) in Hsave as [-> ->].
      cbn [snd db disk entropy] in *.
      apply attached_saved; try done.
      rewrite table_names_insert, attachment_list_set, Heq.
      rewrite (table_names_delete _ _ _ Hrow), <- app_assoc.
      apply Permutation_app_swap_app.
  - (* DELETE /issues/<id> *)
    destruct (int_converter issue_id); [|done]. unfold bound_id in *.
    destruct (2 ^ 63 <=? issue_id)%Z; [done|]. unfold delete_issue in *.
    destruct (db w !! issue_id) as [issue|] eqn:Hrow; [|done].
    destruct (remove_files_entries UPLOAD_FOLDER (attachment_list issue) (disk w))
      as (d' & Hrm & Hgone & Hframe); [apply Hok|by eapply store_ok_row|].
    rewrite Hrm in *. cbn [snd] in *.
    eapply (attached_shrink w _ (attachment_list issue)); try done.
    cbn [db]. by apply table_names_delete.
  - (* DELETE /issues/<id>/attachments/<filename> *)
    destruct (int_converter issue_id); [|done].
    destruct (string_converter name); [|by apply merged_route_world].
    unfold bound_id in *. destruct (2 ^ 63 <=? issue_id)%Z; [done|].
    destruct (db w !! issue_id) as [issue|] eqn:Hrow.
    2:{ by rewrite (proj1 (delete_attachment_noop w issue_id name) Hrow). }
    destruct (decide (name ∈ attachment_list issue)) as [Hin|Hnotin].
    2:{ by rewrite (proj2 (delete_attachment_noop w issue_id name) issue Hrow Hnotin). }
    destruct (delete_attachment_entry w issue_id issue name Hok Hrow Hin) as [Hrun _].
    rewrite Hrun in *. cbn [snd] in *.
    eapply (attached_shrink w _ [name]); try done; cbn [db disk].
    + rewrite table_names_insert, attachment_list_set, (table_names_delete _ _ _ Hrow).
      by rewrite (remove_first_perm name (attachment_list issue) Hin) at 1.
    + intros p Hp. apply lookup_delete_ne. intros <-. eapply Hp; [|done]. by left.
  - (* GET /uploads/<path> *)
    destruct (path_converter name); [|by apply merged_route_world].
    unfold uploaded_file in *. by case_match.
  - (* GET /issues/download *)
    unfold download_issues in *. by case_match.
Qed.

Lemma run_attached calls w :
  stored_names_plain → stored_names_distinct →
  attached UPLOAD_FOLDER w → attached UPLOAD_FOLDER (run w calls).
Proof.
  intros Hplain Hdistinct. revert w. induction calls as [|c calls IH]; intros w Hok; [done|].
  apply IH. by apply handle_attached.
Qed.

(** As long as no request ends in an uncaught error, the folder holds no
    other file than the listed ones. *)
Lemma handle_consistent w c :
  stored_names_plain → stored_names_distinct →
  consistent UPLOAD_FOLDER w →
  status_code (handle w c).1 ≠ 500 →
  consistent UPLOAD_FOLDER (handle w c).2.
Proof.
  intros Hplain Hdistinct Hcons.
  pose proof (handle_store_ok w c Hplain (proj1 Hcons)) as Hok'.
  destruct Hcons as (Hok & Hrest). pose proof (conj Hok Hrest) as Hcons.
  destruct c as [|request utcnow|issue_id request|issue_id|issue_id name|name|];
    cbn [handle] in *; try done.
  - (* POST /issues *)
    destruct (add_issue_cases w request utcnow) as [[_ [msg ->]]|[Hvalid Hfiles]]; [done|].
    rewrite (add_issue_accepts _ _ _ Hvalid Hfiles) in *.
    destruct (save_attachments (files request) w) as [[e|saved] w1] eqn:Hsave; [done|].
    apply (proj2 (save_attachments_entries _ _ Hplain Hok)) in Hsave as [-> ->].
    cbn [snd db disk entropy] in *. intros _.
    eapply (consistent_grow w _ (take MAX_ATTACHMENTS (files request))); try done.
    cbn [db]. by rewrite table_names_insert_fresh by apply next_id_fresh.
  - (* PATCH /issues/<id> *)
    destruct (int_converter issue_id); [|done]. unfold bound_id in *.
    destruct (2 ^ 63 <=? issue_id)%Z; [done|]. unfold update_issue in *.
    destruct (db w !! issue_id) as [issue|] eqn:Hrow; [|done].
    destruct (request_data request) as [refusal|data]; [done|].
    destruct (update_fields UPDATABLE data issue) as [early|issue'] eqn:Hloop; [done|].
    apply update_fields_frame in Hloop as (_ & Hatt & _).
    assert (attachment_list issue' = attachment_list issue) as Heq
      by (unfold attachment_list; by rewrite Hatt).
    destruct (files request) as [|f rest] eqn:Hfiles.
    + destruct (committable data issue'); [|done]. intros _.
      eapply (consistent_grow w _ []); try done.
      cbn [snd db]. change (stored_names (entropy w) []) with (@nil string).
      by rewrite table_names_insert, Heq, <- (table_names_delete _ _ _ Hrow).
    + destruct (save_attachments (f :: rest) w) as [[e|saved] w1] eqn:Hsave; [done|].
      destruct (committable data _); [|done]. intros _.
      apply (proj2 (save_attachments_entries _ _ Hplain Hok)) in Hsave as [-> ->].
      cbn [snd db disk entropy] in *.
      eapply (consistent_grow w _ (take MAX_ATTACHMENTS (f :: rest))); try done.
      cbn [db]. rewrite table_names_insert, attachment_list_set, Heq.
      rewrite (table_names_delete _ _ _ Hrow), <- app_assoc.
      apply Permutation_app_swap_app.
  - (* DELETE /issues/<id> *)
    destruct (int_converter issue_id); [|done]. unfold bound_id in *.
    destruct (2 ^ 63 <=? issue_id)%Z; [done|]. unfold delete_issue in *.
    destruct (db w !! issue_id) as [issue|] eqn:Hrow; [|done].
    destruct (remove_files_entries UPLOAD_FOLDER (attachment_list issue) (disk w))
      as (d' & Hrm & Hgone & Hframe); [apply Hok|by eapply store_ok_row|].
    rewrite Hrm in *. cbn [snd] in *. intros _.
    eapply (consistent_shrink w _ (attachment_list issue)); try done.
    cbn [db]. by apply table_names_delete.
  - (* DELETE /issues/<id>/attachments/<filename> *)
    destruct (int_converter issue_id); [|done].
    destruct (string_converter name); [|intros _; by apply merged_route_world].
    unfold bound_id in *. destruct (2 ^ 63 <=? issue_id)%Z; [done|].
    destruct (db w !! issue_id) as [issue|] eqn:Hrow.
    2:{ by rewrite (proj1 (delete_attachment_noop w issue_id name) Hrow). }
    destruct (decide (name ∈ attachment_list issue)) as [Hin|Hnotin].
    2:{ by rewrite (proj2 (delete_attachment_noop w issue_id name) issue Hrow Hnotin). }
    destruct (delete_attachment_entry w issue_id issue name (proj1 Hcons) Hrow Hin) as [Hrun _].
    rewrite Hrun in *. cbn [snd] in *. intros _.
    eapply (consistent_shrink w _ [name]); try done; cbn [db disk].
    + rewrite table_names_insert, attachment_list_set, (table_names_delete _ _ _ Hrow).
      by rewrite (remove_first_perm name (attachment_list issue) Hin) at 1.
    + intros f ->%list_elem_of_singleton. apply lookup_delete_eq.
    + intros p Hp. apply lookup_delete_ne. intros <-. eapply Hp; [|done]. by left.
  - (* GET /uploads/<path> *)
    destruct (path_converter name); [|intros _; by apply merged_route_world].
    unfold uploaded_file in *. by case_match.
  - (* GET /issues/download *)
    unfold download_issues in *. by case_match.
Qed.

Lemma fresh_world_consistent :
  Forall (λ c, plain_name c = true) app_dir → consistent UPLOAD_FOLDER (fresh_world app_dir).
Proof.
  intros Happ. split_and!.
  - by apply fresh_world_store_ok.
  - cbn. unfold table_names. rewrite map_to_list_empty. constructor.
  - cbn. unfold table_names. by rewrite map_to_list_empty.
  - intros c. cbn [fresh_world db disk]. unfold table_names. rewrite map_to_list_empty. cbn.
    rewrite elem_of_nil. split; [|done]. intros [content Hc].
    by apply fresh_disk_lookup in Hc as [? _].
Qed.

Lemma run_consistent calls w :
  stored_names_plain → stored_names_distinct →
  consistent UPLOAD_FOLDER w →
  Forall (λ r, status_code r ≠ 500) (answers w calls) →
  consistent UPLOAD_FOLDER (run w calls).
Proof.
  intros Hplain Hdistinct. revert w.
  induction calls as [|c calls IH]; intros w Hok Hanswers; [done|].
  cbn [answers] in Hanswers. apply Forall_cons in Hanswers as [Hc Hrest].
  apply IH; [|done]. by apply handle_consistent.
Qed.

(** X16. From a fresh install on, the table never runs ahead of the
    upload folder (names that do not repeat from draw to draw being
    given): in every state the API can reach, no name is listed twice, in
    one issue or in two, and every listed name is a file of the upload
    folder; and as long as no request has ended in an uncaught error (500),
    the folder holds no other file than the listed ones.  (A create or an
    update whose save fails half-way leaves the files it had saved.) *)
Theorem reachable_table_matches_folder calls :
  Forall (λ c, plain_name c = true) app_dir →
  stored_names_plain → stored_names_distinct →
  let w := run (fresh_world app_dir) calls in
  NoDup (table_names (db w))
  ∧ (∀ k issue c, db w !! k = Some issue → c ∈ attachment_list issue →
       file_entry (disk w) UPLOAD_FOLDER c)
  ∧ (Forall (λ r, status_code r ≠ 500) (answers (fresh_world app_dir) calls) →
     ∀ c, file_entry (disk w) UPLOAD_FOLDER c →
          ∃ k issue, db w !! k = Some issue ∧ c ∈ attachment_list issue).
Proof.
  intros Happ Hplain Hdistinct w.
  destruct (run_attached calls (fresh_world app_dir) Hplain Hdistinct
              (consistent_attached _ (fresh_world_consistent Happ)))
    as (_ & Hnd & _ & Hentries).
  split_and!; [done| |].
  - intros k issue c Hrow Hc. apply Hentries, elem_of_table_names. eauto.
  - intros Hanswers c Hc.
    destruct (run_consistent calls (fresh_world app_dir) Hplain Hdistinct
                (fresh_world_consistent Happ) Hanswers) as (_ & _ & _ & Hexact).
    by apply elem_of_table_names, Hexact.
Qed.

Lemma attached_served w k issue f :
  attached UPLOAD_FOLDER w →
  db w !! k = Some issue → f ∈ attachment_list issue →
  ∃ content,
    disk w !! (UPLOAD_FOLDER ++ [f]) = Some (Posix.File content)
    ∧ uploaded_file w f = (mkResponse 200 (File_content (UPLOAD_FOLDER ++ [f]) content), w).
Proof.
  intros ((Hready & _ & Hrows) & _ & _ & Hentries) Hrow Hf.
  assert (plain_name f = true) as Hplain.
  { pose proof (Hrows _ _ Hrow) as Hall. cbn in Hall. rewrite Forall_forall in Hall. eauto. }
  destruct (Hentries f) as [content Hc]; [apply elem_of_table_names; eauto|].
  exists content. split; [done|]. by rewrite (uploaded_file_entry w f Hready Hplain), Hc.
Qed.

(** X17. From a fresh install on, every attachment an issue lists can be
    retrieved: in every state the API can reach, asking for a listed name
    is answered 200 with the file of that name in the upload folder. *)
Theorem reachable_attachments_served calls k issue f :
  Forall (λ c, plain_name c = true) app_dir →
  stored_names_plain → stored_names_distinct →
  let w := run (fresh_world app_dir) calls in
  db w !! k = Some issue → f ∈ attachment_list issue →
  ∃ content,
    uploaded_file w f = (mkResponse 200 (File_content (UPLOAD_FOLDER ++ [f]) content), w).
Proof.
  intros Happ Hplain Hdistinct w Hrow Hf.
  destruct (attached_served w k issue f) as (content & _ & Hrun); [|done..|eauto].
  by apply run_attached, consistent_attached, fresh_world_consistent.
Qed.


(** X19. Deleting an issue spares the files of the others: in a state
    where the table and the upload folder agree, after the delete every
    other issue is still in the table as it was, and each of its
    attachments is answered 200 with the same content as before. *)
Theorem delete_issue_spares_others w issue_id issue other row f :
  consistent UPLOAD_FOLDER w →
  db w !! issue_id = Some issue →
  other ≠ issue_id → db w !! other = Some row → f ∈ attachment_list row →
  let w' := (delete_issue w issue_id).2 in
  db w' !! other = Some row
  ∧ ∃ content,
      uploaded_file w f = (mkResponse 200 (File_content (UPLOAD_FOLDER ++ [f]) content), w)
      ∧ uploaded_file w' f
        = (mkResponse 200 (File_content (UPLOAD_FOLDER ++ [f]) content), w').
Proof.
  intros Hcons Hrow Hother Hrow' Hf w'.
  destruct (attached_served w other row f (consistent_attached _ Hcons) Hrow' Hf)
    as (content & Hfile & Hrun).
  pose proof Hcons as ((Hready & Hflat & Hrows) & Hnd & _).
  destruct (delete_issue_entries w issue_id issue Hrow Hready) as (w1 & Hdel & Hdb & _ & Hframe).
  { by eapply store_ok_row. }
  subst w'. rewrite Hdel. cbn [snd].
  assert (db w1 !! other = Some row) as Hkept by (by rewrite Hdb, lookup_delete_ne).
  split; [done|]. exists content. split; [done|].
  assert (f ∉ attachment_list issue) as Hnotin.
  { rewrite (table_names_delete _ _ _ Hrow) in Hnd. apply NoDup_app in Hnd as (_ & Hdisjoint & _).
    intros Hin. apply (Hdisjoint f Hin). apply elem_of_table_names.
    exists other, row. by rewrite lookup_delete_ne. }
  assert (plain_name f = true) as Hplain.
  { pose proof (Hrows _ _ Hrow') as Hall. cbn in Hall. rewrite Forall_forall in Hall. eauto. }
  rewrite uploaded_file_entry; [|..|done].
  - rewrite Hframe, Hfile; [done|]. intros g Hg Heq%(inj (app _)). congruence.
  - unfold delete_issue in Hdel. rewrite Hrow in Hdel.
    destruct (remove_files _ _ _) as [err d'] eqn:Hrm.
    apply remove_files_spec in Hrm as (Hsame & _).
    destruct err; [done|]. injection Hdel as <-. cbn [disk].
    by eapply upload_folder_ready_same_dirs.
Qed.

(** X20. A deleted issue is gone for every handler: in a state with the
    store in order and the rows under their ids, after the delete of an
    existing issue a second delete, an update and a detachment under the
    same id are answered 404 and change nothing, and the listing shows one
    issue less, none of them with that id. *)
Theorem delete_issue_then_unknown w issue_id issue request name :
  store_ok UPLOAD_FOLDER w → keys_are_ids w →
  db w !! issue_id = Some issue →
  let w' := (delete_issue w issue_id).2 in
  delete_issue w' issue_id = (mkResponse 404 Error_page, w')
  ∧ update_issue w' issue_id request = (mkResponse 404 Error_page, w')
  ∧ delete_attachment w' issue_id name = (mkResponse 404 Error_page, w')
  ∧ ∃ issues,
      get_issues w' = (mkResponse 200 (Json_issues (to_dict <$> issues)), w')
      ∧ Forall (λ i, id i ≠ issue_id) issues
      ∧ S (length issues) = size (db w).
Proof.
  intros Hok Hkeys Hrow w'.
  destruct (delete_issue_entries w issue_id issue Hrow) as (w1 & Hdel & Hdb & _);
    [apply Hok|by eapply store_ok_row|].
  subst w'. rewrite Hdel. cbn [snd].
  assert (db w1 !! issue_id = None) as Hgone by (rewrite Hdb; apply lookup_delete_eq).
  split_and!.
  - unfold delete_issue. by rewrite Hgone.
  - unfold update_issue. by rewrite Hgone.
  - by apply (proj1 (delete_attachment_noop w1 issue_id name)).
  - exists (all_by_id_desc (db w1)). split_and!; [done| |].
    + apply Forall_forall. intros i [k Hk]%elem_of_all_by_id_desc.
      rewrite Hdb in Hk. apply lookup_delete_Some in Hk as [Hne Hk].
      rewrite (Hkeys _ _ Hk). congruence.
    + rewrite all_by_id_desc_perm, length_fmap, length_map_to_list, Hdb.
      rewrite map_size_delete_Some by eauto.
      assert (size (db w) ≠ 0); [|lia]. apply map_size_ne_0_lookup. eauto.
Qed.

(** *** A save that fails *)

Lemma save_loop_too_long batch saved w :
  stored_names_plain →
  upload_folder_ready UPLOAD_FOLDER (disk w) →
  no_subdirectory UPLOAD_FOLDER (disk w) →
  ¬ names_fit (entropy w) batch →
  ∃ e, (save_loop batch saved w).1 = inl e.
Proof.
  intros Hplain. revert saved w. induction batch as [|f rest IH]; intros saved w Hready Hflat Hno.
  - destruct Hno. apply names_fit_nil.
  - rewrite names_fit_cons in Hno. rewrite save_loop_cons.
    destruct (acceptable f); [|by apply IH].
    set (name := stored_name (entropy w) (filename f)) in *.
    destruct (decide (String.length name ≤ Posix.NAME_MAX)) as [Hshort|Hlong].
    + assert (disk w !! (UPLOAD_FOLDER ++ [name]) ≠ Some Posix.Dir) as Hnode.
      { intros Hdir. by apply (Hflat _ _ Hdir (entry_of_snoc _ _)). }
      rewrite (write_entry _ _ name _ Hready (Hplain _ _) Hnode Hshort).
      assert (Posix.is_dir (disk w) (UPLOAD_FOLDER ++ [name]) = false) as Hnd.
      { rewrite is_dir_snoc. by destruct (disk w !! _) as [[]|]. }
      apply IH; cbn [disk entropy].
      * eapply upload_folder_ready_same_dirs; [|done]. by apply same_dirs_insert_file.
      * by apply map_Forall_insert_2.
      * tauto.
    + rewrite (write_too_long _ _ name _ Hready (Hplain _ _)) by lia. eauto.
Qed.


End Handlers.

(** ** The deployment of the examples *)

Lemma contains_app c a b : Py.contains c (a +:+ b) = Py.contains c a || Py.contains c b.
Proof.
  induction a as [|x a IH]; [done|].
  change (String x a +:+ b) with (String x (a +:+ b)). cbn [Py.contains].
  destruct (Ascii.eqb x c); [done|apply IH].
Qed.

Lemma demo_uuid4_hex_no_slash n : Py.contains "/" (demo_uuid4_hex n) = false.
Proof. induction n as [|n IH]; [done|]. cbn. apply IH. Qed.

Lemma demo_secure_filename_no_slash s : Py.contains "/" (demo_secure_filename s) = false.
Proof.
  induction s as [|a s IH]; [done|]. cbn.
  destruct (filename_ascii a) eqn:Ha; [|done]. cbn. rewrite IH.
  destruct (Ascii.eqb a "/") eqn:Hs; [|done]. apply Ascii.eqb_eq in Hs. by subst a.
Qed.

Lemma demo_stored_names_plain : stored_names_plain demo_uuid4_hex demo_secure_filename.
Proof.
  intros n original. apply plain_name_intro.
  - unfold stored_name. by destruct n.
  - unfold stored_name. by destruct n.
  - unfold stored_name. destruct n as [|[|n]]; try done.
  - unfold stored_name.
    by rewrite !contains_app, demo_uuid4_hex_no_slash, demo_secure_filename_no_slash.
Qed.

Lemma demo_app_dir_plain : Forall (λ c, plain_name c = true) demo_app_dir.
Proof. by repeat constructor. Qed.

Lemma demo_world_store_ok : store_ok demo_upload_folder demo_world.
Proof. apply fresh_world_store_ok, demo_app_dir_plain. Qed.

Lemma demo_world_1_reached :
  run demo_uuid4_hex demo_secure_filename demo_app_dir demo_world
      [POST_issues (mkRequest demo_fields NotJson [png "a"; mkFile "b.txt" "x"; png "c"]) 100]
  = demo_world_1.
Proof. by_computation. Qed.

Lemma demo_world_1_store_ok : store_ok demo_upload_folder demo_world_1.
Proof.
  rewrite <- demo_world_1_reached.
  apply reachable_store_ok; [apply demo_app_dir_plain|apply demo_stored_names_plain].
Qed.

(** ** The export *)

(** C8, the code on an empty table.  [pd.DataFrame([])] has no column, so
    the sheet "Issues" is written without a single cell: there is no header
    row.  (With one row or more the header is there, see below.) *)
Theorem download_issues_empty_table d n :
  download_issues (mkWorld ∅ d n)
  = (mkResponse 200 (Xlsx "issues.xlsx" [("Issues", [])]), mkWorld ∅ d n).
Proof.
  unfold download_issues, all_by_id_desc. cbn [db]. by rewrite map_to_list_empty.
Qed.

Example download_issues_one_row :
  ∃ cells,
    (download_issues demo_world_1).1 = mkResponse 200 (Xlsx "issues.xlsx" [("Issues", cells)])
    ∧ take 11 cells
      = imap (λ j c, (0, j, VStr c))
             ["id"; "track"; "summary"; "description"; "attachments"; "raised_by";
              "assignee"; "status"; "scenario_id"; "step_no"; "created_at"]
    ∧ cells !! 15 = Some (1, 4, VStr "0_a.png, a0_c.png").
Proof. eexists. split_and!; by_computation. Qed.

(** ** The handlers on concrete requests *)

(** C1, the code on a failing input.  An issue is created with track "AP";
    an update whose body names the track "XYZ" is answered 200 and the row
    holds "XYZ": [update_issue] checks the status against its allowed set
    and nothing else. *)
Theorem update_issue_stores_any_track :
  let patch := mkRequest ∅ (Parsed (JDict {[ "track" := JStr "XYZ" ]})) [] in
  let w1 := run demo_uuid4_hex demo_secure_filename demo_app_dir demo_world
              [POST_issues (mkRequest demo_fields NotJson []) 100] in
  let w2 := run demo_uuid4_hex demo_secure_filename demo_app_dir demo_world
              [POST_issues (mkRequest demo_fields NotJson []) 100; PATCH_issue 1 patch] in
  tracks_allowed w1
  ∧ status_code (update_issue demo_uuid4_hex demo_secure_filename demo_app_dir w1 1 patch).1 = 200
  ∧ (track <$> db w2 !! 1%Z) = Some "XYZ"
  ∧ ("XYZ" ∉ ALLOWED_TRACKS)
  ∧ ¬ tracks_allowed w2.
Proof.
  cbn zeta. split_and!.
  - apply handle_tracks_allowed; [done|]. apply map_Forall_empty.
  - by_computation.
  - by_computation.
  - by_computation.
  - intros Hall. eapply (map_Forall_lookup_1 _ _ 1%Z) in Hall; [|by_computation].
    revert Hall. by_computation.
Qed.

(** C4, the code on a failing input.  The body
    [{"assignee": 5, "status": "InProgress"}] carries a status outside
    ALLOWED_STATUS, but the loop comes to "assignee" first and strips a
    number: AttributeError, and the request ends in 500 instead of 400
    "Invalid status".  A status that cannot be hashed (a list) ends in 500
    as well.  Nothing is changed.  The same status next to a text is
    refused with 400, which is the check the handler means to make. *)
Theorem update_issue_number_before_status :
  let body d := mkRequest ∅ (Parsed (JDict d)) [] in
  let update := update_issue demo_uuid4_hex demo_secure_filename demo_app_dir demo_world_1 1 in
  db demo_world_1 !! 1%Z = Some demo_issue
  ∧ ("InProgress" ∉ ALLOWED_STATUS)
  ∧ update (body {[ "assignee" := JInt 5; "status" := JStr "InProgress" ]})
    = (mkResponse 500 Error_page, demo_world_1)
  ∧ update (body {[ "status" := JList [JStr "InProgress"] ]})
    = (mkResponse 500 Error_page, demo_world_1)
  ∧ update (body {[ "assignee" := JStr "5"; "status" := JStr "InProgress" ]})
    = (mkResponse 400 (Json_error "Invalid status"), demo_world_1).
Proof. cbn zeta. split_and!; by_computation. Qed.

(** White space and length are those of Python: a no-break space is
    trimmed, and [len] counts characters, not bytes. *)
Example add_issue_unicode_text :
  let nbsp := Py.bytes [194; 160] in
  let e_acute := Py.bytes [195; 169] in
  let long := fold_right String.append "" (replicate 126 e_acute) in
  let create fields :=
    add_issue demo_uuid4_hex demo_secure_filename demo_app_dir demo_world
              (mkRequest (text_form fields) NotJson []) 100 in
  Py.strip ("AP" +:+ nbsp) = "AP"
  ∧ status_code (create [("track", "AP" +:+ nbsp); ("summary", "Login fails")]).1 = 201
  ∧ (track <$> db (create [("track", "AP" +:+ nbsp); ("summary", "Login fails")]).2 !! 1%Z)
    = Some "AP"
  ∧ create [("track", "AP"); ("summary", nbsp)]
    = (mkResponse 400 (Json_error "Summary is required and must be ≤ 250 chars"), demo_world)
  ∧ String.length long = 252 ∧ Py.len long = 126
  ∧ status_code (create [("track", "AP"); ("summary", long)]).1 = 201.
Proof. cbn zeta. split_and!; by_computation. Qed.

(** A stored name above NAME_MAX makes [f.save] raise: the request ends
    in 500 and no row is added, but the file saved before it stays. *)
Example add_issue_long_file_name :
  let long := fold_right String.append ".png" (replicate 254 "x") in
  let result :=
    add_issue demo_uuid4_hex demo_secure_filename demo_app_dir demo_world
              (mkRequest demo_fields NotJson [png "a"; mkFile long "PNG"]) 100 in
  result.1 = mkResponse 500 Error_page
  ∧ db result.2 = ∅
  ∧ disk result.2 !! (demo_upload_folder ++ ["0_a.png"]) = Some (Posix.File "PNG").
Proof. cbn zeta. split_and!; by_computation. Qed.

(** What the router does before a handler runs: an id SQLite cannot hold
    ends in 500, a name that starts with a slash is sent to the merged URL
    (308), and what no route matches is 404. *)
Example handle_routing :
  let handle := handle demo_uuid4_hex demo_secure_filename demo_app_dir demo_world_1 in
  (handle (DELETE_issue (2 ^ 63))).1 = mkResponse 500 Error_page
  ∧ (handle (DELETE_issue (2 ^ 63 - 1))).1 = mkResponse 404 Error_page
  ∧ (handle (DELETE_issue (-1))).1 = mkResponse 404 Error_page
  ∧ (handle (GET_upload "/etc/passwd")).1 = mkResponse 308 Redirect_page
  ∧ (handle (GET_upload "")).1 = mkResponse 404 Error_page
  ∧ (handle (DELETE_attachment 1 "/0_a.png")).1 = mkResponse 308 Redirect_page
  ∧ (handle (DELETE_attachment 1 "a/b")).1 = mkResponse 404 Error_page.
Proof. cbn zeta. split_and!; by_computation. Qed.



(** C9 fails as stated: a name of two segments is taken as a nested path
    and the file in the subdirectory is served; a name with a dot segment
    is served as the file it normalises to. *)
Lemma uploaded_file_nested_path_served :
  Py.split "/" "2024/a.png" = ["2024"; "a.png"]
  ∧ (uploaded_file demo_app_dir nested_world "2024/a.png").1
    = mkResponse 200 (File_content (demo_upload_folder ++ ["2024"; "a.png"]) "PNG")
  ∧ (uploaded_file demo_app_dir demo_world_1 "./0_a.png").1
    = mkResponse 200 (File_content (demo_upload_folder ++ ["0_a.png"]) "PNG").
Proof. split_and!; by_computation. Qed.

(** ** The theorems at work *)





Lemma update_issue_frame_witness :
  let request := mkRequest (text_form [("assignee", " bob ")]) NotJson [] in
  let w' := (update_issue demo_uuid4_hex demo_secure_filename demo_app_dir demo_world_1 1
               request).2 in
  ∃ issue',
    db w' !! 1%Z = Some issue'
    ∧ (∀ field, supplied request field = false → getattr issue' field = getattr demo_issue field)
    ∧ attachments issue' = attachments demo_issue
    ∧ created_at issue' = created_at demo_issue
    ∧ id issue' = id demo_issue
    ∧ (∀ other, other ≠ 1%Z → db w' !! other = db demo_world_1 !! other)
    ∧ disk w' = disk demo_world_1.
Proof.
  exact (update_issue_frame demo_uuid4_hex demo_secure_filename demo_app_dir demo_world_1 1
           demo_issue (mkRequest (text_form [("assignee", " bob ")]) NotJson [])
           ltac:(by_computation) eq_refl).
Defined.

Example update_only_assignee :
  update_issue demo_uuid4_hex demo_secure_filename demo_app_dir demo_world_1 1
               (mkRequest (text_form [("assignee", " bob ")]) NotJson [])
  = (mkResponse 200 (Json_issue (to_dict (setattr demo_issue "assignee" "bob"))),
     mkWorld {[ 1%Z := setattr demo_issue "assignee" "bob" ]} (disk demo_world_1) 2).
Proof. by_computation. Qed.

Lemma delete_issue_removes_files_witness :
  ∃ w',
    delete_issue demo_app_dir demo_world_1 1
    = (mkResponse 200 (Json_message "Issue deleted"), w')
    ∧ db w' = ∅
    ∧ uploaded_file demo_app_dir w' "0_a.png" = (mkResponse 404 Error_page, w')
    ∧ uploaded_file demo_app_dir w' "a0_c.png" = (mkResponse 404 Error_page, w').
Proof.
  destruct (delete_issue_removes_files demo_app_dir demo_world_1 1 demo_issue
              demo_world_1_store_ok ltac:(by_computation))
    as (w' & Hrun & Hdb & Hgone & _).
  exists w'. split; [exact Hrun|]. split; [rewrite Hdb; by_computation|].
  split; [apply (Hgone "0_a.png")|apply (Hgone "a0_c.png")]; by_computation.
Defined.

Lemma uploaded_file_confined_witness :
  Forall (λ c, plain_name c = true) demo_app_dir
  ∧ (uploaded_file demo_app_dir demo_world_src "../app.py").2 = demo_world_src
  ∧ ((uploaded_file demo_app_dir demo_world_src "../app.py").1 = mkResponse 404 Error_page
     ∨ ∃ names content,
         names ≠ [] ∧ Forall (λ c, plain_name c = true) names
         ∧ disk demo_world_src !! (demo_upload_folder ++ names) = Some (Posix.File content)
         ∧ (uploaded_file demo_app_dir demo_world_src "../app.py").1
           = mkResponse 200 (File_content (demo_upload_folder ++ names) content))
  ∧ (Posix.os_path_isfile (disk demo_world_src)
       (Posix.os_path_join demo_upload_folder "../app.py") = false →
     (uploaded_file demo_app_dir demo_world_src "../app.py").1 = mkResponse 404 Error_page).
Proof.
  split; [exact demo_app_dir_plain|].
  exact (uploaded_file_confined demo_app_dir demo_world_src "../app.py" demo_app_dir_plain).
Defined.

(** The name leads to a file, the source of the application, and the first
    test of the handler passes; [send_from_directory] refuses it. *)
Example uploaded_file_traversal_refused :
  Posix.os_path_isfile (disk demo_world_src) (Posix.os_path_join demo_upload_folder "../app.py")
  = true
  ∧ (uploaded_file demo_app_dir demo_world_src "../app.py").1 = mkResponse 404 Error_page
  ∧ (uploaded_file demo_app_dir demo_world_src "a/../../app.py").1 = mkResponse 404 Error_page
  ∧ (uploaded_file demo_app_dir demo_world_src "/srv/app/app.py").1 = mkResponse 404 Error_page.
Proof. split_and!; by_computation. Qed.

Lemma save_attachments_first_five_witness :
  ∃ saved w',
    save_attachments demo_uuid4_hex demo_secure_filename demo_app_dir nine_files demo_world
    = (inr saved, w')
    ∧ length (kept nine_files) = 7
    ∧ Exists (λ f, acceptable f = false) (take MAX_ATTACHMENTS nine_files)
    ∧ length saved < MAX_ATTACHMENTS.
Proof.
  assert (Exists (λ f, acceptable f = false) (take MAX_ATTACHMENTS nine_files)) as Hskipped.
  { apply Exists_cons_tl, Exists_cons_hd. by_computation. }
  eexists _, _. split; [by_computation|]. split; [by_computation|]. split; [exact Hskipped|].
  eapply (proj2 (save_attachments_first_five demo_uuid4_hex demo_secure_filename demo_app_dir
                   nine_files demo_world)); [by_computation|exact Hskipped].
Defined.

(** ** Further properties of the helpers *)

(** *** [allowed_file] *)

Lemma rsplit1_None c s : Py.rsplit1 c s = None ↔ Py.contains c s = false.
Proof.
  induction s as [|a r IH]; cbn; [done|].
  destruct (Py.rsplit1 c r) as [tl|] eqn:Hr.
  - split; [done|]. destruct (Ascii.eqb a c); [done|]. intros H%IH. done.
  - destruct (Ascii.eqb a c); [done|]. split; [intros _; by apply IH|done].
Qed.

Lemma rsplit1_Some c s ext :
  Py.rsplit1 c s = Some ext ↔
  ∃ base, s = base +:+ String c ext ∧ Py.contains c ext = false.
Proof.
  revert ext. induction s as [|a r IH]; intros ext; cbn.
  - split; [done|]. intros (base & Heq & _). by destruct base.
  - destruct (Py.rsplit1 c r) as [tl|] eqn:Hr.
    + split.
      * intros [= ->]. destruct (proj1 (IH ext) eq_refl) as (base & -> & Hext).
        by exists (String a base).
      * intros (base & Heq & Hext). destruct base as [|b base]; cbn in Heq.
        -- injection Heq as -> ->. apply rsplit1_None in Hext. congruence.
        -- injection Heq as -> ->. apply IH. eauto.
    + apply rsplit1_None in Hr. destruct (Ascii.eqb a c) eqn:Ha.
      * apply Ascii.eqb_eq in Ha as ->. split.
        -- intros [= ->]. by exists "".
        -- intros (base & Heq & Hext). destruct base as [|b base]; cbn in Heq.
           ++ by injection Heq as ->.
           ++ injection Heq as -> ->. rewrite contains_app in Hr. cbn in Hr.
              rewrite Ascii.eqb_refl, orb_true_r in Hr. done.
      * split; [done|]. intros (base & Heq & Hext). destruct base as [|b base]; cbn in Heq.
        -- injection Heq as -> ->. by rewrite Ascii.eqb_refl in Ha.
        -- injection Heq as -> ->. rewrite contains_app in Hr. cbn in Hr.
           rewrite Ascii.eqb_refl, orb_true_r in Hr. done.
Qed.

(** X1. A file name is allowed exactly when it ends in a dot followed by
    one of the allowed extensions, in any letter case: only the text after
    the last dot counts. *)
Theorem allowed_file_iff name :
  allowed_file name = true ↔
  ∃ base ext,
    name = base +:+ "." +:+ ext
    ∧ Py.contains "." ext = false
    ∧ Py.lower ext ∈ ALLOWED_EXTENSIONS.
Proof.
  unfold allowed_file. split.
  - destruct (Py.contains "." name); [|done]. cbn [negb].
    destruct (Py.rsplit1 "." name) as [ext|] eqn:Hext; [|done].
    intros Hin%bool_decide_eq_true. apply rsplit1_Some in Hext as (base & -> & Hdot).
    by exists base, ext.
  - intros (base & ext & -> & Hdot & Hin).
    assert (Py.rsplit1 "." (base +:+ "." +:+ ext) = Some ext) as Hsplit.
    { apply rsplit1_Some. by exists base. }
    assert (Py.contains "." (base +:+ "." +:+ ext) = true) as ->.
    { destruct (Py.contains "." (base +:+ "." +:+ ext)) eqn:Hc; [done|].
      apply rsplit1_None in Hc. by rewrite Hsplit in Hc. }
    rewrite Hsplit. by apply bool_decide_eq_true.
Qed.

(** *** [to_dict] *)

Lemma text_or_null_inj a b : text_or_null a = text_or_null b → a = b.
Proof. destruct a, b; cbn; congruence. Qed.

(** X22. The record of a row shows all of it: two rows have the same
    record exactly when they agree on every column, the attachment column
    counted as the list it holds (NULL shows as the empty list). *)
Theorem to_dict_inj i j : to_dict i = to_dict j ↔ shown i = shown j.
Proof.
  unfold to_dict, shown, set_attachments. split.
  - intros Heq. injection Heq as Hid Htrack Hsummary Hdesc Hatt Hraised Hassignee Hstatus
      Hscenario Hstep Hcreated.
    apply text_or_null_inj in Hdesc, Hraised, Hassignee, Hscenario, Hstep. congruence.
  - intros Heq. injection Heq as Hid Htrack Hsummary Hdesc Hatt Hraised Hassignee Hstatus
      Hscenario Hstep Hcreated.
    congruence.
Qed.

(** ** The further properties on the deployment of the examples *)

Lemma demo_stored_names_distinct : stored_names_distinct demo_uuid4_hex demo_secure_filename.
Proof.
  intros n. unfold stored_name.
  induction n as [|n IH]; intros [|m] s t Heq; [done|discriminate Heq|discriminate Heq|].
  cbn in Heq. injection Heq as Heq. f_equal. by apply (IH m s t).
Qed.

Lemma demo_world_1_consistent :
  consistent demo_uuid4_hex demo_secure_filename demo_upload_folder demo_world_1.
Proof.
  rewrite <- demo_world_1_reached.
  apply run_consistent;
    [apply demo_stored_names_plain|apply demo_stored_names_distinct| |by_computation].
  apply fresh_world_consistent, demo_app_dir_plain.
Qed.

Lemma demo_world_2_consistent :
  consistent demo_uuid4_hex demo_secure_filename demo_upload_folder demo_world_2.
Proof.
  apply run_consistent;
    [apply demo_stored_names_plain|apply demo_stored_names_distinct| |by_computation].
  apply demo_world_1_consistent.
Qed.

Lemma demo_world_1_keys : keys_are_ids demo_world_1.
Proof. unfold keys_are_ids. by_computation. Qed.

Lemma demo_world_2_keys : keys_are_ids demo_world_2.
Proof. unfold keys_are_ids. by_computation. Qed.

Lemma demo_world_1_statuses : statuses_allowed demo_world_1.
Proof. unfold statuses_allowed. by_computation. Qed.

Lemma demo_world_2_rows :
  db demo_world_2 !! 1%Z = Some demo_issue ∧ db demo_world_2 !! 2%Z = Some demo_issue_2.
Proof. split; by_computation. Qed.

Lemma cell_text_short s :
  String.length s ≤ 100 → has_illegal_character s = false → cell_text s.
Proof.
  intros Hlen Hclean. split; [|done].
  assert (100 ≤ CELL_MAX) as Hmax by (apply Nat.leb_le; vm_compute; reflexivity).
  assert (Py.len s ≤ String.length s) as Hle; [|lia].
  clear. unfold Py.len. induction s as [|a r IH]; [done|]. cbn [Py.chars String.length].
  destruct (Py.chars r) as [|[|b c] cs]; cbn [length] in *; [lia..|].
  destruct (Py.is_continuation b); cbn [length]; lia.
Qed.

Lemma demo_world_2_exportable : map_Forall (λ _ i, exportable i) (db demo_world_2).
Proof.
  intros k i Hk.
  assert (i = demo_issue ∨ i = demo_issue_2) as [-> | ->].
  { destruct demo_world_2_rows as [H1 H2].
    destruct (decide (k = 1%Z)) as [->|?]; [left; congruence|].
    destruct (decide (k = 2%Z)) as [->|?]; [right; congruence|].
    exfalso. revert Hk. unfold demo_world_2.
    assert (dom (db (run demo_uuid4_hex demo_secure_filename demo_app_dir demo_world_1
                       [POST_issues (mkRequest demo_fields NotJson [png "d"]) 200]))
            = {[ 1%Z; 2%Z ]}) as Hdom by by_computation.
    intros Hk%(elem_of_dom_2 (D := gset Z)). rewrite Hdom in Hk.
    apply elem_of_union in Hk as [Hk%elem_of_singleton|Hk%elem_of_singleton]; done. }
  all: unfold exportable, export_row;
    repeat (apply Forall_cons; split;
            [first [exact I | apply cell_text_short; vm_compute; (lia || reflexivity)]|]);
    apply Forall_nil_2.
Qed.

Lemma get_issues_newest_first_witness :
  ∃ issues,
    get_issues demo_world_2
    = (mkResponse 200 (Json_issues (to_dict <$> issues)), demo_world_2)
    ∧ (∀ i, i ∈ issues ↔ db demo_world_2 !! id i = Some i)
    ∧ length issues = size (db demo_world_2)
    ∧ StronglySorted (λ a b, (id b < id a)%Z) issues.
Proof. exact (get_issues_newest_first demo_world_2 demo_world_2_keys). Defined.

Lemma run_statuses_allowed_witness :
  statuses_allowed
    (run demo_uuid4_hex demo_secure_filename demo_app_dir demo_world_1
         [PATCH_issue 1 (mkRequest ∅ (Parsed (JDict {[ "status" := JStr "Fixed" ]})) []);
          POST_issues (mkRequest demo_fields NotJson []) 300]).
Proof.
  exact (run_statuses_allowed demo_uuid4_hex demo_secure_filename demo_app_dir _ demo_world_1
           demo_world_1_statuses).
Defined.

Lemma run_keys_are_ids_witness :
  keys_are_ids
    (run demo_uuid4_hex demo_secure_filename demo_app_dir demo_world_1
         [POST_issues (mkRequest demo_fields NotJson []) 300; DELETE_issue 1;
          POST_issues (mkRequest demo_fields NotJson [png "z"]) 400]).
Proof.
  exact (run_keys_are_ids demo_uuid4_hex demo_secure_filename demo_app_dir _ demo_world_1
           demo_world_1_keys).
Defined.

Lemma handle_keeps_identity_witness :
  let c := PATCH_issue 1 (mkRequest (text_form [("assignee", " bob ")]) NotJson []) in
  let issue' := setattr demo_issue "assignee" "bob" in
  db demo_world_1 !! 1%Z = Some demo_issue
  ∧ db (handle demo_uuid4_hex demo_secure_filename demo_app_dir demo_world_1 c).2 !! 1%Z
    = Some issue'
  ∧ id issue' = id demo_issue ∧ created_at issue' = created_at demo_issue.
Proof.
  cbn zeta.
  assert (db demo_world_1 !! 1%Z = Some demo_issue) as Hrow by by_computation.
  assert (db (handle demo_uuid4_hex demo_secure_filename demo_app_dir demo_world_1
                (PATCH_issue 1 (mkRequest (text_form [("assignee", " bob ")]) NotJson []))).2
          !! 1%Z = Some (setattr demo_issue "assignee" "bob")) as Hrow'
    by by_computation.
  split_and!; [exact Hrow|exact Hrow'|..];
    apply (handle_keeps_identity demo_uuid4_hex demo_secure_filename demo_app_dir demo_world_1
             _ 1 demo_issue _ Hrow Hrow').
Defined.



Lemma add_issue_listed_first_witness :
  let answer :=
    add_issue demo_uuid4_hex demo_secure_filename demo_app_dir demo_world_1
              (mkRequest demo_fields NotJson [png "d"]) 200 in
  ∃ d rest,
    payload answer.1 = Json_issue d
    ∧ get_issues answer.2 = (mkResponse 200 (Json_issues (d :: rest)), answer.2).
Proof.
  cbn zeta.
  apply (add_issue_listed_first demo_uuid4_hex demo_secure_filename demo_app_dir demo_world_1
           (mkRequest demo_fields NotJson [png "d"]) 200 _ _ demo_world_1_keys).
  by_computation.
Defined.



Lemma uploaded_file_plain_witness :
  (status_code (uploaded_file demo_app_dir demo_world_1 "0_a.png").1 = 200
   ↔ file_entry (disk demo_world_1) demo_upload_folder "0_a.png")
  ∧ (∀ content,
       disk demo_world_1 !! (demo_upload_folder ++ ["0_a.png"]) = Some (Posix.File content) →
       uploaded_file demo_app_dir demo_world_1 "0_a.png"
       = (mkResponse 200 (File_content (demo_upload_folder ++ ["0_a.png"]) content),
          demo_world_1))
  ∧ (¬ file_entry (disk demo_world_1) demo_upload_folder "0_a.png" →
     uploaded_file demo_app_dir demo_world_1 "0_a.png"
     = (mkResponse 404 Error_page, demo_world_1)).
Proof.
  apply (uploaded_file_plain demo_app_dir demo_world_1 "0_a.png");
    [apply demo_world_1_store_ok|by_computation].
Defined.

Lemma delete_attachment_idempotent_witness :
  delete_attachment demo_app_dir
    (delete_attachment demo_app_dir demo_world_1 1 "0_a.png").2 1 "0_a.png"
  = delete_attachment demo_app_dir demo_world_1 1 "0_a.png".
Proof.
  apply (delete_attachment_idempotent demo_app_dir demo_world_1 1 "0_a.png"
           demo_world_1_store_ok).
  intros issue Hrow. vm_compute in Hrow. injection Hrow as <-. by_computation.
Defined.

Lemma delete_attachment_removes_witness :
  let issue' :=
    set_attachments demo_issue (Py.remove_first "0_a.png" (attachment_list demo_issue)) in
  let w' := mkWorld (<[1%Z := issue']> (db demo_world_1))
                    (delete (demo_upload_folder ++ ["0_a.png"]) (disk demo_world_1))
                    (entropy demo_world_1) in
  delete_attachment demo_app_dir demo_world_1 1 "0_a.png"
  = (mkResponse 200 (Json_issue (to_dict issue')), w')
  ∧ S (length (attachment_list issue')) = length (attachment_list demo_issue)
  ∧ uploaded_file demo_app_dir w' "0_a.png" = (mkResponse 404 Error_page, w')
  ∧ (∀ other, other ≠ 1%Z → db w' !! other = db demo_world_1 !! other)
  ∧ (∀ p, p ≠ demo_upload_folder ++ ["0_a.png"] → disk w' !! p = disk demo_world_1 !! p).
Proof.
  apply (delete_attachment_removes demo_app_dir demo_world_1 1 demo_issue "0_a.png"
           demo_world_1_store_ok); by_computation.
Defined.

Lemma handle_refusal_no_effect_witness :
  let c := PATCH_issue 1 (mkRequest (text_form [("status", "InProgress")]) NotJson [png "z"]) in
  400 ≤ status_code (handle demo_uuid4_hex demo_secure_filename demo_app_dir demo_world_1 c).1
      < 500
  ∧ (handle demo_uuid4_hex demo_secure_filename demo_app_dir demo_world_1 c).2 = demo_world_1.
Proof.
  cbn zeta.
  assert (400 ≤ status_code
                  (handle demo_uuid4_hex demo_secure_filename demo_app_dir demo_world_1
                     (PATCH_issue 1 (mkRequest (text_form [("status", "InProgress")]) NotJson
                                               [png "z"]))).1 < 500) as Hrefused
    by (vm_compute; lia).
  split; [exact Hrefused|].
  exact (handle_refusal_no_effect demo_uuid4_hex demo_secure_filename demo_app_dir demo_world_1
           _ Hrefused).
Defined.


Lemma reachable_table_matches_folder_witness :
  let calls :=
    [POST_issues (mkRequest demo_fields NotJson [png "a"; png "a"]) 100;
     PATCH_issue 1 (mkRequest (text_form [("assignee", "bob")]) NotJson [png "a"]);
     DELETE_attachment 1 "a0_a.png"] in
  let w := run demo_uuid4_hex demo_secure_filename demo_app_dir (fresh_world demo_app_dir)
               calls in
  Forall (λ r, status_code r ≠ 500)
         (answers demo_uuid4_hex demo_secure_filename demo_app_dir (fresh_world demo_app_dir)
                  calls)
  ∧ NoDup (table_names (db w))
  ∧ (∀ k issue c, db w !! k = Some issue → c ∈ attachment_list issue →
       file_entry (disk w) demo_upload_folder c)
  ∧ (∀ c, file_entry (disk w) demo_upload_folder c →
          ∃ k issue, db w !! k = Some issue ∧ c ∈ attachment_list issue).
Proof.
  cbn zeta.
  pose proof (reachable_table_matches_folder demo_uuid4_hex demo_secure_filename demo_app_dir
                [POST_issues (mkRequest demo_fields NotJson [png "a"; png "a"]) 100;
                 PATCH_issue 1 (mkRequest (text_form [("assignee", "bob")]) NotJson [png "a"]);
                 DELETE_attachment 1 "a0_a.png"]
                demo_app_dir_plain demo_stored_names_plain demo_stored_names_distinct)
    as (Hnd & Hlisted & Hexact).
  assert (Forall (λ r, status_code r ≠ 500)
            (answers demo_uuid4_hex demo_secure_filename demo_app_dir
               (fresh_world demo_app_dir)
               [POST_issues (mkRequest demo_fields NotJson [png "a"; png "a"]) 100;
                PATCH_issue 1 (mkRequest (text_form [("assignee", "bob")]) NotJson [png "a"]);
                DELETE_attachment 1 "a0_a.png"])) as Hanswers by by_computation.
  split_and!; [exact Hanswers|exact Hnd|exact Hlisted|exact (Hexact Hanswers)].
Defined.

Lemma reachable_attachments_served_witness :
  ∃ content,
    uploaded_file demo_app_dir demo_world_1 "a0_c.png"
    = (mkResponse 200 (File_content (demo_upload_folder ++ ["a0_c.png"]) content),
       demo_world_1).
Proof.
  pose proof (reachable_attachments_served demo_uuid4_hex demo_secure_filename demo_app_dir
                [POST_issues (mkRequest demo_fields NotJson
                                        [png "a"; mkFile "b.txt" "x"; png "c"]) 100]
                1 demo_issue "a0_c.png"
                demo_app_dir_plain demo_stored_names_plain demo_stored_names_distinct)
    as Hserved.
  cbn zeta in Hserved. change (fresh_world demo_app_dir) with demo_world in Hserved.
  rewrite demo_world_1_reached in Hserved.
  apply Hserved; by_computation.
Defined.


Lemma delete_issue_spares_others_witness :
  let w' := (delete_issue demo_app_dir demo_world_2 1).2 in
  db w' !! 2%Z = Some demo_issue_2
  ∧ ∃ content,
      uploaded_file demo_app_dir demo_world_2 "aa0_d.png"
      = (mkResponse 200 (File_content (demo_upload_folder ++ ["aa0_d.png"]) content),
         demo_world_2)
      ∧ uploaded_file demo_app_dir w' "aa0_d.png"
        = (mkResponse 200 (File_content (demo_upload_folder ++ ["aa0_d.png"]) content), w').
Proof.
  apply (delete_issue_spares_others demo_uuid4_hex demo_secure_filename demo_app_dir
           demo_world_2 1 demo_issue 2 demo_issue_2 "aa0_d.png" demo_world_2_consistent);
    [apply demo_world_2_rows|done|apply demo_world_2_rows|by_computation].
Defined.

Lemma delete_issue_then_unknown_witness :
  let request := mkRequest (text_form [("assignee", "bob")]) NotJson [png "z"] in
  let w' := (delete_issue demo_app_dir demo_world_1 1).2 in
  delete_issue demo_app_dir w' 1 = (mkResponse 404 Error_page, w')
  ∧ update_issue demo_uuid4_hex demo_secure_filename demo_app_dir w' 1 request
    = (mkResponse 404 Error_page, w')
  ∧ delete_attachment demo_app_dir w' 1 "0_a.png" = (mkResponse 404 Error_page, w')
  ∧ ∃ issues,
      get_issues w' = (mkResponse 200 (Json_issues (to_dict <$> issues)), w')
      ∧ Forall (λ i, id i ≠ 1%Z) issues
      ∧ S (length issues) = size (db demo_world_1).
Proof.
  apply (delete_issue_then_unknown demo_uuid4_hex demo_secure_filename demo_app_dir
           demo_world_1 1 demo_issue _ "0_a.png" demo_world_1_store_ok demo_world_1_keys).
  by_computation.
Defined.

